(** * AccuChek Performa Nano serial driver: a shallow embedding of accuchek.py

    The Python module drives a half-duplex serial protocol.  The embedding
    has three layers, each in a module of its own:

    - [Py]: the part of the Python run time the driver leans on (bytes
      objects, slices, [int()], [str.decode], [strptime], binary64 floats
      and [Decimal.quantize]);
    - [Serial]: the serial line as explicit state, with the driver's
      computations written in a state-and-exception monad;
    - [AccuChek]: the methods of class [AccuChekPerformaNano], one
      definition per method, under the names of the source.

    Definitions come first; the properties of the driver follow. *)

From Stdlib Require Import ZArith NArith List Bool Lia Permutation.
From Stdlib Require Import Strings.Byte Strings.String.
From Stdlib Require Import Numbers.DecimalString Numbers.HexadecimalString.
From Stdlib Require Import Floats.SpecFloat.
Import ListNotations.

Local Open Scope Z_scope.

(* ===================================================================== *)
(** * Python run time *)
(* ===================================================================== *)

Module Py.

(** Exception classes that can occur in the driver.  Only the class is
    kept; messages are not modelled. *)
Inductive exn : Type :=
| TimeoutError
| ParseError            (* the driver's own exception class *)
| TypeError
| ValueError
| IndexError
| AttributeError
| OverflowError
| UnicodeDecodeError
| InvalidOperation.     (* decimal.InvalidOperation *)

(** Outcome of an expression that may raise. *)
Inductive result (A : Type) : Type :=
| Ok (a : A)
| Err (e : exn).
Arguments Ok {A} a.
Arguments Err {A} e.

Definition rbind {A B} (r : result A) (k : A -> result B) : result B :=
  match r with
  | Ok a => k a
  | Err e => Err e
  end.

Declare Scope result_scope.
Delimit Scope result_scope with result.
Notation "x <- c ;; k" := (rbind c (fun x => k))
  (at level 61, c at next level, right associativity) : result_scope.

(** ** bytes and bytearray

    Both are sequences of integers in [0, 256): [list byte]. *)
Definition bytes : Type := list byte.

Definition ord (b : byte) : Z := Z.of_N (Byte.to_N b).

Definition len {A} (l : list A) : Z := Z.of_nat (List.length l).

Definition bytes_eqb (a b : bytes) : bool :=
  if list_eq_dec Byte.byte_eq_dec a b then true else false.

(** [b"..."] literals with printable content. *)
Definition b_ (s : string) : bytes := list_byte_of_string s.

(** Index normalisation of a slice bound, as [PySlice_AdjustIndices] does
    for step 1: a negative bound counts from the end, and the result is
    clipped to [0, n]. *)
Definition adjust_index (n i : Z) : Z :=
  if i <? 0 then Z.max 0 (i + n) else Z.min i n.

(** [l[i:j]]. *)
Definition slice {A} (l : list A) (i j : Z) : list A :=
  let n := len l in
  let lo := adjust_index n i in
  let hi := adjust_index n j in
  firstn (Z.to_nat (hi - lo)) (skipn (Z.to_nat lo) l).

(** [sep.join(parts)] *)
Fixpoint join (sep : bytes) (parts : list bytes) : bytes :=
  match parts with
  | [] => []
  | [p] => p
  | p :: ps => p ++ sep ++ join sep ps
  end.

(** [data.lstrip(chars)], [data.rstrip(chars)], [data.strip(chars)] for a
    one-byte [chars]. *)
Fixpoint lstrip (c : byte) (data : bytes) : bytes :=
  match data with
  | x :: xs => if Byte.eqb x c then lstrip c xs else data
  | [] => []
  end.

Definition rstrip (c : byte) (data : bytes) : bytes :=
  rev (lstrip c (rev data)).

Definition strip (c : byte) (data : bytes) : bytes :=
  rstrip c (lstrip c data).

(** [data.split(sep)] for a one-byte separator: always at least one
    part, empty parts are kept. *)
Fixpoint split (sep : byte) (data : bytes) : list bytes :=
  match data with
  | [] => [[]]
  | x :: xs =>
      if Byte.eqb x sep then [] :: split sep xs
      else match split sep xs with
           | p :: ps => (x :: p) :: ps
           | [] => [[x]]
           end
  end.

(** [l[i]] for a non-negative literal index. *)
Definition index {A} (l : list A) (i : nat) : result A :=
  match nth_error l i with
  | Some a => Ok a
  | None => Err IndexError
  end.

(** ** str

    A [str] is a sequence of code points.  [data.decode()] is strict
    UTF-8: overlong forms, surrogates, values above U+10FFFF and truncated
    sequences raise [UnicodeDecodeError]. *)
Definition str : Type := list N.

Definition cont (b : byte) : option N :=
  let n := Byte.to_N b in
  if ((0x80 <=? n) && (n <=? 0xBF))%N then Some (n - 0x80)%N else None.

Definition in_range (lo hi n : N) : bool := ((lo <=? n) && (n <=? hi))%N.

Fixpoint utf8 (data : bytes) : option str :=
  match data with
  | [] => Some []
  | b1 :: r1 =>
      let n1 := Byte.to_N b1 in
      if (n1 <? 0x80)%N then option_map (cons n1) (utf8 r1)
      else
        match r1 with
        | [] => None
        | b2 :: r2 =>
            let n2 := Byte.to_N b2 in
            match cont b2 with
            | None => None
            | Some c2 =>
                if in_range 0xC2 0xDF n1 then
                  option_map (cons ((n1 - 0xC0) * 64 + c2)%N) (utf8 r2)
                else
                  match r2 with
                  | [] => None
                  | b3 :: r3 =>
                      match cont b3 with
                      | None => None
                      | Some c3 =>
                          if in_range 0xE0 0xEF n1 then
                            if ((n1 =? 0xE0) && (n2 <? 0xA0))%N then None
                            else if ((n1 =? 0xED) && (0x9F <? n2))%N then None
                            else option_map
                                   (cons ((n1 - 0xE0) * 4096 + c2 * 64 + c3)%N)
                                   (utf8 r3)
                          else
                            match r3 with
                            | [] => None
                            | b4 :: r4 =>
                                match cont b4 with
                                | None => None
                                | Some c4 =>
                                    if in_range 0xF0 0xF4 n1 then
                                      if ((n1 =? 0xF0) && (n2 <? 0x90))%N
                                      then None
                                      else if ((n1 =? 0xF4) && (0x8F <? n2))%N
                                      then None
                                      else option_map
                                             (cons ((n1 - 0xF0) * 262144
                                                    + c2 * 4096 + c3 * 64
                                                    + c4)%N)
                                             (utf8 r4)
                                    else None
                                end
                            end
                      end
                  end
            end
        end
  end.

Definition decode (data : bytes) : result str :=
  match utf8 data with
  | Some s => Ok s
  | None => Err UnicodeDecodeError
  end.

(** [s.encode()] is only applied to text made of ASCII digits, which
    encode to themselves. *)
Definition encode_ascii (s : str) : bytes :=
  map (fun c => match Byte.of_N c with Some b => b | None => x3f end) s.

(** ** The Unicode character database

    [int()] and the regular expression class [\d] consult the character
    database of the interpreter for code points outside ASCII.  Which
    code points are white space or decimal digits depends on the Unicode
    version the interpreter ships, so both tables are an interface here;
    [unicode_14] below is the instance of CPython 3.11. *)
Class UnicodeData : Type := {
  uni_isspace : N -> bool;            (* Py_UNICODE_ISSPACE, above U+007F *)
  uni_todecimal : N -> option N       (* Py_UNICODE_TODECIMAL, above U+007F *)
}.

(** First code point of every run of ten decimal digits (category Nd) in
    Unicode 14.0, ASCII excluded. *)
Definition nd_runs_14 : list N :=
  [ 0x660; 0x6F0; 0x7C0; 0x966; 0x9E6; 0xA66; 0xAE6; 0xB66; 0xBE6; 0xC66;
    0xCE6; 0xD66; 0xDE6; 0xE50; 0xED0; 0xF20; 0x1040; 0x1090; 0x17E0;
    0x1810; 0x1946; 0x19D0; 0x1A80; 0x1A90; 0x1B50; 0x1BB0; 0x1C40; 0x1C50;
    0xA620; 0xA8D0; 0xA900; 0xA9D0; 0xA9F0; 0xAA50; 0xABF0; 0xFF10;
    0x104A0; 0x10D30; 0x11066; 0x110F0; 0x11136; 0x111D0; 0x112F0;
    0x11450; 0x114D0; 0x11650; 0x116C0; 0x11730; 0x118E0; 0x11950;
    0x11C50; 0x11D50; 0x11DA0; 0x16A60; 0x16AC0; 0x16B50; 0x1D7CE;
    0x1D7D8; 0x1D7E2; 0x1D7EC; 0x1D7F6; 0x1E140; 0x1E2F0; 0x1E950;
    0x1FBF0 ]%N.

Definition spaces_14 : list N :=
  [ 0x85; 0xA0; 0x1680; 0x2000; 0x2001; 0x2002; 0x2003; 0x2004; 0x2005;
    0x2006; 0x2007; 0x2008; 0x2009; 0x200A; 0x2028; 0x2029; 0x202F; 0x205F;
    0x3000 ]%N.

Fixpoint run_digit (runs : list N) (c : N) : option N :=
  match runs with
  | [] => None
  | s :: rest =>
      if in_range s (s + 9) c then Some (c - s)%N else run_digit rest c
  end.

Definition unicode_14 : UnicodeData := {|
  uni_isspace := fun c => existsb (N.eqb c) spaces_14;
  uni_todecimal := run_digit nd_runs_14
|}.

Section Text.
Context {U : UnicodeData}.

(** [Py_UNICODE_ISDECIMAL], the class [\d] of [re] on str patterns. *)
Definition isdecimal (c : N) : bool :=
  if (c <? 128)%N then in_range 48 57 c
  else match uni_todecimal c with Some _ => true | None => false end.

(** ** int(text, base)

    [_PyUnicode_TransformDecimalAndSpaceToASCII]: ASCII is kept, other
    white space becomes a blank, other decimal digits become ASCII digits,
    anything else ends the conversion with an error.  (CPython replaces
    such a character, U+007F included, by a question mark and stops; the
    parse then fails at it, as it does here.) *)
Fixpoint to_ascii (s : str) : option (list N) :=
  match s with
  | [] => Some []
  | c :: r =>
      if (c <? 128)%N then option_map (cons c) (to_ascii r)
      else if uni_isspace c then option_map (cons 32%N) (to_ascii r)
      else match uni_todecimal c with
           | Some d => option_map (cons (48 + d)%N) (to_ascii r)
           | None => None
           end
  end.

(** [Py_ISSPACE]: tab, line feed, vertical tab, form feed, carriage
    return, blank. *)
Definition c_isspace (c : N) : bool := in_range 9 13 c || (c =? 32)%N.

Fixpoint skip_spaces (s : list N) : list N :=
  match s with
  | c :: r => if c_isspace c then skip_spaces r else s
  | [] => []
  end.

(** [_PyLong_DigitValue] *)
Definition digit_value (c : N) : option Z :=
  if in_range 48 57 c then Some (Z.of_N (c - 48))
  else if in_range 97 122 c then Some (Z.of_N (c - 97 + 10))
  else if in_range 65 90 c then Some (Z.of_N (c - 65 + 10))
  else None.

Definition digit_in (base : Z) (c : N) : option Z :=
  match digit_value c with
  | Some d => if d <? base then Some d else None
  | None => None
  end.

(** The digit scan of [PyLong_FromString]: digits of the base, single
    underscores between them.  [prev] tells that the previous character
    was an underscore.  The result is the value and the unread rest. *)
Fixpoint scan_digits (base acc : Z) (prev : bool) (s : list N)
  : option (Z * list N) :=
  match s with
  | [] => if prev then None else Some (acc, [])
  | c :: r =>
      if (c =? 95)%N then
        if prev then None else scan_digits base acc true r
      else
        match digit_in base c with
        | Some d => scan_digits base (acc * base + d) false r
        | None => if prev then None else Some (acc, s)
        end
  end.

Definition skip_prefix (base : Z) (s : list N) : list N :=
  match s with
  | 48%N :: x :: r =>
      if (base =? 16) && ((x =? 120) || (x =? 88))%N then
        match r with
        | 95%N :: r' => r'
        | _ => r
        end
      else s
  | _ => s
  end.

(** [PyLong_FromString] for base 10 or 16 on the ASCII form. *)
Definition parse_long (base : Z) (s : list N) : option Z :=
  let s1 := skip_spaces s in
  let '(neg, s2) :=
    match s1 with
    | 43%N :: r => (false, r)
    | 45%N :: r => (true, r)
    | _ => (false, s1)
    end in
  let s3 := skip_prefix base s2 in
  match s3 with
  | [] => None
  | c :: _ =>
      match digit_in base c with
      | None => None                  (* no digit, or a leading underscore *)
      | Some _ =>
          match scan_digits base 0 false s3 with
          | None => None
          | Some (v, rest) =>
              match skip_spaces rest with
              | [] => Some (if neg then - v else v)
              | _ :: _ => None
              end
          end
      end
  end.

(** [int(text, base)], without the limit on the number of digits that
    CPython 3.11 added for very long decimal literals. *)
Definition int_of_str (base : Z) (s : str) : result Z :=
  match to_ascii s with
  | None => Err ValueError
  | Some a =>
      match parse_long base a with
      | Some v => Ok v
      | None => Err ValueError
      end
  end.

(** [int(data.decode(), base)] *)
Definition int_of_bytes (base : Z) (data : bytes) : result Z :=
  (s <- decode data ;; int_of_str base s)%result.

End Text.

(** ** Formatting integers *)

(** [str(n)] as bytes: [bytes([ord(o) for o in str(n)])].  (From
    CPython 3.11 on, [str] refuses an int of more than 4300 digits; the
    properties below that rest on [str] stay within that size.) *)
Definition str_of_int (n : Z) : bytes :=
  list_byte_of_string (DecimalString.NilZero.string_of_int (Z.to_int n)).

(** [s.zfill(2)] for the text of a non-negative integer. *)
Definition zfill2 (s : bytes) : bytes :=
  match s with
  | [] => [x30; x30]
  | [d] => [x30; d]
  | _ => s
  end.

Fixpoint hex_upper (d : Hexadecimal.uint) : bytes :=
  match d with
  | Hexadecimal.Nil => []
  | Hexadecimal.D0 r => x30 :: hex_upper r
  | Hexadecimal.D1 r => x31 :: hex_upper r
  | Hexadecimal.D2 r => x32 :: hex_upper r
  | Hexadecimal.D3 r => x33 :: hex_upper r
  | Hexadecimal.D4 r => x34 :: hex_upper r
  | Hexadecimal.D5 r => x35 :: hex_upper r
  | Hexadecimal.D6 r => x36 :: hex_upper r
  | Hexadecimal.D7 r => x37 :: hex_upper r
  | Hexadecimal.D8 r => x38 :: hex_upper r
  | Hexadecimal.D9 r => x39 :: hex_upper r
  | Hexadecimal.Da r => x41 :: hex_upper r
  | Hexadecimal.Db r => x42 :: hex_upper r
  | Hexadecimal.Dc r => x43 :: hex_upper r
  | Hexadecimal.Dd r => x44 :: hex_upper r
  | Hexadecimal.De r => x45 :: hex_upper r
  | Hexadecimal.Df r => x46 :: hex_upper r
  end.

(** ["%02X" % n] as bytes, for [n >= 0] (the driver formats a checksum). *)
Definition format_02X (n : Z) : bytes :=
  zfill2 (hex_upper (N.to_hex_uint (Z.to_N n))).

(** ** datetime.strptime

    [_strptime] turns the format into a regular expression, one group per
    directive, and matches it at the start of the text with the usual
    backtracking; text left over after the match is an error.  The groups
    are then converted with [int()]. *)
Inductive directive : Type := Dy | Dm | Dd | DH | DM | DS.

(** One character of a directive's pattern. *)
Inductive cls : Type :=
| Digit                      (* \d *)
| Rng (lo hi : N)            (* [lo-hi] *)
| Chr (c : N).

(** The alternatives of each directive, in the order of [TimeRE]:
<<
  'd': 3[0-1]|[1-2]\d|0[1-9]|[1-9]| [1-9]     'H': 2[0-3]|[0-1]\d|\d
  'm': 1[0-2]|0[1-9]|[1-9]                    'M': [0-5]\d|\d
  'S': 6[0-1]|[0-5]\d|\d                      'y': \d\d
>> *)
Definition pattern (d : directive) : list (list cls) :=
  match d with
  | Dd => [ [Chr 51; Rng 48 49]; [Rng 49 50; Digit]; [Chr 48; Rng 49 57];
            [Rng 49 57]; [Chr 32; Rng 49 57] ]
  | DH => [ [Chr 50; Rng 48 51]; [Rng 48 49; Digit]; [Digit] ]
  | Dm => [ [Chr 49; Rng 48 50]; [Chr 48; Rng 49 57]; [Rng 49 57] ]
  | DM => [ [Rng 48 53; Digit]; [Digit] ]
  | DS => [ [Chr 54; Rng 48 49]; [Rng 48 53; Digit]; [Digit] ]
  | Dy => [ [Digit; Digit] ]
  end%N.

Record datetime : Type := mk_datetime {
  year : Z; month : Z; day : Z; hour : Z; minute : Z; second : Z
}.

Record date : Type := mk_date { d_year : Z; d_month : Z; d_day : Z }.
Record time : Type := mk_time { t_hour : Z; t_minute : Z; t_second : Z }.

Definition date_of (dt : datetime) : date :=
  mk_date (year dt) (month dt) (day dt).
Definition time_of (dt : datetime) : time :=
  mk_time (hour dt) (minute dt) (second dt).

Definition is_leap (y : Z) : bool :=
  (y mod 4 =? 0) && (negb (y mod 100 =? 0) || (y mod 400 =? 0)).

Definition days_in_month (y m : Z) : Z :=
  if m =? 2 then (if is_leap y then 29 else 28)
  else if (m =? 4) || (m =? 6) || (m =? 9) || (m =? 11) then 30
  else 31.

Section Strptime.
Context {U : UnicodeData}.

Definition cls_matches (k : cls) (c : N) : bool :=
  match k with
  | Digit => isdecimal c
  | Rng lo hi => in_range lo hi c
  | Chr x => (c =? x)%N
  end.

(** One alternative against the head of the text: the matched characters
    and the rest. *)
Fixpoint match_alt (alt : list cls) (s : str) : option (str * str) :=
  match alt with
  | [] => Some ([], s)
  | k :: alt' =>
      match s with
      | c :: r =>
          if cls_matches k c then
            match match_alt alt' r with
            | Some (m, rest) => Some (c :: m, rest)
            | None => None
            end
          else None
      | [] => None
      end
  end.

(** The first alternative for which [k] succeeds on the rest. *)
Fixpoint first_alt {A} (alts : list (list cls)) (s : str)
    (k : str -> str -> option A) : option A :=
  match alts with
  | [] => None
  | alt :: alts' =>
      match match_alt alt s with
      | Some (m, rest) =>
          match k m rest with
          | Some a => Some a
          | None => first_alt alts' s k
          end
      | None => first_alt alts' s k
      end
  end.

(** Backtracking match of the whole format; the groups come in the order
    of the directives. *)
Fixpoint match_format (fmt : list directive) (s : str)
  : option (list (directive * str) * str) :=
  match fmt with
  | [] => Some ([], s)
  | d :: fmt' =>
      first_alt (pattern d) s (fun m rest =>
        match match_format fmt' rest with
        | Some (groups, rest') => Some ((d, m) :: groups, rest')
        | None => None
        end)
  end.

(** The fields as [_strptime] holds them before a datetime is built: no
    year yet, first of January, midnight. *)
Record fields : Type := mk_fields {
  f_year : option Z; f_month : Z; f_day : Z;
  f_hour : Z; f_minute : Z; f_second : Z
}.

Definition set_field (f : fields) (d : directive) (v : Z) : fields :=
  match d with
  | Dy => mk_fields (Some (if v <=? 68 then v + 2000 else v + 1900))
            (f_month f) (f_day f) (f_hour f) (f_minute f) (f_second f)
  | Dm => mk_fields (f_year f) v (f_day f) (f_hour f) (f_minute f) (f_second f)
  | Dd => mk_fields (f_year f) (f_month f) v (f_hour f) (f_minute f) (f_second f)
  | DH => mk_fields (f_year f) (f_month f) (f_day f) v (f_minute f) (f_second f)
  | DM => mk_fields (f_year f) (f_month f) (f_day f) (f_hour f) v (f_second f)
  | DS => mk_fields (f_year f) (f_month f) (f_day f) (f_hour f) (f_minute f) v
  end.

Fixpoint fill (f : fields) (groups : list (directive * str)) : result fields :=
  match groups with
  | [] => Ok f
  | (d, m) :: rest =>
      (v <- int_of_str 10 m ;; fill (set_field f d v) rest)%result
  end.

(** [datetime.strptime(text, format)] for formats made of the six
    directives above, each used at most once.  A day that the month does
    not have, or a second above 59, is refused when the date and the
    datetime are built. *)
Definition strptime (s : str) (fmt : list directive) : result datetime :=
  match match_format fmt s with
  | None => Err ValueError
  | Some (groups, rest) =>
      match rest with
      | _ :: _ => Err ValueError            (* unconverted data remains *)
      | [] =>
          (f <- fill (mk_fields None 1 1 0 0 0) groups ;;
           let y :=
             match f_year f with
             | Some y => y
             | None => if (f_month f =? 2) && (f_day f =? 29) then 1904 else 1900
             end in
           if days_in_month y (f_month f) <? f_day f then Err ValueError
           else
             let y' := match f_year f with Some _ => y | None => 1900 end in
             if days_in_month y' (f_month f) <? f_day f then Err ValueError
             else if 59 <? f_second f then Err ValueError
             else Ok (mk_datetime y' (f_month f) (f_day f)
                        (f_hour f) (f_minute f) (f_second f)))%result
      end
  end.

End Strptime.

(** [value.strftime('%y%m%d')]: three two-digit fields. *)
Definition two_digits (n : Z) : str :=
  [Z.to_N (48 + (n / 10) mod 10); Z.to_N (48 + n mod 10)].

Definition strftime_ymd (value : date) : str :=
  two_digits (d_year value mod 100) ++ two_digits (d_month value)
  ++ two_digits (d_day value).

(** ** float and Decimal

    A Python float is an IEEE 754 binary64 number; [SpecFloat] gives its
    arithmetic on integers, rounding to nearest even. *)
Definition prec : Z := 53.
Definition emax : Z := 1024.

Definition float : Type := spec_float.

(** The literal [0.0555]: the binary64 number 0x1.c6a7ef9db22d1p-5. *)
Definition literal_0_0555 : float :=
  S754_finite false 0x1c6a7ef9db22d1 (-57).

(** Conversion of the int operand of [int * float]; an int beyond the
    range of binary64 raises [OverflowError]. *)
Definition float_of_int (n : Z) : result float :=
  match binary_normalize prec emax n 0 false with
  | S754_infinity _ => Err OverflowError
  | f => Ok f
  end.

Definition float_mul (x y : float) : float := SFmul prec emax x y.

(** A Decimal: sign, coefficient and exponent; its value is
    [(-1)^sign * coefficient * 10^exponent]. *)
Record decimal : Type := mk_decimal {
  dec_sign : bool; dec_coeff : Z; dec_exp : Z
}.

(** Nearest integer to [n / d], ties to the even one ([n >= 0], [d > 0]). *)
Definition round_half_even (n d : Z) : Z :=
  let q := n / d in
  let r := n mod d in
  if 2 * r <? d then q
  else if d <? 2 * r then q + 1
  else if Z.even q then q else q + 1.

(** [Decimal(x).quantize(Decimal(10)**-1)] in the default context
    (precision 28, ROUND_HALF_EVEN): [Decimal(x)] is exact, the result has
    exponent -1, and a coefficient of more than 28 digits signals
    [InvalidOperation].  [x] is finite here: it is the product of a
    converted int and [0.0555]. *)
Definition quantize_tenths (x : float) : result decimal :=
  match x with
  | S754_zero s => Ok (mk_decimal s 0 (-1))
  | S754_finite s m e =>
      let tenths :=
        if 0 <=? e then 10 * Zpos m * 2 ^ e
        else round_half_even (10 * Zpos m) (2 ^ (- e)) in
      if 10 ^ 28 <=? tenths then Err InvalidOperation
      else Ok (mk_decimal s tenths (-1))
  | S754_infinity _ | S754_nan => Err InvalidOperation
  end.

End Py.

(* ===================================================================== *)
(** * The serial line *)
(* ===================================================================== *)

Module Serial.
Import Py.

(** The state the driver acts on.

    - [rx]: what the device will deliver, as a sequence of bursts.  The
      bytes of the first burst are in the input buffer now; an empty burst
      is a read timeout that elapses with nothing received, and so is the
      end of the sequence.
    - [tx]: every byte written so far, oldest first.
    - [log]: the records that reach the console handler.  Its level is
      WARNING, so the debug records of [_send] and [_receive] are dropped;
      every warning of the driver fails while its message is built (see
      [AccuChek.warning_0x02X]); what remains are the exceptions passed to
      [logger.error]. *)
Record world : Type := mk_world {
  rx : list bytes;
  tx : bytes;
  log : list exn
}.

(** Computations of the driver: they read and change the world and end
    with a value or an exception.  What was written before an exception
    stays written. *)
Definition M (A : Type) : Type := world -> result A * world.

Definition ret {A} (a : A) : M A := fun w => (Ok a, w).

Definition bind {A B} (c : M A) (k : A -> M B) : M B :=
  fun w =>
    match c w with
    | (Ok a, w') => k a w'
    | (Err e, w') => (Err e, w')
    end.

Definition raise {A} (e : exn) : M A := fun w => (Err e, w).

Definition lift {A} (r : result A) : M A := fun w => (r, w).

Declare Scope py_scope.
Delimit Scope py_scope with py.
Notation "x <- c ;; k" := (bind c (fun x => k))
  (at level 61, c at next level, right associativity) : py_scope.
Notation "c ;; k" := (bind c (fun _ => k))
  (at level 61, right associativity) : py_scope.

(** [Serial.write(data)]: returns the number of bytes written. *)
Definition write (data : bytes) : M Z :=
  fun w => (Ok (len data), mk_world (rx w) (tx w ++ data) (log w)).

(** [Serial.in_waiting]: the number of bytes in the input buffer. *)
Definition in_waiting : M Z :=
  fun w => (Ok (len (hd [] (rx w))), w).

(** [Serial.read(size)]: up to [size] bytes of the current burst; nothing
    when the timeout elapses first. *)
Definition read (size : Z) : M bytes :=
  fun w =>
    match rx w with
    | [] => (Ok [], w)
    | burst :: rest =>
        let n := Z.to_nat size in
        let rx' := match skipn n burst with
                   | [] => rest
                   | unread => unread :: rest
                   end in
        (Ok (firstn n burst), mk_world rx' (tx w) (log w))
    end.

(** [logger.error(ex)] *)
Definition logger_error (ex : exn) : M unit :=
  fun w => (Ok tt, mk_world (rx w) (tx w) (log w ++ [ex])).

(** What a computation that led from [w] to [w'] wrote and logged. *)
Definition sent_since (w w' : world) : bytes :=
  skipn (List.length (tx w)) (tx w').

Definition logged_since (w w' : world) : list exn :=
  skipn (List.length (log w)) (log w').

End Serial.

(* ===================================================================== *)
(** * class AccuChekPerformaNano *)
(* ===================================================================== *)

Module AccuChek.
Import Py Serial.
Local Open Scope py_scope.

Inductive AccuChekStatus : Type :=
| NO_ERROR | COMMAND_CANCELED | STX_EXPECTED_ERROR | LENGTH_EXPECTED_ERROR
| IR_DATA_OVERRUN | INVALID_NUMBER_OF_BYTES | INVALID_PARAMETER
| INVALID_NUMBER_OF_PARAMETERS | RECEIVE_BUFFER_FULL | COMMUNICATION_TIMEOUT
| COMMAND_NOT_IMPLEMENTED | COMMAND_ABORTED | NO_VALID_COMMAND
| INITIAL_COMMUNICATION.

(** [AccuChekStatus(n)]: the member of that value, [ValueError] when
    there is none. *)
Definition AccuChekStatus_of (n : Z) : result AccuChekStatus :=
  match n with
  | 0 => Ok NO_ERROR
  | 240 => Ok COMMAND_CANCELED
  | 241 => Ok STX_EXPECTED_ERROR
  | 242 => Ok LENGTH_EXPECTED_ERROR
  | 246 => Ok IR_DATA_OVERRUN
  | 247 => Ok INVALID_NUMBER_OF_BYTES
  | 248 => Ok INVALID_PARAMETER
  | 249 => Ok INVALID_NUMBER_OF_PARAMETERS
  | 250 => Ok RECEIVE_BUFFER_FULL
  | 251 => Ok COMMUNICATION_TIMEOUT
  | 252 => Ok COMMAND_NOT_IMPLEMENTED
  | 253 => Ok COMMAND_ABORTED
  | 254 => Ok NO_VALID_COMMAND
  | 255 => Ok INITIAL_COMMUNICATION
  | _ => Err ValueError
  end.

(** The value of a member, as the class gives it. *)
Definition AccuChekStatus_value (s : AccuChekStatus) : Z :=
  match s with
  | NO_ERROR => 0
  | COMMAND_CANCELED => 240
  | STX_EXPECTED_ERROR => 241
  | LENGTH_EXPECTED_ERROR => 242
  | IR_DATA_OVERRUN => 246
  | INVALID_NUMBER_OF_BYTES => 247
  | INVALID_PARAMETER => 248
  | INVALID_NUMBER_OF_PARAMETERS => 249
  | RECEIVE_BUFFER_FULL => 250
  | COMMUNICATION_TIMEOUT => 251
  | COMMAND_NOT_IMPLEMENTED => 252
  | COMMAND_ABORTED => 253
  | NO_VALID_COMMAND => 254
  | INITIAL_COMMUNICATION => 255
  end.

(** Class attributes: one-byte bytes objects. *)
Definition STX : bytes := [x02].
Definition ETX : bytes := [x03].
Definition EOT : bytes := [x04].
Definition ACK : bytes := [x06].
Definition TAB : bytes := [x09].
Definition NAK : bytes := [x15].
Definition CAN : bytes := [x18].
Definition GET_AND_CLEAR_STATUS : bytes := [x0b].
Definition SET_METER_SETTING : bytes := [x0c].
Definition CR : bytes := [x0d].
Definition TURN_OFF : bytes := [x1d].
Definition GET_FIELD_DATE : bytes := [x31].
Definition GET_FIELD_TIME : bytes := [x32].
Definition GET_FIELD_UNITS : bytes := [x33].
Definition GET_SERIAL_NUMBER : bytes := [x33].
Definition GET_METER_NUMBER : bytes := [x34].
Definition GET_METER_CONFIGURATION : bytes := [x43].
Definition GET_METER_SETTING : bytes := [x53].
Definition GET_METER_NAME : bytes := [x49].
Definition GET_READING_COUNT : bytes := [x60].
Definition GET_READINGS : bytes := [x61].
Definition CLEAR_READINGS : bytes := [x52].
Definition FIELD_SEPARATOR : bytes := [x09].

(** The separator as the single byte that [strip] and [split] look for. *)
Definition SEP : byte := x09.

(** [self._retries], set to 5 by [__init__] and never assigned again. *)
Definition _retries : nat := 5.

(** [_checksum(data)]: the loop [for byte in data: checksum ^= byte],
    started with [checksum = 110]. *)
Fixpoint _checksum_loop (checksum : Z) (data : bytes) : Z :=
  match data with
  | [] => checksum
  | byte :: rest => _checksum_loop (Z.lxor checksum (ord byte)) rest
  end.

Definition _checksum (data : bytes) : Z := _checksum_loop 110 data.

Definition _send (data : bytes) : M Z := write data.

Definition _receive (size : Z) : M bytes := read size.

(** ['... 0x%02X' % received] with a bytes object on the right: the
    conversion [%X] wants an integer, so building the message raises
    [TypeError].  Every [logger.warning] of the driver has this argument,
    and the statements after it are not reached. *)
Definition warning_0x02X {A} (received : bytes) : M A := raise TypeError.

(** [received in [self.ACK, self.NAK]] *)
Definition is_ack_or_nak (received : bytes) : bool :=
  bytes_eqb received ACK || bytes_eqb received NAK.

(** The loop of [_send_command]: each byte is sent on its own and the
    echo is read and dropped. *)
Fixpoint echo_loop (stream : bytes) : M unit :=
  match stream with
  | [] => ret tt
  | data :: rest =>
      n <- _send [data] ;;
      _receive n ;;
      echo_loop rest
  end.

Definition _send_command (cmd : bytes) (fields : list bytes) : M bool :=
  echo_loop (join FIELD_SEPARATOR (cmd :: fields)) ;;
  n <- _send CR ;;
  received <- _receive n ;;
  (if negb (is_ack_or_nak received)
   then warning_0x02X received else ret tt) ;;
  ret (bytes_eqb received ACK).

Section Methods.
Context {U : UnicodeData}.

(** ** _receive_packet *)

(** The local variables of [_receive_packet]. *)
Record locals : Type := mk_locals {
  packet : bytes;
  in_packet : bool;
  retries : nat;
  _data : list bytes
}.

(** How an iteration ends: with the next one, or with [return]. *)
Inductive control : Type :=
| Next (st : locals)
| Return (v : option (list bytes)).

(** The statements of the [try] block up to the checksum comparison.
    They touch neither the line nor the local variables, so they are a
    function of the buffer: the data of the packet, or the exception.
    When the checksum digits are missing the message of the intended
    [ParseError] is ['...%d' % len(packet) - 2 - length], a str minus an
    int, which raises [TypeError] instead. *)
Definition parse_packet (packet : bytes) : result bytes :=
  (if len packet <? 2 then Err ParseError
   else
     length <- int_of_bytes 16 (slice packet 0 2) ;;
     if len packet <? 2 + length then Err ParseError
     else
       let data := slice packet 2 (2 + length) in
       if len packet <? 2 + length + 2 then Err TypeError
       else
         checksum <- int_of_bytes 16
                       (slice packet (2 + length) (2 + length + 2)) ;;
         if negb (checksum =? _checksum data) then Err ParseError
         else Ok data)%result.

(** The [except Exception as ex] clause, entered with the local variables
    as the [try] block left them. *)
Definition except (st : locals) (ex : exn) : M control :=
  logger_error ex ;;
  match retries st with
  | S retries' =>
      _send NAK ;;
      ret (Next (mk_locals (packet st) (in_packet st) retries' (_data st)))
  | O => ret (Return None)
  end.

(** The body of [for byte in received], with [byte = bytes([byte])]
    done.  After a packet has been accepted and acknowledged, a last byte
    other than ACK raises inside the [try] block (again [TypeError], from
    the message of the intended [ParseError]) and is handled like a
    packet that failed, with the data already appended. *)
Definition for_body (st : locals) (byte : bytes) : M control :=
  if bytes_eqb byte STX then
    ret (Next (mk_locals (packet st) true (retries st) (_data st)))
  else if bytes_eqb byte ETX || bytes_eqb byte EOT then
    match parse_packet (packet st) with
    | Err ex => except st ex
    | Ok data =>
        _send ACK ;;
        let st1 := mk_locals (packet st) (in_packet st) (retries st)
                     (_data st ++ [strip SEP data]) in
        if bytes_eqb byte EOT then
          byte' <- _receive 1 ;;
          if negb (bytes_eqb byte' ACK) then except st1 TypeError
          else ret (Return (Some (_data st1)))
        else
          ret (Next (mk_locals [] false (retries st1) (_data st1)))
    end
  else if in_packet st then
    ret (Next (mk_locals (packet st ++ byte) (in_packet st) (retries st)
                 (_data st)))
  else warning_0x02X byte.

Fixpoint for_loop (st : locals) (received : bytes) : M control :=
  match received with
  | [] => ret (Next st)
  | byte :: rest =>
      c <- for_body st [byte] ;;
      match c with
      | Next st' => for_loop st' rest
      | Return v => ret (Return v)
      end
  end.

(** [while True].  Every iteration that does not end the call takes at
    least one burst off the line, so the loop runs at most once more than
    there are bursts; [fuel] counts the iterations left, and [None] tells
    that it ran out (it does not, see [while_true_cases]). *)
Fixpoint while_true (fuel : nat) (st : locals) (w : world)
  : option (result (option (list bytes)) * world) :=
  match fuel with
  | O => None
  | S fuel' =>
      match (n <- in_waiting ;;
             received <- _receive (if n =? 0 then 1 else n) ;;
             match received with
             | [] => raise TimeoutError
             | _ :: _ => for_loop st received
             end) w with
      | (Ok (Next st'), w') => while_true fuel' st' w'
      | (Ok (Return v), w') => Some (Ok v, w')
      | (Err e, w') => Some (Err e, w')
      end
  end.

(** The method: the loop, entered with the initial values of the local
    variables.  The loop gets one iteration more than there are bursts,
    which is enough ([while_true_cases]): the second case below is never
    taken. *)
Definition _receive_packet : M (option (list bytes)) :=
  fun w =>
    match while_true (S (List.length (rx w)))
            (mk_locals [] false _retries []) w with
    | Some r => r
    | None => (Err TimeoutError, w)
    end.

(** ** _send_packet *)

Definition build_packet (fields : list bytes) : bytes :=
  match fields with
  | [] => []
  | _ :: _ =>
      let data := FIELD_SEPARATOR ++ join FIELD_SEPARATOR fields
                  ++ FIELD_SEPARATOR in
      let length := zfill2 (str_of_int (len data)) in
      let checksum := format_02X (_checksum data) in
      STX ++ length ++ data ++ checksum ++ EOT
  end.

(** [while retries:], with [retries -= 1] as the step of the recursion.
    [continue] and the end of the body both lead to the next iteration;
    the branch of an unexpected byte raises before its [_send] and its
    [break]. *)
Fixpoint send_loop (retries : nat) (packet : bytes) : M unit :=
  match retries with
  | O => ret tt
  | S retries' =>
      match packet with
      | [] => ret 0
      | _ :: _ => _send packet
      end ;;
      received <- _receive 1 ;;
      if bytes_eqb received NAK then send_loop retries' packet
      else if bytes_eqb received ACK then
        _send ACK ;;
        send_loop retries' packet
      else warning_0x02X received
  end.

Definition _send_packet (fields : list bytes) : M bool :=
  send_loop _retries (build_packet fields) ;;
  received <- _receive 1 ;;
  (if negb (is_ack_or_nak received)
   then warning_0x02X received else ret tt) ;;
  ret (bytes_eqb received ACK).

(** ** The public methods *)

(** [data[0]] on what [_receive_packet] returned: [None] is not
    subscriptable. *)
Definition first_block (data : option (list bytes)) : M bytes :=
  match data with
  | None => raise TypeError
  | Some blocks => lift (index blocks 0)
  end.

Definition get_and_clear_status : M (option AccuChekStatus) :=
  ok <- _send_command GET_AND_CLEAR_STATUS [] ;;
  if ok : bool then
    data <- _receive_packet ;;
    block <- first_block data ;;
    n <- lift (int_of_bytes 16 block) ;;
    status <- lift (AccuChekStatus_of n) ;;
    ret (Some status)
  else ret None.

Definition get_meter_name : M (option str) :=
  ok <- _send_command GET_METER_NAME [] ;;
  if ok : bool then
    data <- _receive_packet ;;
    block <- first_block data ;;
    s <- lift (decode block) ;;
    ret (Some s)
  else ret None.

Definition get_meter_number : M (option str) :=
  ok <- _send_command GET_METER_CONFIGURATION [GET_METER_NUMBER] ;;
  if ok : bool then
    data <- _receive_packet ;;
    block <- first_block data ;;
    s <- lift (decode block) ;;
    ret (Some s)
  else ret None.

Definition get_serial_number : M (option str) :=
  ok <- _send_command GET_METER_CONFIGURATION [GET_SERIAL_NUMBER] ;;
  if ok : bool then
    data <- _receive_packet ;;
    block <- first_block data ;;
    s <- lift (decode block) ;;
    ret (Some s)
  else ret None.

Definition get_current_date : M (option date) :=
  ok <- _send_command GET_METER_SETTING [GET_FIELD_DATE] ;;
  if ok : bool then
    data <- _receive_packet ;;
    block <- first_block data ;;
    s <- lift (decode block) ;;
    dt <- lift (strptime s [Dy; Dm; Dd]) ;;
    ret (Some (date_of dt))
  else ret None.

Definition get_current_time : M (option time) :=
  ok <- _send_command GET_METER_SETTING [GET_FIELD_TIME] ;;
  if ok : bool then
    data <- _receive_packet ;;
    block <- first_block data ;;
    s <- lift (decode block) ;;
    dt <- lift (strptime s [DH; DM; DS]) ;;
    ret (Some (time_of dt))
  else ret None.

Definition get_meter_units : M (option str) :=
  ok <- _send_command GET_METER_SETTING [GET_FIELD_UNITS] ;;
  if ok : bool then
    data <- _receive_packet ;;
    block <- first_block data ;;
    s <- lift (decode block) ;;
    ret (Some s)
  else ret None.

Definition get_reading_count : M (option Z) :=
  ok <- _send_command GET_READING_COUNT [] ;;
  if ok : bool then
    data <- _receive_packet ;;
    block <- first_block data ;;
    n <- lift (int_of_bytes 10 block) ;;
    ret (Some n)
  else ret None.

(** A reading: glucose, timestamp, flags. *)
Definition reading : Type := (decimal * datetime * Z)%type.

(** The body of [for entry in data] in [get_readings], up to the tuple
    that is appended. *)
Definition decode_entry (entry : bytes) : result reading :=
  (let fields := split SEP entry in
   f0 <- index fields 0 ;;
   raw <- int_of_bytes 10 f0 ;;
   x <- float_of_int raw ;;
   glucose <- quantize_tenths (float_mul x literal_0_0555) ;;
   f1 <- index fields 1 ;;
   f2 <- index fields 2 ;;
   s <- decode (f1 ++ f2) ;;
   timestamp <- strptime s [DH; DM; Dy; Dm; Dd] ;;
   f3 <- index fields 3 ;;
   flags <- int_of_bytes 16 f3 ;;
   Ok (glucose, timestamp, flags))%result.

Fixpoint decode_entries (entries : list reading) (data : list bytes)
  : result (list reading) :=
  match data with
  | [] => Ok entries
  | entry :: rest =>
      (r <- decode_entry entry ;; decode_entries (entries ++ [r]) rest)%result
  end.

Definition get_readings (start end_ : Z) : M (option (list reading)) :=
  ok <- _send_command GET_READINGS [str_of_int start; str_of_int end_] ;;
  if ok : bool then
    data <- _receive_packet ;;
    match data with
    | None => raise TypeError              (* None is not iterable *)
    | Some blocks =>
        entries <- lift (decode_entries [] blocks) ;;
        ret (Some entries)
    end
  else ret None.

Definition set_current_date (value : date) : M (option bool) :=
  let data := strftime_ymd value in
  ok <- _send_command SET_METER_SETTING [GET_FIELD_DATE] ;;
  if ok : bool then
    r <- _send_packet [encode_ascii data] ;;
    ret (Some r)
  else ret None.

(** [time.value]: inside [set_current_time] the name [time] is the class
    [datetime.time] imported by the module (the argument is [value]), and
    that class has no attribute [value]. *)
Definition time_dot_value : result (list directive -> str) :=
  Err AttributeError.

Definition set_current_time (value : time) : M (option bool) :=
  f <- lift time_dot_value ;;
  let data := f [DH; DM; DS] in
  ok <- _send_command SET_METER_SETTING [GET_FIELD_TIME] ;;
  if ok : bool then
    r <- _send_packet [encode_ascii data] ;;
    ret (Some r)
  else ret None.

Definition turn_off : M bool := _send_command TURN_OFF [].

Definition clear_readings : M (option bool) :=
  ok <- _send_command CLEAR_READINGS [] ;;
  if ok : bool then
    r <- _send_packet [] ;;
    ret (Some r)
  else ret None.

(** ** The reading methods, seen from a caller

    The nine methods that fetch a value share one shape: a command
    handshake, then [_receive_packet], then the decoding.  [request] is
    the handshake of each, [call] runs the method and keeps how it ended:
    normally, or with an exception. *)
Inductive read_method : Type :=
| Get_and_clear_status
| Get_meter_name
| Get_meter_number
| Get_serial_number
| Get_current_date
| Get_current_time
| Get_meter_units
| Get_reading_count
| Get_readings (start end_ : Z).

Definition request (m : read_method) : M bool :=
  match m with
  | Get_and_clear_status => _send_command GET_AND_CLEAR_STATUS []
  | Get_meter_name => _send_command GET_METER_NAME []
  | Get_meter_number =>
      _send_command GET_METER_CONFIGURATION [GET_METER_NUMBER]
  | Get_serial_number =>
      _send_command GET_METER_CONFIGURATION [GET_SERIAL_NUMBER]
  | Get_current_date => _send_command GET_METER_SETTING [GET_FIELD_DATE]
  | Get_current_time => _send_command GET_METER_SETTING [GET_FIELD_TIME]
  | Get_meter_units => _send_command GET_METER_SETTING [GET_FIELD_UNITS]
  | Get_reading_count => _send_command GET_READING_COUNT []
  | Get_readings start end_ =>
      _send_command GET_READINGS [str_of_int start; str_of_int end_]
  end.

Definition ending {A} (c : M A) : world -> result unit * world :=
  fun w =>
    match c w with
    | (Ok _, w') => (Ok tt, w')
    | (Err e, w') => (Err e, w')
    end.

Definition call (m : read_method) : world -> result unit * world :=
  match m with
  | Get_and_clear_status => ending get_and_clear_status
  | Get_meter_name => ending get_meter_name
  | Get_meter_number => ending get_meter_number
  | Get_serial_number => ending get_serial_number
  | Get_current_date => ending get_current_date
  | Get_current_time => ending get_current_time
  | Get_meter_units => ending get_meter_units
  | Get_reading_count => ending get_reading_count
  | Get_readings start end_ => ending (get_readings start end_)
  end.

End Methods.

End AccuChek.

(* ===================================================================== *)
(** * Ranges of values *)
(* ===================================================================== *)

(** Some properties below are settled by running the code on every
    integer of a bounded range: [all_from f lo n] is the check [f] on the
    [n] integers from [lo] on. *)
Fixpoint all_from (f : Z -> bool) (lo : Z) (n : nat) : bool :=
  match n with
  | O => true
  | S n' => f lo && all_from f (lo + 1) n'
  end.

(** The values that a meter writes in two digits for each directive:
    year of the century, month, day, hour, minute, second. *)
Definition field_range (d : Py.directive) (v : Z) : bool :=
  match d with
  | Py.Dy => (0 <=? v) && (v <=? 99)
  | Py.Dm => (1 <=? v) && (v <=? 12)
  | Py.Dd => (1 <=? v) && (v <=? 31)
  | Py.DH => (0 <=? v) && (v <=? 23)
  | Py.DM | Py.DS => (0 <=? v) && (v <=? 59)
  end.

(* ===================================================================== *)
(** * The device's end of the line *)
(* ===================================================================== *)

(** The driver has no code for the device.  These definitions describe
    what the device sends, in the terms of the checks of
    [_receive_packet]; they only serve to state properties of the
    receiver. *)
Module Device.
Import Py AccuChek.

(** The three bytes the receiver treats as markers. *)
Definition is_marker (b : byte) : bool :=
  Byte.eqb b x02 || Byte.eqb b x03 || Byte.eqb b x04.

Definition no_marker (data : bytes) : bool :=
  forallb (fun b => negb (is_marker b)) data.

(** What the receiver holds in its buffer when it checks a packet with
    the given data: two hex characters of length, the data, two hex
    characters of checksum. *)
Definition body (data : bytes) : bytes :=
  format_02X (len data) ++ data ++ format_02X (_checksum data).

(** A packet on the wire: the last packet of a response ends with EOT,
    the others with ETX. *)
Definition frame (final : bool) (data : bytes) : bytes :=
  STX ++ body data ++ (if final then EOT else ETX).

(** A response of several packets, one burst per packet. *)
Fixpoint frames (blocks : list bytes) : list bytes :=
  match blocks with
  | [] => []
  | [data] => [frame true data]
  | data :: rest => frame false data :: frames rest
  end.

(** Data that the device can send in one packet. *)
Definition sendable (data : bytes) : bool :=
  (len data <? 256) && no_marker data.

(** A value in two ASCII digits. *)
Definition digits (v : Z) : bytes := encode_ascii (two_digits v).

(** The year that the two digits of [%y] stand for: 1969..2068. *)
Definition century (yy : Z) : Z :=
  if yy <=? 68 then yy + 2000 else yy + 1900.

(** An entry of the meter's memory, as [get_readings] expects it: raw
    glucose value, time, date with the year of the century, flags. *)
Record entry : Type := mk_entry {
  e_raw : Z;
  e_hour : Z; e_minute : Z;
  e_year : Z; e_month : Z; e_day : Z;
  e_flags : Z
}.

(** The four sub-fields of an entry: the raw value in decimal, HHMM,
    yymmdd, the flags in two hex characters. *)
Definition entry_text (e : entry) : bytes :=
  join FIELD_SEPARATOR
    [ str_of_int (e_raw e);
      digits (e_hour e) ++ digits (e_minute e);
      digits (e_year e) ++ digits (e_month e) ++ digits (e_day e);
      format_02X (e_flags e) ].

(** The data of the packet that carries an entry, between separators as
    in the packets that [_send_packet] builds. *)
Definition entry_block (e : entry) : bytes :=
  FIELD_SEPARATOR ++ entry_text e ++ FIELD_SEPARATOR.

(** The timestamp of an entry. *)
Definition entry_time (e : entry) : datetime :=
  mk_datetime (century (e_year e)) (e_month e) (e_day e)
    (e_hour e) (e_minute e) 0.

(** Entries with a raw value up to 10000, a minute of a day that exists,
    and flags of one byte. *)
Definition valid_entry (e : entry) : bool :=
  (0 <=? e_raw e) && (e_raw e <=? 10000)
  && field_range DH (e_hour e) && field_range DM (e_minute e)
  && field_range Dy (e_year e) && field_range Dm (e_month e)
  && (1 <=? e_day e)
  && (e_day e <=? days_in_month (century (e_year e)) (e_month e))
  && (0 <=? e_flags e) && (e_flags e <? 256).

End Device.

(* ===================================================================== *)
(** * Properties *)
(* ===================================================================== *)

Import Py Serial AccuChek Device.
Local Open Scope py_scope.

(** ** Bytes *)

Lemma bytes_eqb_eq (a b : bytes) : bytes_eqb a b = true <-> a = b.
Proof.
  unfold bytes_eqb. destruct (list_eq_dec Byte.byte_eq_dec a b); split;
    congruence.
Qed.

Lemma bytes_eqb_single (a b : byte) : bytes_eqb [a] [b] = Byte.eqb a b.
Proof.
  destruct (Byte.eqb a b) eqn:E.
  - apply Byte.byte_dec_bl in E. subst. apply bytes_eqb_eq. reflexivity.
  - apply Byte.eqb_false in E. unfold bytes_eqb.
    destruct (list_eq_dec Byte.byte_eq_dec [a] [b]); congruence.
Qed.

Lemma byte_eqb_neq (a b : byte) : a <> b -> Byte.eqb a b = false.
Proof.
  intro H. destruct (Byte.eqb a b) eqn:E; [|reflexivity].
  apply Byte.byte_dec_bl in E. contradiction.
Qed.

Lemma ord_range (b : byte) : 0 <= ord b < 256.
Proof.
  unfold ord. pose proof (Byte.to_N_bounded b). lia.
Qed.

(** ** Checksum *)

Lemma _checksum_loop_fold (data : bytes) (c : Z) :
  _checksum_loop c data = fold_left (fun acc b => Z.lxor acc (ord b)) data c.
Proof.
  revert c. induction data as [|b data IH]; intro c; simpl; auto.
Qed.

Lemma lxor_byte_range (a b : Z) :
  0 <= a < 256 -> 0 <= b < 256 -> 0 <= Z.lxor a b < 256.
Proof.
  intros Ha Hb. split.
  - apply Z.lxor_nonneg. lia.
  - destruct (Z.eq_dec (Z.lxor a b) 0) as [E|E]; [lia|].
    assert (Hpos : 0 < Z.lxor a b).
    { assert (0 <= Z.lxor a b) by (apply Z.lxor_nonneg; lia). lia. }
    apply Z.log2_lt_pow2 with (b := 8) in Hpos. apply Hpos.
    eapply Z.le_lt_trans; [apply Z.log2_lxor; lia|].
    apply Z.max_lub_lt.
    + destruct (Z.eq_dec a 0); [subst; simpl; lia|].
      apply Z.log2_lt_pow2; lia.
    + destruct (Z.eq_dec b 0); [subst; simpl; lia|].
      apply Z.log2_lt_pow2; lia.
Qed.

Lemma _checksum_loop_range (data : bytes) (c : Z) :
  0 <= c < 256 -> 0 <= _checksum_loop c data < 256.
Proof.
  revert c. induction data as [|b data IH]; intros c Hc; simpl; [exact Hc|].
  apply IH. apply lxor_byte_range; [exact Hc | apply ord_range].
Qed.

(** C9.  For every byte sequence the checksum is the left fold of XOR
    over the bytes from the seed 110 (0x6E); it stays an 8-bit value, and
    the checksum of the empty sequence is 0x6E. *)
Theorem checksum_is_xor_fold :
  (forall data : bytes,
      _checksum data = fold_left (fun acc b => Z.lxor acc (ord b)) data 110
      /\ 0 <= _checksum data < 256)
  /\ _checksum [] = 0x6E.
Proof.
  split; [|reflexivity].
  intro data. split.
  - apply _checksum_loop_fold.
  - apply _checksum_loop_range. lia.
Qed.

(** ** The literal 0.0555 *)

(** The binary64 number taken for [0.0555] is the nearest one: it lies
    within half a unit in the last place (2^-58) of 555/10000. *)
Lemma literal_0_0555_nearest :
  valid_binary prec emax literal_0_0555 = true
  /\ match literal_0_0555 with
     | S754_finite false m e =>
         e = -57 /\ Z.abs (10000 * Zpos m - 555 * 2 ^ 57) * 2 <= 10000
     | _ => False
     end.
Proof.
  split; [reflexivity|]. split; [reflexivity|]. vm_compute. discriminate.
Qed.

(** The product [100 * 0.0555] is the binary64 number
    6248744482976563 * 2^-50 = 5.54999999999999982..., below 5.55. *)
Lemma product_100_below_5_55 :
  (x <- float_of_int 100 ;; Ok (float_mul x literal_0_0555))%result
  = Ok (S754_finite false 6248744482976563 (-50))
  /\ 6248744482976563 * 100 < 555 * 2 ^ 50.
Proof.
  split; [reflexivity | vm_compute; reflexivity].
Qed.

(** ** Decoding a reading *)

Section Readings.
Context {U : UnicodeData}.

(** C1, as the code has it.  The block with the sub-fields "100", "1200",
    "200101" and "00" decodes to glucose 5.5 (coefficient 55, exponent
    -1: the binary64 product of 100 and 0.0555 is just below 5.55 and is
    rounded to one decimal), timestamp 2020-01-01T12:00:00 (time digits
    followed by date digits, read as HHMMyymmdd) and flags 0. *)
Theorem decode_entry_reading :
  decode_entry (b_ "100" ++ [SEP] ++ b_ "1200" ++ [SEP] ++ b_ "200101"
                ++ [SEP] ++ b_ "00")
  = Ok (mk_decimal false 55 (-1), mk_datetime 2020 1 1 12 0 0, 0).
Proof. reflexivity. Qed.

(** Twelve characters never match the format of a reading's timestamp:
    each of its five directives takes two characters at most. *)
Lemma match_alt_length (alt : list cls) (s m rest : str) :
  match_alt alt s = Some (m, rest) ->
  s = m ++ rest /\ List.length m = List.length alt.
Proof.
  revert s m rest. induction alt as [|k alt IH]; intros s m rest H; simpl in H.
  - injection H as <- <-. split; reflexivity.
  - destruct s as [|c r]; [discriminate|].
    destruct (cls_matches k c); [|discriminate].
    destruct (match_alt alt r) as [[m' rest']|] eqn:E; [|discriminate].
    injection H as <- <-. destruct (IH _ _ _ E) as [-> Hl].
    split; simpl; congruence.
Qed.

Lemma first_alt_some {A} (alts : list (list cls)) (s : str)
    (k : str -> str -> option A) (a : A) :
  first_alt alts s k = Some a ->
  exists alt m rest,
    In alt alts /\ match_alt alt s = Some (m, rest) /\ k m rest = Some a.
Proof.
  induction alts as [|alt alts IH]; intro H; simpl in H; [discriminate|].
  destruct (match_alt alt s) as [[m rest]|] eqn:E.
  - destruct (k m rest) as [a'|] eqn:Ek.
    + injection H as <-. exists alt, m, rest. simpl. auto.
    + destruct (IH H) as (alt' & m' & rest' & Hin & Hm & Hk).
      exists alt', m', rest'. simpl. auto.
  - destruct (IH H) as (alt' & m' & rest' & Hin & Hm & Hk).
    exists alt', m', rest'. simpl. auto.
Qed.

Lemma pattern_width (d : directive) (alt : list cls) :
  In alt (pattern d) -> (List.length alt <= 2)%nat.
Proof.
  destruct d; simpl; intros H;
    repeat (destruct H as [<- | H]; [simpl; lia|]); contradiction.
Qed.

Lemma match_format_consumes (fmt : list directive) :
  forall (s : str) (groups : list (directive * str)) (rest : str),
    match_format fmt s = Some (groups, rest) ->
    (List.length s <= 2 * List.length fmt + List.length rest)%nat.
Proof.
  induction fmt as [|d fmt IH]; intros s groups rest H; simpl in H.
  - injection H as _ <-. simpl. lia.
  - apply first_alt_some in H.
    destruct H as (alt & m & r & Hin & Hm & Hk).
    destruct (match_format fmt r) as [[groups' rest']|] eqn:E; [|discriminate].
    injection Hk as _ <-.
    apply match_alt_length in Hm. destruct Hm as [-> Hl].
    apply pattern_width in Hin. apply IH in E.
    rewrite length_app. cbn [List.length]. lia.
Qed.

Lemma strptime_twelve_characters (s : str) :
  List.length s = 12%nat ->
  strptime s [DH; DM; Dy; Dm; Dd] = Err ValueError.
Proof.
  intro Hs. unfold strptime.
  destruct (match_format [DH; DM; Dy; Dm; Dd] s) as [[groups rest]|] eqn:E;
    [|reflexivity].
  apply match_format_consumes in E. cbn [List.length] in E.
  destruct rest; [simpl in E; lia | reflexivity].
Qed.

End Readings.

(** C1, as the spec states it, fails: with the six time digits "120000"
    the text "120000200101" does not match the format and the decoding
    raises [ValueError]; and the glucose of the raw value 100 is 5.5, not
    5.6. *)
Lemma decode_entry_six_time_digits :
  decode_entry (U := unicode_14)
    (b_ "100" ++ [SEP] ++ b_ "120000" ++ [SEP] ++ b_ "200101"
     ++ [SEP] ++ b_ "00")
  = Err ValueError
  /\ (x <- float_of_int 100 ;; quantize_tenths (float_mul x literal_0_0555))%result
     = Ok (mk_decimal false 55 (-1)).
Proof. split; reflexivity. Qed.

(** ** set_current_time and set_current_date *)

(** C8 fails on the code.  For every time value [set_current_time]
    raises [AttributeError] at its first statement: nothing is encoded,
    no byte is written and none is read. *)
Theorem set_current_time_raises (value : time) (w : world) :
  set_current_time value w = (Err AttributeError, w).
Proof. reflexivity. Qed.

(** The sibling [set_current_date] does what C8 describes: the date
    2020-01-01 is encoded as "200101", the handshake sends the set opcode
    and the date selector, and the digits go out as the single field of a
    framed packet (five times over, see C3). *)
Lemma set_current_date_pattern :
  set_current_date (mk_date 2020 1 1)
    (mk_world [[x0c]; [x09]; [x31]; ACK; ACK; ACK; ACK; ACK; ACK; ACK] [] [])
  = (Ok (Some true),
     mk_world []
       ([x0c; x09; x31; x0d]
        ++ List.concat (repeat (build_packet [b_ "200101"] ++ ACK) 5)) []).
Proof. reflexivity. Qed.

(** ** _send_command *)

Lemma echo_loop_echoed (stream : bytes) (rest : list bytes) (t : bytes)
    (l : list exn) :
  echo_loop stream (mk_world (map (fun x => [x]) stream ++ rest) t l)
  = (Ok tt, mk_world rest (t ++ stream) l).
Proof.
  revert t. induction stream as [|x stream IH]; intro t; simpl.
  - rewrite app_nil_r. reflexivity.
  - unfold bind at 1. unfold _send, write. simpl.
    unfold bind at 1. unfold _receive, read. simpl.
    rewrite IH. rewrite <- app_assoc. reflexivity.
Qed.

(** C7 fails on the code.  The device echoes the command and answers the
    carriage return with one byte [b] that is neither ACK nor NAK: the
    handshake does not return false, it raises [TypeError] where the
    warning is built, and nothing is logged. *)
Theorem send_command_unexpected_byte_raises (cmd : bytes)
    (fields : list bytes) (b : byte) (rest : list bytes) (t : bytes)
    (l : list exn) :
  b <> x06 -> b <> x15 ->
  _send_command cmd fields
    (mk_world (map (fun x => [x]) (join FIELD_SEPARATOR (cmd :: fields))
               ++ [b] :: rest) t l)
  = (Err TypeError,
     mk_world rest (t ++ join FIELD_SEPARATOR (cmd :: fields) ++ CR) l).
Proof.
  intros Hack Hnak. unfold _send_command.
  unfold bind at 1. rewrite echo_loop_echoed.
  unfold bind at 1. unfold _send, write. cbn [rx tx log app len List.length CR].
  unfold bind at 1. unfold _receive, read.
  cbn [rx tx log Z.of_nat Z.to_nat Pos.of_succ_nat Pos.to_nat Pos.iter_op
       Nat.add skipn firstn].
  unfold bind at 1. unfold is_ack_or_nak, ACK, NAK.
  change (Z.to_nat (len CR)) with 1%nat. cbn [firstn skipn].
  rewrite !bytes_eqb_single, !byte_eqb_neq by assumption.
  cbn. rewrite <- app_assoc. reflexivity.
Qed.

Lemma send_command_unexpected_byte_raises_witness :
  _send_command TURN_OFF [] (mk_world [[x1d]; [x07]] [] [])
  = (Err TypeError, mk_world [] [x1d; x0d] []).
Proof.
  apply (send_command_unexpected_byte_raises TURN_OFF [] x07 [] [] []);
    discriminate.
Defined.

(** With ACK or NAK the handshake returns: true for ACK, false for NAK. *)
Lemma send_command_ack_nak (cmd : bytes) (fields : list bytes)
    (rest : list bytes) :
  _send_command cmd fields
    (mk_world (map (fun x => [x]) (join FIELD_SEPARATOR (cmd :: fields))
               ++ ACK :: rest) [] [])
  = (Ok true, mk_world rest (join FIELD_SEPARATOR (cmd :: fields) ++ CR) [])
  /\
  _send_command cmd fields
    (mk_world (map (fun x => [x]) (join FIELD_SEPARATOR (cmd :: fields))
               ++ NAK :: rest) [] [])
  = (Ok false, mk_world rest (join FIELD_SEPARATOR (cmd :: fields) ++ CR) []).
Proof.
  split; unfold _send_command; unfold bind at 1; rewrite echo_loop_echoed;
    reflexivity.
Qed.

(** ** _send_packet *)

(** C3 fails on the code.  (1) When the byte read after the packet is
    ACK, the ACK is answered and the loop is entered again with the
    budget that is left: with the device acknowledging every time the
    packet goes out five times.  (2) When the byte is neither ACK nor NAK
    (0x07 here), [TypeError] is raised where the warning is built, and
    no NAK is written. *)
Theorem send_packet_ack_stays_in_loop :
  (forall (f : bytes) (fields rest : list bytes) (r : nat) (t : bytes)
          (l : list exn),
      send_loop (S r) (build_packet (f :: fields))
        (mk_world (ACK :: rest) t l)
      = send_loop r (build_packet (f :: fields))
          (mk_world rest (t ++ build_packet (f :: fields) ++ ACK) l))
  /\ _send_packet [b_ "200101"]
       (mk_world [ACK; ACK; ACK; ACK; ACK; ACK] [] [])
     = (Ok true,
        mk_world []
          (List.concat (repeat (build_packet [b_ "200101"] ++ ACK) 5)) [])
  /\ _send_packet [b_ "200101"] (mk_world [[x07]] [] [])
     = (Err TypeError, mk_world [] (build_packet [b_ "200101"]) []).
Proof.
  split; [|split; reflexivity].
  intros f fields rest r t l.
  assert (HP : exists x P', build_packet (f :: fields) = x :: P').
  { unfold build_packet, STX. simpl. eauto. }
  destruct HP as (x & P' & HP). rewrite HP.
  cbn [send_loop]. unfold bind, _send, write, _receive, read.
  cbn [rx tx log]. change (Z.to_nat 1) with 1%nat. unfold ACK at 1 2.
  cbn [skipn firstn].
  change (bytes_eqb [x06] NAK) with false.
  change (bytes_eqb [x06] ACK) with true.
  cbn beta. cbn [rx tx log ACK]. rewrite <- app_assoc. reflexivity.
Qed.

(** ** _receive_packet *)

Section Receiver.
Context {U : UnicodeData}.

Lemma skipn_length_app {A} (l m : list A) : skipn (List.length l) (l ++ m) = m.
Proof. induction l; simpl; auto. Qed.

Lemma sent_since_app (w w' : world) (sent : bytes) :
  tx w' = tx w ++ sent -> sent_since w w' = sent.
Proof. unfold sent_since. intros ->. apply skipn_length_app. Qed.

Lemma logged_since_app (w w' : world) (errs : list exn) :
  log w' = log w ++ errs -> logged_since w w' = errs.
Proof. unfold logged_since. intros ->. apply skipn_length_app. Qed.

(** The [except] clause: the exception is logged; with budget left a NAK
    goes out and the budget drops by one, without budget the call
    returns nothing. *)
Lemma except_cases (st : locals) (ex : exn) (w : world) :
  except st ex w =
  match retries st with
  | S r =>
      (Ok (Next (mk_locals (packet st) (in_packet st) r (_data st))),
       mk_world (rx w) (tx w ++ NAK) (log w ++ [ex]))
  | O => (Ok (Return None), mk_world (rx w) (tx w) (log w ++ [ex]))
  end.
Proof. unfold except. destruct (retries st); reflexivity. Qed.

(** One byte of the loop, by cases on what was written: either an ACK
    (a packet was accepted), or nothing and nothing logged (start marker,
    buffered byte, or the failing warning), or one logged exception with
    a NAK and one unit of budget, or one logged exception, no budget, and
    the return of nothing. *)
Lemma for_body_cases (st : locals) (b : byte) (w : world) (c : result control)
    (w' : world) :
  for_body st [b] w = (c, w') ->
  exists sent errs,
    tx w' = tx w ++ sent /\ log w' = log w ++ errs /\
    (List.length (rx w') <= List.length (rx w))%nat /\
    (In x06 sent
     \/ (sent = [] /\ errs = [] /\
         (c = Err TypeError
          \/ exists st', c = Ok (Next st') /\ retries st' = retries st))
     \/ (exists e r st',
           errs = [e] /\ sent = NAK /\ retries st = S r /\
           c = Ok (Next st') /\ retries st' = r)
     \/ (exists e,
           errs = [e] /\ sent = [] /\ retries st = O /\
           c = Ok (Return None))).
Proof.
  intro E. unfold for_body in E. unfold STX, ETX, EOT in E.
  rewrite !bytes_eqb_single in E.
  destruct (Byte.eqb b x02).
  - injection E as <- <-. exists [], []. rewrite !app_nil_r.
    repeat split; auto. right; left. repeat split; auto.
    right. eexists; split; reflexivity.
  - destruct (Byte.eqb b x03 || Byte.eqb b x04) eqn:Em.
    + destruct (parse_packet (packet st)) as [data|ex].
      * unfold bind at 1 in E. unfold _send at 1, write in E.
        destruct (Byte.eqb b x04).
        -- unfold bind at 1 in E. unfold _receive, read in E.
           cbn [rx tx log] in E.
           destruct (rx w) as [|burst rest] eqn:Erx.
           ++ change (bytes_eqb [] ACK) with false in E. cbn [negb] in E.
              rewrite except_cases in E. cbn [retries rx tx log] in E.
              destruct (retries st); injection E as <- <-; cbn [rx tx log];
                rewrite <- ?app_assoc;
                (eexists; eexists; split; [reflexivity|]; split; [reflexivity|];
                 split; [simpl; lia|]; left; simpl; auto).
           ++ destruct (negb (bytes_eqb (firstn (Z.to_nat 1) burst) ACK)).
              ** rewrite except_cases in E. cbn [retries rx tx log] in E.
                 destruct (retries st); injection E as <- <-; cbn [rx tx log];
                   rewrite <- ?app_assoc;
                   (eexists; eexists; split; [reflexivity|];
                    split; [reflexivity|];
                    split; [destruct burst as [|? [|? ?]]; simpl; lia|];
                    left; simpl; auto).
              ** injection E as <- <-. cbn [rx tx log].
                 exists ACK, []. rewrite app_nil_r.
                 split; [reflexivity|]. split; [reflexivity|].
                 split; [destruct burst as [|? [|? ?]]; simpl; lia|].
                 left; simpl; auto.
        -- injection E as <- <-. cbn [rx tx log].
           exists ACK, []. rewrite app_nil_r.
           split; [reflexivity|]. split; [reflexivity|]. split; [lia|].
           left; simpl; auto.
      * rewrite except_cases in E.
        destruct (retries st) as [|r] eqn:Er; injection E as <- <-;
          cbn [rx tx log].
        -- exists [], [ex]. rewrite app_nil_r.
           repeat split; auto. right; right; right. exists ex. auto.
        -- exists NAK, [ex]. repeat split; auto. right; right; left.
           exists ex, r. eexists. repeat split; reflexivity.
    + destruct (in_packet st).
      * injection E as <- <-. exists [], []. rewrite !app_nil_r.
        repeat split; auto. right; left. repeat split; auto.
        right. eexists; split; reflexivity.
      * injection E as <- <-. exists [], []. rewrite !app_nil_r.
        repeat split; auto. right; left. repeat split; auto.
Qed.

Lemma repeat_min_app {A} (x : A) (k1 k2 r : nat) :
  (k1 <= r)%nat ->
  repeat x k1 ++ repeat x (Nat.min k2 (r - k1)) = repeat x (Nat.min (k1 + k2) r).
Proof.
  intro H. rewrite <- repeat_app. f_equal. lia.
Qed.

(** The bytes of one read, by the same cases, with [k] exceptions
    logged: while no ACK is written, what is written is one NAK for each
    of the first [retries] exceptions, the loop goes on while the budget
    covers them, and it returns nothing at the exception after the last
    covered one. *)
Lemma for_loop_cases (received : bytes) :
  forall (st : locals) (w : world) (c : result control) (w' : world),
    for_loop st received w = (c, w') ->
    exists sent errs,
      tx w' = tx w ++ sent /\ log w' = log w ++ errs /\
      (List.length (rx w') <= List.length (rx w))%nat /\
      (In x06 sent
       \/ (sent = repeat x15 (Nat.min (List.length errs) (retries st)) /\
           match c with
           | Ok (Next st') =>
               (List.length errs <= retries st)%nat /\
               retries st' = (retries st - List.length errs)%nat
           | Ok (Return v) =>
               v = None /\ List.length errs = S (retries st)
           | Err _ => (List.length errs <= retries st)%nat
           end)).
Proof.
  induction received as [|b rest IH]; intros st w c w' E.
  - injection E as <- <-. exists [], []. rewrite !app_nil_r.
    repeat split; auto. right. simpl. repeat split; auto; lia.
  - cbn [for_loop] in E. unfold bind at 1 in E.
    destruct (for_body st [b] w) as [c1 w1] eqn:E1.
    destruct (for_body_cases _ _ _ _ _ E1)
      as (sent1 & errs1 & Htx1 & Hlog1 & Hrx1 & Hc1).
    destruct Hc1 as [Hack | [(-> & -> & Hq) | [Hnak | Hout]]].
    + (* a packet was accepted *)
      destruct c1 as [[st1|v]|e].
      * destruct (IH _ _ _ _ E)
          as (sent2 & errs2 & Htx2 & Hlog2 & Hrx2 & _).
        exists (sent1 ++ sent2), (errs1 ++ errs2).
        rewrite Htx2, Htx1, Hlog2, Hlog1, <- !app_assoc.
        repeat split; auto; [lia|]. left. apply in_or_app; auto.
      * injection E as <- <-. exists sent1, errs1. repeat split; auto.
      * injection E as <- <-. exists sent1, errs1. repeat split; auto.
    + (* nothing written, nothing logged *)
      rewrite app_nil_r in Htx1, Hlog1.
      destruct Hq as [-> | (st1 & -> & Hr1)].
      * injection E as <- <-. exists [], []. rewrite !app_nil_r.
        repeat split; auto. right. simpl. split; auto; lia.
      * destruct (IH _ _ _ _ E)
          as (sent2 & errs2 & Htx2 & Hlog2 & Hrx2 & Hc2).
        exists sent2, errs2. rewrite Htx2, Htx1, Hlog2, Hlog1.
        repeat split; auto; [lia|]. rewrite <- Hr1. exact Hc2.
    + (* one exception, one NAK *)
      destruct Hnak as (e & r & st1 & -> & -> & Hr & -> & Hr1).
      destruct (IH _ _ _ _ E)
        as (sent2 & errs2 & Htx2 & Hlog2 & Hrx2 & Hc2).
      exists (NAK ++ sent2), ([e] ++ errs2).
      rewrite Htx2, Htx1, Hlog2, Hlog1, <- !app_assoc.
      repeat split; auto; [lia|].
      destruct Hc2 as [Hack | [-> Hc2]].
      * left. apply in_or_app; auto.
      * right. rewrite Hr, Hr1. split.
        -- unfold NAK. simpl. reflexivity.
        -- rewrite Hr1 in Hc2. cbn [List.length app].
           destruct c as [[st2|v]|e2]; lia || (destruct Hc2; split; auto; lia).
    + (* one exception, no budget *)
      destruct Hout as (e & -> & -> & Hr & ->).
      injection E as <- <-. exists [], [e]. rewrite Htx1, Hlog1.
      repeat split; auto. right. rewrite Hr. simpl. auto.
Qed.

(** One iteration of [while True]: a timeout when nothing is left or the
    burst is empty, otherwise the whole burst is read and processed. *)
Lemma while_true_S (fuel : nat) (st : locals) (w : world) :
  while_true (S fuel) st w =
  match rx w with
  | [] => Some (Err TimeoutError, w)
  | [] :: rest => Some (Err TimeoutError, mk_world rest (tx w) (log w))
  | (b :: bs) :: rest =>
      match for_loop st (b :: bs) (mk_world rest (tx w) (log w)) with
      | (Ok (Next st'), w') => while_true fuel st' w'
      | (Ok (Return v), w') => Some (Ok v, w')
      | (Err e, w') => Some (Err e, w')
      end
  end.
Proof.
  cbn [while_true]. unfold bind, in_waiting, _receive, read.
  destruct w as [r t l]. cbn [rx tx log].
  destruct r as [|[|b bs] rest]; [reflexivity | reflexivity |].
  cbn [hd]. unfold len. cbn [List.length].
  replace (Z.of_nat (S (List.length bs)) =? 0) with false
    by (symmetry; apply Z.eqb_neq; lia).
  rewrite Nat2Z.id. cbn [firstn skipn].
  rewrite firstn_all, skipn_all. reflexivity.
Qed.

(** The loop never runs out of iterations, and a call is summed up like
    a single read. *)
Lemma while_true_cases (fuel : nat) :
  forall (st : locals) (w : world),
    (List.length (rx w) < fuel)%nat ->
    exists res w' sent errs,
      while_true fuel st w = Some (res, w') /\
      tx w' = tx w ++ sent /\ log w' = log w ++ errs /\
      (In x06 sent
       \/ (sent = repeat x15 (Nat.min (List.length errs) (retries st)) /\
           match res with
           | Ok v => v = None /\ List.length errs = S (retries st)
           | Err _ => (List.length errs <= retries st)%nat
           end)).
Proof.
  induction fuel as [|fuel IH]; intros st w Hfuel; [lia|].
  rewrite while_true_S.
  destruct (rx w) as [|[|b bs] rest] eqn:Erx.
  - exists (Err TimeoutError), w, [], []. rewrite !app_nil_r.
    repeat split; auto. right. simpl. split; auto; lia.
  - eexists (Err TimeoutError), _, [], []. cbn [tx log]. rewrite !app_nil_r.
    repeat split; auto. right. simpl. split; auto; lia.
  - destruct (for_loop st (b :: bs) (mk_world rest (tx w) (log w)))
      as [c w1] eqn:E.
    destruct (for_loop_cases _ _ _ _ _ E)
      as (sent1 & errs1 & Htx1 & Hlog1 & Hrx1 & Hc1).
    cbn [rx tx log] in Htx1, Hlog1, Hrx1.
    destruct c as [[st1|v]|e].
    + destruct (IH st1 w1) as (res & w2 & sent2 & errs2 & E2 & Htx2 & Hlog2 & Hc2).
      { simpl in Hfuel. lia. }
      exists res, w2, (sent1 ++ sent2), (errs1 ++ errs2).
      rewrite E2, Htx2, Htx1, Hlog2, Hlog1, <- !app_assoc.
      repeat split; auto.
      destruct Hc1 as [Hack | [-> [Hle Hr1]]];
        [left; apply in_or_app; auto|].
      destruct Hc2 as [Hack | [-> Hc2]];
        [left; apply in_or_app; auto|].
      right. rewrite Hr1. rewrite length_app. split.
      * rewrite (Nat.min_l _ _ Hle). apply repeat_min_app. exact Hle.
      * rewrite Hr1 in Hc2. destruct res; [destruct Hc2; split; auto|]; lia.
    + exists (Ok v), w1, sent1, errs1. repeat split; auto.
    + exists (Err e), w1, sent1, errs1. repeat split; auto.
Qed.

Lemma receive_packet_cases (w : world) :
  exists sent errs,
    tx (snd (_receive_packet w)) = tx w ++ sent /\
    log (snd (_receive_packet w)) = log w ++ errs /\
    (In x06 sent
     \/ (sent = repeat x15 (Nat.min (List.length errs) _retries) /\
         match fst (_receive_packet w) with
         | Ok v => v = None /\ List.length errs = S _retries
         | Err _ => (List.length errs <= _retries)%nat
         end)).
Proof.
  unfold _receive_packet.
  destruct (while_true_cases (S (List.length (rx w)))
              (mk_locals [] false _retries []) w (Nat.lt_succ_diag_r _))
    as (res & w' & sent & errs & -> & Htx & Hlog & Hc).
  exists sent, errs. auto.
Qed.

(** An attempt is acknowledged exactly when the buffer holds a packet
    that passes the checks: no ACK among the bytes written is the same as
    every attempt failing. *)
Lemma attempt_acked_iff_accepted (st : locals) (b : byte) (w : world) :
  b = x03 \/ b = x04 ->
  In x06 (sent_since w (snd (for_body st [b] w)))
  <-> exists data, parse_packet (packet st) = Ok data.
Proof.
  intro Hb.
  assert (E : for_body st [b] w =
              match parse_packet (packet st) with
              | Err ex => except st ex w
              | Ok data =>
                  (_send ACK ;;
                   let st1 := mk_locals (packet st) (in_packet st) (retries st)
                                (_data st ++ [strip SEP data]) in
                   if bytes_eqb [b] EOT then
                     byte' <- _receive 1 ;;
                     if negb (bytes_eqb byte' ACK) then except st1 TypeError
                     else ret (Return (Some (_data st1)))
                   else ret (Next (mk_locals [] false (retries st1) (_data st1))))
                    w
              end).
  { unfold for_body, STX, ETX. unfold EOT at 1 2.
    rewrite !bytes_eqb_single.
    destruct Hb as [-> | ->]; cbn [Byte.eqb Byte.to_bits orb];
      destruct (parse_packet (packet st)); reflexivity. }
  destruct (for_body st [b] w) as [c w'] eqn:E0.
  destruct (for_body_cases _ _ _ _ _ E0) as (sent & errs & Htx & _ & _ & Hc).
  cbn [snd]. rewrite (sent_since_app _ _ _ Htx).
  destruct (parse_packet (packet st)) as [data|ex].
  - split; [eauto|]. intros _.
    unfold bind at 1 in E. unfold _send at 1, write in E.
    assert (Hpre : exists more, tx w' = (tx w ++ ACK) ++ more).
    { destruct (bytes_eqb [b] EOT).
      - unfold bind at 1, _receive, read in E. cbn [rx tx log] in E.
        destruct (rx w) as [|burst rest].
        + change (bytes_eqb [] ACK) with false in E. cbn [negb] in E.
          rewrite except_cases in E. cbn [retries rx tx log] in E.
          destruct (retries st); injection E as -> ->; cbn [tx];
            eexists; (reflexivity || (symmetry; apply app_nil_r)).
        + destruct (negb (bytes_eqb (firstn (Z.to_nat 1) burst) ACK)).
          * rewrite except_cases in E. cbn [retries rx tx log] in E.
            destruct (retries st); injection E as -> ->; cbn [tx];
              eexists; (reflexivity || (symmetry; apply app_nil_r)).
          * injection E as -> ->. cbn [tx]. exists [].
            symmetry; apply app_nil_r.
      - injection E as -> ->. cbn [tx]. exists [].
        symmetry; apply app_nil_r. }
    destruct Hpre as (more & Hpre). rewrite <- app_assoc in Hpre.
    rewrite Htx in Hpre. apply app_inv_head in Hpre. subst sent.
    simpl. auto.
  - split; [|intros (data & Hd); discriminate].
    rewrite except_cases in E.
    destruct (retries st); injection E as -> ->; cbn [tx] in Htx.
    + rewrite <- (app_nil_r (tx w)) in Htx at 1.
      apply app_inv_head in Htx. subst sent. simpl. tauto.
    + apply app_inv_head in Htx. subst sent. unfold NAK. simpl.
      intros [H|[]]. discriminate.
Qed.

(** C2, as the code has it.  In a call in which no packet is accepted (no
    ACK is written), let [k] be the number of failed attempts, each
    logged once.  What the call writes is one NAK for each of the first
    five, [min k 5] in all and never more than five; there are at most
    six failed attempts; and the call returns nothing exactly when there
    is a sixth, which gets no NAK. *)
Theorem receive_packet_failed_attempts (w : world) :
  ~ In x06 (sent_since w (snd (_receive_packet w))) ->
  tx (snd (_receive_packet w))
  = tx w ++ repeat x15
              (Nat.min (List.length
                          (logged_since w (snd (_receive_packet w)))) 5)
  /\ (List.length (logged_since w (snd (_receive_packet w))) <= 6)%nat
  /\ (fst (_receive_packet w) = Ok None
      <-> List.length (logged_since w (snd (_receive_packet w))) = 6%nat).
Proof.
  intro Hno.
  destruct (receive_packet_cases w) as (sent & errs & Htx & Hlog & Hc).
  rewrite (sent_since_app _ _ _ Htx) in Hno.
  rewrite (logged_since_app _ _ _ Hlog).
  destruct Hc as [Hack | [-> Hc]]; [contradiction|].
  unfold _retries in *. split; [exact Htx|].
  destruct (fst (_receive_packet w)) as [v|e].
  - destruct Hc as [-> Hk]. rewrite Hk. repeat split; auto.
  - repeat split; try lia; try discriminate.
Qed.

End Receiver.

Lemma receive_packet_failed_attempts_witness :
  ~ In x06 (sent_since (mk_world [[x03; x03; x03; x03; x03; x03]] [] [])
              (snd (_receive_packet (U := unicode_14)
                      (mk_world [[x03; x03; x03; x03; x03; x03]] [] []))))
  /\ fst (_receive_packet (U := unicode_14)
            (mk_world [[x03; x03; x03; x03; x03; x03]] [] [])) = Ok None
  /\ tx (snd (_receive_packet (U := unicode_14)
                (mk_world [[x03; x03; x03; x03; x03; x03]] [] [])))
     = [x15; x15; x15; x15; x15].
Proof.
  assert (H : ~ In x06
                (sent_since (mk_world [[x03; x03; x03; x03; x03; x03]] [] [])
                   (snd (_receive_packet (U := unicode_14)
                           (mk_world [[x03; x03; x03; x03; x03; x03]] [] []))))).
  { vm_compute. intros [H|[H|[H|[H|[H|[]]]]]]; discriminate. }
  split; [exact H|].
  destruct (receive_packet_failed_attempts (U := unicode_14)
              (mk_world [[x03; x03; x03; x03; x03; x03]] [] []) H)
    as (Htx & _ & Hret).
  split.
  - apply Hret. reflexivity.
  - rewrite Htx. reflexivity.
Defined.

(** C2, as the spec states it, fails.  After five failed attempts and
    five NAKs the call does not return: it reads on and ends in the
    timeout.  With six failed attempts it returns nothing, and the sixth
    got no NAK. *)
Lemma five_failed_attempts_do_not_return :
  _receive_packet (U := unicode_14)
    (mk_world [[x03; x03; x03; x03; x03]] [] [])
  = (Err TimeoutError,
     mk_world [] [x15; x15; x15; x15; x15]
       [ParseError; ParseError; ParseError; ParseError; ParseError])
  /\
  _receive_packet (U := unicode_14)
    (mk_world [[x03; x03; x03; x03; x03; x03]] [] [])
  = (Ok None,
     mk_world [] [x15; x15; x15; x15; x15]
       [ParseError; ParseError; ParseError; ParseError; ParseError;
        ParseError]).
Proof. split; reflexivity. Qed.

(** ** The start marker and the idle state *)

Section Markers.
Context {U : UnicodeData}.

(** C4 fails on the code.  A start marker sets [in_packet] and leaves
    the buffer as it is, in every state: after STX, "A", STX the buffer
    still holds "A". *)
Theorem start_marker_keeps_buffer :
  (forall (st : locals) (w : world),
      for_body st STX w
      = (Ok (Next (mk_locals (packet st) true (retries st) (_data st))), w))
  /\ (forall w : world,
         for_loop (mk_locals [] false _retries []) [x02; x41; x02] w
         = (Ok (Next (mk_locals [x41] true _retries [])), w)).
Proof. split; reflexivity. Qed.

(** While the receiver is idle its buffer is empty: the buffer only
    grows inside a packet, and [in_packet] is only reset together with
    the buffer. *)
Lemma idle_buffer_empty_step (st st' : locals) (b : byte) (w w' : world) :
  (in_packet st = false -> packet st = []) ->
  for_body st [b] w = (Ok (Next st'), w') ->
  in_packet st' = false -> packet st' = [].
Proof.
  intros Hinv E. unfold for_body in E.
  destruct (bytes_eqb [b] STX).
  { injection E as <- <-. discriminate. }
  destruct (bytes_eqb [b] ETX || bytes_eqb [b] EOT).
  - destruct (parse_packet (packet st)) as [data|ex].
    + unfold bind at 1, _send at 1, write in E.
      destruct (bytes_eqb [b] EOT).
      * unfold bind at 1 in E.
        destruct (_receive 1 _) as [[byte'|e] w1]; [|discriminate].
        destruct (negb (bytes_eqb byte' ACK)); [|discriminate].
        rewrite except_cases in E. cbn [retries] in E.
        destruct (retries st); [discriminate|].
        injection E as <- <-. exact Hinv.
      * injection E as <- <-. reflexivity.
    + rewrite except_cases in E. destruct (retries st); [discriminate|].
      injection E as <- <-. exact Hinv.
  - destruct (in_packet st) eqn:Ein.
    + injection E as <- <-. cbn [in_packet]. discriminate.
    + discriminate.
Qed.

Lemma idle_buffer_empty (received : bytes) :
  forall (st st' : locals) (w w' : world),
    (in_packet st = false -> packet st = []) ->
    for_loop st received w = (Ok (Next st'), w') ->
    in_packet st' = false -> packet st' = [].
Proof.
  induction received as [|b rest IH]; intros st st' w w' Hinv E.
  - injection E as <- <-. exact Hinv.
  - cbn [for_loop] in E. unfold bind at 1 in E.
    destruct (for_body st [b] w) as [[[st1|v]|e] w1] eqn:E1; try discriminate.
    eapply IH; [|exact E]. eapply idle_buffer_empty_step; eauto.
Qed.

(** C5, as the code has it.  The receiver is idle (and its buffer
    therefore empty).  A byte that is none of the three markers leaves
    the line and the log as they are: no NAK goes out.  An end marker,
    ETX or EOT, is not dropped: the empty buffer is checked and fails,
    the failure is logged, and with budget left a NAK goes out and the
    budget drops by one; without budget the call returns nothing. *)
Theorem idle_byte (st : locals) (b : byte) (w : world) :
  in_packet st = false -> packet st = [] ->
  (b <> x02 -> b <> x03 -> b <> x04 ->
   tx (snd (for_body st [b] w)) = tx w
   /\ log (snd (for_body st [b] w)) = log w)
  /\ (b = x03 \/ b = x04 ->
      for_body st [b] w =
      match retries st with
      | S r =>
          (Ok (Next (mk_locals [] false r (_data st))),
           mk_world (rx w) (tx w ++ NAK) (log w ++ [ParseError]))
      | O =>
          (Ok (Return None),
           mk_world (rx w) (tx w) (log w ++ [ParseError]))
      end).
Proof.
  intros Hidle Hbuf. split.
  - intros H2 H3 H4. unfold for_body, STX, ETX, EOT.
    rewrite !bytes_eqb_single, !byte_eqb_neq by assumption.
    rewrite Hidle. split; reflexivity.
  - intro Hb. unfold for_body, STX, ETX. unfold EOT at 1.
    rewrite !bytes_eqb_single.
    assert (Hp : parse_packet (packet st) = Err ParseError)
      by (rewrite Hbuf; reflexivity).
    destruct Hb as [-> | ->];
      cbn [Byte.eqb Byte.to_bits orb andb Bool.eqb]; rewrite Hp;
      cbv beta iota; rewrite except_cases, Hbuf, Hidle; reflexivity.
Qed.

End Markers.

Lemma idle_byte_witness :
  (tx (snd (for_body (U := unicode_14) (mk_locals [] false 5 []) [x41]
              (mk_world [] [] []))) = []
   /\ log (snd (for_body (U := unicode_14) (mk_locals [] false 5 []) [x41]
                  (mk_world [] [] []))) = [])
  /\ for_body (U := unicode_14) (mk_locals [] false 5 []) [x04]
       (mk_world [] [] [])
     = (Ok (Next (mk_locals [] false 4 [])), mk_world [] NAK [ParseError]).
Proof.
  split.
  - apply (proj1 (idle_byte (U := unicode_14) (mk_locals [] false 5 []) x41
                    (mk_world [] [] []) eq_refl eq_refl)); discriminate.
  - apply (proj2 (idle_byte (U := unicode_14) (mk_locals [] false 5 []) x04
                    (mk_world [] [] []) eq_refl eq_refl)).
    right. reflexivity.
Defined.

(** C5, as the spec states it, fails: an ETX received while idle is
    answered with a NAK and takes one unit of the budget (5 becomes 4). *)
Lemma idle_end_marker_is_nakked :
  for_body (U := unicode_14) (mk_locals [] false 5 []) ETX (mk_world [] [] [])
  = (Ok (Next (mk_locals [] false 4 [])), mk_world [] NAK [ParseError]).
Proof. reflexivity. Qed.

(** A slice inside a buffer is not changed by what is appended to the
    buffer. *)
Lemma slice_app_prefix {A} (p q : list A) (i j : Z) :
  0 <= i -> 0 <= j <= len p -> slice (p ++ q) i j = slice p i j.
Proof.
  intros Hi Hj. unfold slice, adjust_index, len in *.
  rewrite length_app, Nat2Z.inj_add.
  destruct (i <? 0) eqn:Ei; [apply Z.ltb_lt in Ei; lia|].
  destruct (j <? 0) eqn:Ej; [apply Z.ltb_lt in Ej; lia|].
  set (n := Z.of_nat (List.length p)) in *.
  set (m := Z.of_nat (List.length q)).
  assert (Hm : 0 <= m) by (subst m; lia).
  replace (Z.min j (n + m)) with j by lia.
  replace (Z.min j n) with j by lia.
  destruct (Z_le_gt_dec i n) as [Hin|Hin].
  - replace (Z.min i (n + m)) with i by lia.
    replace (Z.min i n) with i by lia.
    rewrite skipn_app.
    replace (Z.to_nat i - List.length p)%nat with 0%nat by (subst n; lia).
    cbn [skipn]. rewrite firstn_app.
    replace (Z.to_nat (j - i) - List.length (skipn (Z.to_nat i) p))%nat
      with 0%nat by (rewrite length_skipn; subst n; lia).
    cbn [firstn]. apply app_nil_r.
  - replace (Z.to_nat (j - Z.min i (n + m))) with 0%nat by lia.
    replace (Z.to_nat (j - Z.min i n)) with 0%nat by lia.
    reflexivity.
Qed.

Section Stale.
Context {U : UnicodeData}.

(** Why the buffer matters (C4).  Neither a start marker nor a failed
    attempt empties the buffer.  Once it begins with a whole packet (a
    length [n], [n] data bytes, two checksum characters) that does not
    pass, it does not pass with anything appended either: every later
    attempt of the call fails in the same way. *)
Lemma parse_packet_stale (p q : bytes) (n : Z) (e : exn) :
  int_of_bytes 16 (slice p 0 2) = Ok n ->
  0 <= n -> 2 + n + 2 <= len p ->
  parse_packet p = Err e ->
  parse_packet (p ++ q) = Err e.
Proof.
  intros Hn Hpos Hlen Hp. unfold parse_packet in *.
  assert (Hq : len p <= len (p ++ q))
    by (unfold len; rewrite length_app; lia).
  rewrite !slice_app_prefix by lia.
  rewrite Hn in *. cbn [rbind] in *.
  replace (len (p ++ q) <? 2) with false by (symmetry; apply Z.ltb_ge; lia).
  replace (len (p ++ q) <? 2 + n) with false
    by (symmetry; apply Z.ltb_ge; lia).
  replace (len (p ++ q) <? 2 + n + 2) with false
    by (symmetry; apply Z.ltb_ge; lia).
  replace (len p <? 2) with false in Hp by (symmetry; apply Z.ltb_ge; lia).
  replace (len p <? 2 + n) with false in Hp
    by (symmetry; apply Z.ltb_ge; lia).
  replace (len p <? 2 + n + 2) with false in Hp
    by (symmetry; apply Z.ltb_ge; lia).
  rewrite !slice_app_prefix by lia. exact Hp.
Qed.

End Stale.

(** An instance: "\tA\t" arrives with checksum 00 instead of 2F, and
    then five times intact.  Each retransmission is refused and the call
    returns nothing, while the intact packet alone is accepted. *)
Lemma stale_buffer_defeats_retransmission :
  _receive_packet (U := unicode_14)
    (mk_world
       [ [x02] ++ b_ "03" ++ [x09; x41; x09] ++ b_ "00" ++ [x03];
         [x02] ++ b_ "03" ++ [x09; x41; x09] ++ b_ "2F" ++ [x03];
         [x02] ++ b_ "03" ++ [x09; x41; x09] ++ b_ "2F" ++ [x03];
         [x02] ++ b_ "03" ++ [x09; x41; x09] ++ b_ "2F" ++ [x03];
         [x02] ++ b_ "03" ++ [x09; x41; x09] ++ b_ "2F" ++ [x03];
         [x02] ++ b_ "03" ++ [x09; x41; x09] ++ b_ "2F" ++ [x03] ] [] [])
  = (Ok None,
     mk_world [] [x15; x15; x15; x15; x15]
       [ParseError; ParseError; ParseError; ParseError; ParseError;
        ParseError])
  /\
  fst (_receive_packet (U := unicode_14)
         (mk_world
            [ [x02] ++ b_ "03" ++ [x09; x41; x09] ++ b_ "2F" ++ [x04];
              ACK ] [] []))
  = Ok (Some [[x41]]).
Proof. split; reflexivity. Qed.

(** ** The public methods *)

Lemma echo_loop_tx (stream : bytes) :
  forall w : world,
    exists w',
      echo_loop stream w = (Ok tt, w')
      /\ tx w' = tx w ++ stream /\ log w' = log w.
Proof.
  induction stream as [|x stream IH]; intro w.
  - exists w. rewrite app_nil_r. auto.
  - cbn [echo_loop]. unfold bind at 1, _send at 1, write.
    unfold bind at 1.
    destruct (_receive (len [x]) (mk_world (rx w) (tx w ++ [x]) (log w)))
      as [r w1] eqn:E1.
    assert (H1 : exists got, r = Ok got /\ tx w1 = tx w ++ [x]
                             /\ log w1 = log w).
    { unfold _receive, read in E1. cbn [rx tx log] in E1.
      destruct (rx w); injection E1 as <- <-; eexists; cbn; auto. }
    destruct H1 as (got & -> & Htx1 & Hlog1).
    destruct (IH w1) as (w' & E & Htx & Hlog).
    exists w'. rewrite E, Htx, Htx1, Hlog, Hlog1, <- app_assoc. auto.
Qed.

(** Whatever the device answers, the handshake writes the command
    stream, byte by byte, and the carriage return. *)
Lemma send_command_tx (cmd : bytes) (fields : list bytes) (w : world) :
  tx (snd (_send_command cmd fields w))
  = tx w ++ join FIELD_SEPARATOR (cmd :: fields) ++ CR.
Proof.
  unfold _send_command. unfold bind at 1.
  destruct (echo_loop_tx (join FIELD_SEPARATOR (cmd :: fields)) w)
    as (w1 & -> & Htx1 & _).
  unfold bind at 1, _send at 1, write.
  unfold bind at 1, _receive, read. cbn [rx tx log].
  destruct (rx w1) as [|burst rest]; cbn [rx tx log];
    unfold bind;
    match goal with
    | |- context [negb (is_ack_or_nak ?x)] => destruct (negb (is_ack_or_nak x))
    end; cbn; rewrite Htx1, <- app_assoc; reflexivity.
Qed.

Section Facade.
Context {U : UnicodeData}.

(** C6, as the code has it.  [get_readings] does not look at its
    indices before it talks to the device: for every pair (of a size
    that [str] accepts), [end < start] included, it writes the opcode
    0x61, the separator, the digits of [start], the separator, the digits
    of [end] and the carriage return, whatever the device answers. *)
Theorem get_readings_starts_handshake (start end_ : Z) (w : world) :
  Z.abs start < 10 ^ 4300 -> Z.abs end_ < 10 ^ 4300 ->
  exists more,
    tx (snd (get_readings start end_ w))
    = tx w ++ GET_READINGS ++ FIELD_SEPARATOR ++ str_of_int start
           ++ FIELD_SEPARATOR ++ str_of_int end_ ++ CR ++ more.
Proof.
  intros _ _.
  unfold get_readings. unfold bind at 1.
  pose proof (send_command_tx GET_READINGS
                [str_of_int start; str_of_int end_] w) as Hcmd.
  cbn [join] in Hcmd. rewrite <- !app_assoc in Hcmd.
  destruct (_send_command GET_READINGS [str_of_int start; str_of_int end_] w)
    as [[ok|e] w1]; cbn [snd] in Hcmd.
  - destruct ok.
    + unfold bind at 1.
      destruct (receive_packet_cases w1) as (sent & errs & Htx & _).
      destruct (_receive_packet w1) as [[data|e] w2]; cbn [snd] in Htx.
      * exists sent. destruct data as [blocks|].
        -- unfold bind, lift. destruct (decode_entries [] blocks);
             cbn [snd ret]; rewrite Htx, Hcmd, <- !app_assoc; reflexivity.
        -- cbn [snd raise]. rewrite Htx, Hcmd, <- !app_assoc. reflexivity.
      * exists sent. cbn [snd]. rewrite Htx, Hcmd, <- !app_assoc.
        reflexivity.
    + exists []. cbn [snd ret]. rewrite Hcmd, app_nil_r. reflexivity.
  - exists []. cbn [snd]. rewrite Hcmd, app_nil_r. reflexivity.
Qed.

(** When [_receive_packet] returns blocks there is at least one: a
    returned list got its last block just before the return. *)
Lemma for_body_returns_nonempty (st : locals) (b : byte) (w w' : world)
    (blocks : list bytes) :
  for_body st [b] w = (Ok (Return (Some blocks)), w') -> blocks <> [].
Proof.
  intro E. unfold for_body in E.
  destruct (bytes_eqb [b] STX); [discriminate|].
  destruct (bytes_eqb [b] ETX || bytes_eqb [b] EOT).
  - destruct (parse_packet (packet st)) as [data|ex].
    + unfold bind at 1, _send at 1, write in E.
      destruct (bytes_eqb [b] EOT); [|discriminate].
      unfold bind at 1 in E.
      destruct (_receive 1 _) as [[byte'|e] w1]; [|discriminate].
      destruct (negb (bytes_eqb byte' ACK)).
      * rewrite except_cases in E. cbn [retries] in E.
        destruct (retries st); discriminate.
      * injection E as <- <-. cbn [_data].
        intro H. apply app_eq_nil in H. destruct H; discriminate.
    + rewrite except_cases in E. destruct (retries st); discriminate.
  - destruct (in_packet st); discriminate.
Qed.

Lemma for_loop_returns_nonempty (received : bytes) :
  forall (st : locals) (w w' : world) (blocks : list bytes),
    for_loop st received w = (Ok (Return (Some blocks)), w') -> blocks <> [].
Proof.
  induction received as [|b rest IH]; intros st w w' blocks E.
  - discriminate.
  - cbn [for_loop] in E. unfold bind at 1 in E.
    destruct (for_body st [b] w) as [[[st1|v]|e] w1] eqn:E1.
    + eapply IH; exact E.
    + injection E as -> <-. eapply for_body_returns_nonempty; exact E1.
    + discriminate.
Qed.

Lemma while_true_returns_nonempty (fuel : nat) :
  forall (st : locals) (w w' : world) (blocks : list bytes),
    while_true fuel st w = Some (Ok (Some blocks), w') -> blocks <> [].
Proof.
  induction fuel as [|fuel IH]; intros st w w' blocks E; [discriminate|].
  rewrite while_true_S in E.
  destruct (rx w) as [|[|b bs] rest]; try discriminate.
  destruct (for_loop st (b :: bs) _) as [[[st1|v]|e] w1] eqn:E1.
  - eapply IH; exact E.
  - injection E as -> <-. eapply for_loop_returns_nonempty; exact E1.
  - discriminate.
Qed.

Lemma receive_packet_blocks_nonempty (w w' : world) (blocks : list bytes) :
  _receive_packet w = (Ok (Some blocks), w') -> blocks <> [].
Proof.
  unfold _receive_packet. intro E.
  destruct (while_true _ _ w) as [[r w1]|] eqn:E1; [|discriminate].
  injection E as -> ->. eapply while_true_returns_nonempty; exact E1.
Qed.

(** C10.  For each of the nine reading methods: when the handshake is
    acknowledged and [_receive_packet] then gives up and returns nothing,
    the method does not return; it ends with [TypeError], raised where
    the missing list is subscripted (iterated, in [get_readings]), in the
    state in which the receiver left the line. *)
Theorem read_method_needs_blocks (m : read_method) (w w1 w2 : world) :
  request m w = (Ok true, w1) ->
  _receive_packet w1 = (Ok None, w2) ->
  call m w = (Err TypeError, w2).
Proof.
  intros Hreq Hrecv.
  destruct m; cbn [request call] in *; unfold ending;
    [ unfold get_and_clear_status | unfold get_meter_name
    | unfold get_meter_number | unfold get_serial_number
    | unfold get_current_date | unfold get_current_time
    | unfold get_meter_units | unfold get_reading_count
    | unfold get_readings ];
    unfold bind at 1; rewrite Hreq; unfold bind at 1; rewrite Hrecv;
    reflexivity.
Qed.

End Facade.

(** C6, as the spec states it, fails: [get_readings(1, 0)] is not
    refused.  With the device echoing and then answering NAK, the six
    handshake bytes are written, six reads are done, and the method
    returns nothing. *)
Lemma get_readings_1_0_is_sent :
  get_readings (U := unicode_14) 1 0
    (mk_world [[x61]; [x09]; [x31]; [x09]; [x30]; NAK] [] [])
  = (Ok None, mk_world [] [x61; x09; x31; x09; x30; x0d] []).
Proof. reflexivity. Qed.

Lemma get_readings_starts_handshake_witness :
  exists more,
    tx (snd (get_readings (U := unicode_14) 7 3 (mk_world [] [] [])))
    = [x61; x09; x37; x09; x33; x0d] ++ more.
Proof.
  apply (get_readings_starts_handshake (U := unicode_14) 7 3
           (mk_world [] [] []));
    apply Z.ltb_lt; vm_compute; reflexivity.
Defined.

(** The case of C10 is reached from outside: the handshake of
    [get_reading_count] is acknowledged, then six end markers arrive. *)
Lemma read_method_needs_blocks_witness :
  call (U := unicode_14) Get_reading_count
    (mk_world [[x60]; ACK; [x03; x03; x03; x03; x03; x03]] [] [])
  = (Err TypeError,
     mk_world [] [x60; x0d; x15; x15; x15; x15; x15]
       [ParseError; ParseError; ParseError; ParseError; ParseError;
        ParseError]).
Proof.
  apply (read_method_needs_blocks (U := unicode_14) Get_reading_count
           (mk_world [[x60]; ACK; [x03; x03; x03; x03; x03; x03]] [] [])
           (mk_world [[x03; x03; x03; x03; x03; x03]] [x60; x0d] []));
    reflexivity.
Defined.

(** Every one of the nine methods reaches that case: the device echoes
    the command, acknowledges it, and sends six end markers. *)
Lemma read_methods_all_reach_it :
  forall m : read_method,
  exists w w',
    request m w = (Ok true, w')
    /\ fst (_receive_packet (U := unicode_14) w') = Ok None.
Proof.
  intro m.
  assert (H : forall cmd fields,
             exists w w',
               _send_command cmd fields w = (Ok true, w')
               /\ fst (_receive_packet (U := unicode_14) w') = Ok None).
  { intros cmd fields.
    exists (mk_world (map (fun x => [x]) (join FIELD_SEPARATOR (cmd :: fields))
                      ++ ACK :: [[x03; x03; x03; x03; x03; x03]]) [] []).
    eexists. split.
    - apply (proj1 (send_command_ack_nak cmd fields _)).
    - reflexivity. }
  destruct m; cbn [request]; apply H.
Qed.

(* ===================================================================== *)
(** * Further properties of the driver *)
(* ===================================================================== *)

(** ** What the checksum detects *)

Lemma ord_inj (x y : byte) : ord x = ord y -> x = y.
Proof.
  unfold ord. intro H. apply N2Z.inj in H.
  pose proof (Byte.of_to_N x) as Hx. pose proof (Byte.of_to_N y) as Hy.
  rewrite H in Hx. congruence.
Qed.

Lemma _checksum_loop_app (a b : bytes) (c : Z) :
  _checksum_loop c (a ++ b) = _checksum_loop (_checksum_loop c a) b.
Proof.
  revert c. induction a as [|x a IH]; intro c; simpl; auto.
Qed.

Lemma _checksum_loop_seed (data : bytes) (c : Z) :
  _checksum_loop c data = Z.lxor c (_checksum_loop 0 data).
Proof.
  revert c. induction data as [|x data IH]; intro c; cbn [_checksum_loop].
  - rewrite Z.lxor_0_r. reflexivity.
  - rewrite IH. rewrite (IH (Z.lxor 0 (ord x))).
    rewrite Z.lxor_0_l, Z.lxor_assoc. reflexivity.
Qed.

(** A change of one byte changes the checksum. *)
Lemma _checksum_one_byte (a b : bytes) (x y : byte) :
  x <> y -> _checksum (a ++ x :: b) <> _checksum (a ++ y :: b).
Proof.
  intros Hxy H. unfold _checksum in H.
  rewrite !_checksum_loop_app in H. cbn [_checksum_loop] in H.
  rewrite (_checksum_loop_seed b (Z.lxor _ (ord x))) in H.
  rewrite (_checksum_loop_seed b (Z.lxor _ (ord y))) in H.
  apply (f_equal (fun z => Z.lxor z (_checksum_loop 0 b))) in H.
  rewrite !Z.lxor_assoc, !Z.lxor_nilpotent, !Z.lxor_0_r in H.
  apply (f_equal (Z.lxor (_checksum_loop 110 a))) in H.
  rewrite <- !Z.lxor_assoc, !Z.lxor_nilpotent, !Z.lxor_0_l in H.
  apply Hxy, ord_inj, H.
Qed.

(** X1.  Changing exactly one byte of the data, wherever it stands,
    changes the checksum. *)
Theorem checksum_detects_one_byte (a b : bytes) (x y : byte) :
  x <> y -> _checksum (a ++ x :: b) <> _checksum (a ++ y :: b).
Proof. exact (_checksum_one_byte a b x y). Qed.

Lemma checksum_detects_one_byte_witness :
  _checksum ([x09] ++ x31 :: [x09]) <> _checksum ([x09] ++ x32 :: [x09]).
Proof.
  apply (checksum_detects_one_byte [x09] [x09] x31 x32). discriminate.
Defined.

Lemma _checksum_loop_perm (a b : bytes) :
  Permutation a b -> forall c, _checksum_loop c a = _checksum_loop c b.
Proof.
  induction 1 as [|x a b _ IH|x y a|a b d _ IH1 _ IH2]; intro c; simpl.
  - reflexivity.
  - apply IH.
  - f_equal. rewrite !Z.lxor_assoc. f_equal. apply Z.lxor_comm.
  - rewrite IH1. apply IH2.
Qed.

(** X2.  The checksum does not see the order of the bytes: data that are
    a rearrangement of each other have the same checksum. *)
Theorem checksum_ignores_order (a b : bytes) :
  Permutation a b -> _checksum a = _checksum b.
Proof.
  intro H. apply _checksum_loop_perm. exact H.
Qed.

Lemma checksum_ignores_order_witness :
  _checksum [x31; x32; x33] = _checksum [x33; x31; x32].
Proof.
  apply (checksum_ignores_order [x31; x32; x33] [x33; x31; x32]).
  apply Permutation_sym, (Permutation_cons_app [x31; x32] [] x33).
  rewrite app_nil_r. apply Permutation_refl.
Defined.

(** X3.  The checksum of a concatenation is the XOR of the checksums of
    the parts and the seed; in particular data followed by themselves
    have the checksum of nothing, 0x6E. *)
Theorem checksum_of_concatenation (a b : bytes) :
  _checksum (a ++ b) = Z.lxor (Z.lxor (_checksum a) (_checksum b)) 110
  /\ _checksum (a ++ a) = 0x6E.
Proof.
  assert (H : forall u v,
             _checksum (u ++ v)
             = Z.lxor (Z.lxor (_checksum u) (_checksum v)) 110).
  { intros u v. unfold _checksum. rewrite _checksum_loop_app.
    rewrite (_checksum_loop_seed v (_checksum_loop 110 u)).
    rewrite (_checksum_loop_seed v 110).
    rewrite (Z.lxor_comm 110 (_checksum_loop 0 v)).
    rewrite !Z.lxor_assoc, Z.lxor_nilpotent, Z.lxor_0_r. reflexivity. }
  split; [apply H|].
  rewrite H, Z.lxor_nilpotent, Z.lxor_0_l. reflexivity.
Qed.

(** ** Packets: what the receiver accepts *)

Lemma len_app {A} (a b : list A) : len (a ++ b) = len a + len b.
Proof. unfold len. rewrite length_app. lia. Qed.

Lemma len_nonneg {A} (a : list A) : 0 <= len a.
Proof. unfold len. lia. Qed.

Lemma slice_at {A} (a b c : list A) (i j : Z) :
  i = len a -> j = len a + len b -> slice (a ++ b ++ c) i j = b.
Proof.
  intros -> ->. unfold slice, adjust_index.
  rewrite !len_app.
  pose proof (len_nonneg a). pose proof (len_nonneg b).
  pose proof (len_nonneg c).
  destruct (len a <? 0) eqn:E1; [apply Z.ltb_lt in E1; lia|].
  destruct (len a + len b <? 0) eqn:E2; [apply Z.ltb_lt in E2; lia|].
  replace (Z.min (len a) (len a + (len b + len c))) with (len a) by lia.
  replace (Z.min (len a + len b) (len a + (len b + len c)))
    with (len a + len b) by lia.
  replace (len a + len b - len a) with (len b) by lia.
  unfold len. rewrite !Nat2Z.id.
  rewrite skipn_app, skipn_all, Nat.sub_diag. cbn [skipn app].
  rewrite firstn_app, firstn_all, Nat.sub_diag. cbn [firstn].
  apply app_nil_r.
Qed.

Lemma slice_head {A} (b c : list A) (j : Z) :
  j = len b -> slice (b ++ c) 0 j = b.
Proof.
  intro H. apply (slice_at [] b c 0 j); [reflexivity | exact H].
Qed.

Section Packets.
Context {U : UnicodeData}.

Lemma format_02X_check :
  forallb
    (fun k =>
       match int_of_bytes 16 (format_02X (Z.of_nat k)) with
       | Ok v =>
           (v =? Z.of_nat k)
           && (len (format_02X (Z.of_nat k)) =? 2)
           && no_marker (format_02X (Z.of_nat k))
       | Err _ => false
       end) (seq 0 256) = true.
Proof. vm_compute. reflexivity. Qed.

Lemma format_02X_byte (n : Z) :
  0 <= n < 256 ->
  int_of_bytes 16 (format_02X n) = Ok n
  /\ len (format_02X n) = 2
  /\ no_marker (format_02X n) = true.
Proof.
  intro Hn. pose proof format_02X_check as H.
  rewrite forallb_forall in H. specialize (H (Z.to_nat n)).
  rewrite Z2Nat.id in H by lia.
  assert (Hin : In (Z.to_nat n) (seq 0 256)) by (apply in_seq; lia).
  specialize (H Hin).
  destruct (int_of_bytes 16 (format_02X n)) as [v|e]; [|discriminate].
  apply andb_prop in H. destruct H as [H H3].
  apply andb_prop in H. destruct H as [H1 H2].
  apply Z.eqb_eq in H1, H2. subst v. auto.
Qed.

(** The checksum in two hex characters, and read back. *)
Lemma format_02X_checksum (data : bytes) :
  len (format_02X (_checksum data)) = 2
  /\ int_of_bytes 16 (format_02X (_checksum data)) = Ok (_checksum data).
Proof.
  destruct (format_02X_byte (_checksum data)) as (H1 & H2 & _).
  - apply _checksum_loop_range. lia.
  - auto.
Qed.

(** X4.  The checksum field that [_send_packet] writes is two
    characters, and the receiver's reading of them, [int(..., 16)], gives
    the checksum back. *)
Theorem checksum_field_round_trip (data : bytes) :
  len (format_02X (_checksum data)) = 2
  /\ int_of_bytes 16 (format_02X (_checksum data)) = Ok (_checksum data).
Proof. exact (format_02X_checksum data). Qed.

(** A well-formed packet at the head of the buffer passes. *)
Lemma parse_packet_body (data extra : bytes) :
  len data < 256 ->
  parse_packet (body data ++ extra) = Ok data.
Proof.
  intro Hlen. pose proof (len_nonneg data) as Hpos.
  destruct (format_02X_byte (len data)) as (HL & HlenL & _); [lia|].
  destruct (format_02X_checksum data) as (HlenC & HC).
  unfold parse_packet, body.
  set (L := format_02X (len data)) in *.
  set (C := format_02X (_checksum data)) in *.
  assert (Hp : len ((L ++ data ++ C) ++ extra)
               = 2 + len data + 2 + len extra).
  { rewrite !len_app. lia. }
  pose proof (len_nonneg extra) as Hex.
  rewrite Hp.
  replace (2 + len data + 2 + len extra <? 2) with false
    by (symmetry; apply Z.ltb_ge; lia).
  rewrite <- !app_assoc.
  rewrite (slice_head L (data ++ C ++ extra) 2) by lia.
  rewrite HL. cbn [rbind].
  replace (2 + len data + 2 + len extra <? 2 + len data) with false
    by (symmetry; apply Z.ltb_ge; lia).
  replace (2 + len data + 2 + len extra <? 2 + len data + 2) with false
    by (symmetry; apply Z.ltb_ge; lia).
  rewrite (slice_at L data (C ++ extra) 2 (2 + len data)) by lia.
  rewrite (app_assoc L data (C ++ extra)).
  rewrite (slice_at (L ++ data) C extra (2 + len data) (2 + len data + 2))
    by (rewrite len_app; lia).
  rewrite HC. cbn [rbind]. rewrite Z.eqb_refl. reflexivity.
Qed.

(** X5.  A buffer that begins with a well-formed packet (length in two
    hex characters, that many data bytes, checksum in two hex
    characters) passes the checks and yields the data, whatever follows
    in the buffer. *)
Theorem parse_packet_accepts (data extra : bytes) :
  len data < 256 ->
  parse_packet (body data ++ extra) = Ok data.
Proof. exact (parse_packet_body data extra). Qed.

(** X6.  A packet in which one data byte was changed on the way, with
    the length and the checksum of the original, is refused. *)
Theorem parse_packet_refuses_changed_byte (a b : bytes) (x y : byte) :
  len (a ++ x :: b) < 256 -> x <> y ->
  parse_packet (format_02X (len (a ++ x :: b)) ++ (a ++ y :: b)
                ++ format_02X (_checksum (a ++ x :: b)))
  = Err ParseError.
Proof.
  intros Hlen Hxy.
  assert (Hsame : len (a ++ y :: b) = len (a ++ x :: b)).
  { rewrite !len_app. unfold len. cbn [List.length]. reflexivity. }
  pose proof (len_nonneg (a ++ x :: b)) as Hpos.
  destruct (format_02X_byte (len (a ++ x :: b))) as (HL & HlenL & _); [lia|].
  destruct (format_02X_checksum (a ++ x :: b)) as (HlenC & HC).
  set (n := len (a ++ x :: b)) in *.
  set (L := format_02X n) in *.
  set (C := format_02X (_checksum (a ++ x :: b))) in *.
  set (d := a ++ y :: b) in *.
  replace (L ++ d ++ C) with (L ++ d ++ C ++ [])
    by (rewrite app_nil_r; reflexivity).
  assert (Hp : len (L ++ d ++ C ++ []) = 2 + n + 2).
  { rewrite !len_app. cbn [len List.length Z.of_nat]. lia. }
  unfold parse_packet. rewrite Hp.
  replace (2 + n + 2 <? 2) with false by (symmetry; apply Z.ltb_ge; lia).
  rewrite (slice_head L (d ++ C ++ []) 2) by lia.
  rewrite HL. cbn [rbind].
  replace (2 + n + 2 <? 2 + n) with false
    by (symmetry; apply Z.ltb_ge; lia).
  replace (2 + n + 2 <? 2 + n + 2) with false
    by (symmetry; apply Z.ltb_ge; lia).
  rewrite (slice_at L d (C ++ []) 2 (2 + n)) by lia.
  rewrite (app_assoc L d (C ++ [])).
  rewrite (slice_at (L ++ d) C [] (2 + n) (2 + n + 2))
    by (rewrite len_app; lia).
  rewrite HC. cbn [rbind].
  replace (_checksum (a ++ x :: b) =? _checksum d) with false; [reflexivity|].
  symmetry. apply Z.eqb_neq. apply _checksum_one_byte. exact Hxy.
Qed.

Lemma zfill2_check :
  forallb
    (fun k =>
       let n := Z.of_nat k in
       match int_of_bytes 16 (zfill2 (str_of_int n)) with
       | Ok v =>
           (v =? n + 6 * (n / 10))
           && (len (zfill2 (str_of_int n)) =? 2)
           && (if n <? 10
               then bytes_eqb (zfill2 (str_of_int n)) (format_02X n)
               else true)
       | Err _ => false
       end) (seq 0 100) = true.
Proof. vm_compute. reflexivity. Qed.

Lemma zfill2_two_digits (n : Z) :
  0 <= n < 100 ->
  int_of_bytes 16 (zfill2 (str_of_int n)) = Ok (n + 6 * (n / 10))
  /\ len (zfill2 (str_of_int n)) = 2
  /\ (n < 10 -> zfill2 (str_of_int n) = format_02X n).
Proof.
  intro Hn. pose proof zfill2_check as H.
  rewrite forallb_forall in H. specialize (H (Z.to_nat n)).
  cbv zeta in H. rewrite Z2Nat.id in H by lia.
  assert (Hin : In (Z.to_nat n) (seq 0 100)) by (apply in_seq; lia).
  specialize (H Hin).
  destruct (int_of_bytes 16 (zfill2 (str_of_int n))) as [v|e]; [|discriminate].
  apply andb_prop in H. destruct H as [H H3].
  apply andb_prop in H. destruct H as [H1 H2].
  apply Z.eqb_eq in H1, H2. subst v. repeat split; auto.
  intro Hlt. destruct (n <? 10) eqn:E; [|apply Z.ltb_ge in E; lia].
  apply bytes_eqb_eq. exact H3.
Qed.

(** X7.  [_send_packet] writes the length in decimal, [_receive_packet]
    reads it in hex.  Take a packet that [_send_packet] builds, with data
    of fewer than 100 bytes, and the buffer a receiver of this driver
    would hold for it (the packet without its two markers): the checks of
    [_receive_packet] pass when the data have fewer than 10 bytes, and
    fail for 10 to 99 bytes, where the decimal digits read as hex give a
    length beyond the end of the buffer. *)
Theorem sender_length_is_decimal (f : bytes) (fields : list bytes) :
  len (FIELD_SEPARATOR ++ join FIELD_SEPARATOR (f :: fields)
       ++ FIELD_SEPARATOR) < 100 ->
  parse_packet (removelast (tl (build_packet (f :: fields))))
  = if len (FIELD_SEPARATOR ++ join FIELD_SEPARATOR (f :: fields)
            ++ FIELD_SEPARATOR) <? 10
    then Ok (FIELD_SEPARATOR ++ join FIELD_SEPARATOR (f :: fields)
             ++ FIELD_SEPARATOR)
    else Err ParseError.
Proof.
  set (data := FIELD_SEPARATOR ++ join FIELD_SEPARATOR (f :: fields)
               ++ FIELD_SEPARATOR).
  intro Hlen. pose proof (len_nonneg data) as Hpos.
  assert (Hb : removelast (tl (build_packet (f :: fields)))
               = zfill2 (str_of_int (len data)) ++ data
                 ++ format_02X (_checksum data)).
  { unfold build_packet. fold data. unfold STX, EOT. cbn [app tl].
    rewrite !app_assoc. apply removelast_last. }
  rewrite Hb.
  destruct (zfill2_two_digits (len data)) as (HL & HlenL & Hsame); [lia|].
  destruct (len data <? 10) eqn:E.
  - apply Z.ltb_lt in E. rewrite (Hsame E).
    pose proof (parse_packet_body data []) as H.
    unfold body in H. rewrite app_nil_r in H. apply H. lia.
  - apply Z.ltb_ge in E.
    set (L := zfill2 (str_of_int (len data))) in *.
    set (C := format_02X (_checksum data)).
    assert (HlenC : len C = 2) by apply format_02X_checksum.
    unfold parse_packet.
    assert (Hp : len (L ++ data ++ C) = 2 + len data + 2).
    { rewrite !len_app. lia. }
    rewrite Hp.
    replace (2 + len data + 2 <? 2) with false
      by (symmetry; apply Z.ltb_ge; lia).
    rewrite (slice_head L (data ++ C) 2) by lia.
    rewrite HL. cbn [rbind].
    assert (Hq : 1 <= len data / 10)
      by (apply Z.div_le_lower_bound; lia).
    replace (2 + len data + 2 <? 2 + (len data + 6 * (len data / 10)))
      with true by (symmetry; apply Z.ltb_lt; lia).
    reflexivity.
Qed.

End Packets.

Lemma parse_packet_accepts_witness :
  parse_packet (U := unicode_14) (body [x09; x41; x09] ++ [x00])
  = Ok [x09; x41; x09].
Proof.
  apply (parse_packet_accepts (U := unicode_14) [x09; x41; x09] [x00]).
  reflexivity.
Defined.

Lemma parse_packet_refuses_changed_byte_witness :
  parse_packet (U := unicode_14)
    (format_02X (len ([x09] ++ x41 :: [x09])) ++ ([x09] ++ x42 :: [x09])
     ++ format_02X (_checksum ([x09] ++ x41 :: [x09])))
  = Err ParseError.
Proof.
  apply (parse_packet_refuses_changed_byte (U := unicode_14)
           [x09] [x09] x41 x42);
    [reflexivity | discriminate].
Defined.

Lemma sender_length_is_decimal_witness :
  parse_packet (U := unicode_14)
    (removelast (tl (build_packet [b_ "200101"])))
  = Ok ([x09] ++ b_ "200101" ++ [x09])
  /\ parse_packet (U := unicode_14)
       (removelast (tl (build_packet [b_ "20200101"])))
     = Err ParseError.
Proof.
  split.
  - apply (sender_length_is_decimal (U := unicode_14) (b_ "200101") []).
    reflexivity.
  - apply (sender_length_is_decimal (U := unicode_14) (b_ "20200101") []).
    reflexivity.
Defined.

(** ** Receiving a response *)

Section Reassembly.
Context {U : UnicodeData}.

Lemma for_loop_app (a b : bytes) :
  forall (st : locals) (w : world),
    for_loop st (a ++ b) w =
    match for_loop st a w with
    | (Ok (Next st'), w') => for_loop st' b w'
    | r => r
    end.
Proof.
  induction a as [|x a IH]; intros st w; [reflexivity|].
  cbn [app for_loop]. unfold bind.
  destruct (for_body st [x] w) as [[[st1|v]|e] w1]; auto.
Qed.

Lemma is_marker_false (b : byte) :
  is_marker b = false ->
  bytes_eqb [b] STX = false /\ bytes_eqb [b] ETX = false
  /\ bytes_eqb [b] EOT = false.
Proof.
  unfold is_marker, STX, ETX, EOT. rewrite !bytes_eqb_single.
  intro H. apply orb_false_elim in H. destruct H as [H H3].
  apply orb_false_elim in H. destruct H as [H1 H2]. auto.
Qed.

(** Inside a packet, bytes that are not markers go to the buffer. *)
Lemma for_loop_buffers (bs : bytes) :
  forall (st : locals) (w : world),
    in_packet st = true -> no_marker bs = true ->
    for_loop st bs w
    = (Ok (Next (mk_locals (packet st ++ bs) true (retries st) (_data st))),
       w).
Proof.
  induction bs as [|b bs IH]; intros st w Hin Hno.
  - cbn [for_loop]. rewrite app_nil_r. destruct st; cbn in *. subst.
    reflexivity.
  - cbn [no_marker forallb] in Hno. apply andb_prop in Hno.
    destruct Hno as [Hb Hbs]. apply negb_true_iff in Hb.
    destruct (is_marker_false b Hb) as (H2 & H3 & H4).
    cbn [for_loop]. unfold bind at 1. unfold for_body.
    rewrite H2, H3, H4, Hin. cbn [orb ret].
    rewrite IH by (cbn; auto). cbn [packet retries _data].
    rewrite <- app_assoc. reflexivity.
Qed.

Lemma sendable_body (data : bytes) :
  sendable data = true ->
  len data < 256 /\ no_marker (body data) = true.
Proof.
  unfold sendable. intro H. apply andb_prop in H. destruct H as [Hl Hn].
  apply Z.ltb_lt in Hl. split; [exact Hl|].
  pose proof (len_nonneg data).
  destruct (format_02X_byte (len data)) as (_ & _ & H1); [lia|].
  destruct (format_02X_byte (_checksum data)) as (_ & _ & H2).
  { apply _checksum_loop_range. lia. }
  unfold body, no_marker in *. rewrite !forallb_app, H1, Hn, H2. reflexivity.
Qed.

(** A packet that is not the last: acknowledged, its data appended, the
    buffer emptied. *)
Lemma for_loop_frame (data : bytes) (ip : bool) (r : nat) (d : list bytes)
    (w : world) :
  sendable data = true ->
  for_loop (mk_locals [] ip r d) (frame false data) w
  = (Ok (Next (mk_locals [] false r (d ++ [strip SEP data]))),
     mk_world (rx w) (tx w ++ ACK) (log w)).
Proof.
  intro Hs. destruct (sendable_body data Hs) as [Hlen Hno].
  unfold frame. rewrite for_loop_app.
  change (for_loop (mk_locals [] ip r d) STX w)
    with (Ok (Next (mk_locals [] true r d)), w).
  cbv iota. rewrite for_loop_app.
  rewrite for_loop_buffers by (exact Hno || reflexivity).
  cbv iota. cbn [packet retries _data app].
  unfold ETX. cbn [for_loop]. unfold bind at 1. unfold for_body.
  change (bytes_eqb [x03] STX) with false.
  change (bytes_eqb [x03] ETX) with true.
  change (bytes_eqb [x03] EOT) with false.
  cbn [orb packet in_packet retries _data].
  pose proof (parse_packet_body data [] Hlen) as Hp.
  rewrite app_nil_r in Hp. rewrite Hp. reflexivity.
Qed.

(** The last packet, with the device's ACK waiting on the line: the call
    returns. *)
Lemma for_loop_last_frame (data : bytes) (ip : bool) (r : nat)
    (d : list bytes) (rest : list bytes) (t : bytes) (l : list exn) :
  sendable data = true ->
  for_loop (mk_locals [] ip r d) (frame true data)
    (mk_world (ACK :: rest) t l)
  = (Ok (Return (Some (d ++ [strip SEP data]))),
     mk_world rest (t ++ ACK) l).
Proof.
  intro Hs. destruct (sendable_body data Hs) as [Hlen Hno].
  unfold frame. rewrite for_loop_app.
  change (for_loop (mk_locals [] ip r d) STX (mk_world (ACK :: rest) t l))
    with (Ok (Next (mk_locals [] true r d)), mk_world (ACK :: rest) t l).
  cbv iota. rewrite for_loop_app.
  rewrite for_loop_buffers by (exact Hno || reflexivity).
  cbv iota. cbn [packet retries _data app].
  unfold EOT. cbn [for_loop]. unfold bind at 1. unfold for_body.
  change (bytes_eqb [x04] STX) with false.
  change (bytes_eqb [x04] ETX) with false.
  change (bytes_eqb [x04] EOT) with true.
  cbn [orb packet in_packet retries _data].
  pose proof (parse_packet_body data [] Hlen) as Hp.
  rewrite app_nil_r in Hp. rewrite Hp. reflexivity.
Qed.

Lemma frame_cons (final : bool) (data : bytes) :
  frame final data = x02 :: (body data ++ (if final then EOT else ETX)).
Proof. reflexivity. Qed.

Lemma while_true_frames (blocks : list bytes) :
  blocks <> [] -> forallb sendable blocks = true ->
  forall (fuel : nat) (ip : bool) (r : nat) (d : list bytes)
         (rest : list bytes) (t : bytes) (l : list exn),
    (List.length blocks <= fuel)%nat ->
    while_true fuel (mk_locals [] ip r d)
      (mk_world (frames blocks ++ ACK :: rest) t l)
    = Some (Ok (Some (d ++ map (strip SEP) blocks)),
            mk_world rest (t ++ repeat x06 (List.length blocks)) l).
Proof.
  induction blocks as [|data blocks IH]; intros Hne Hall; [congruence|].
  cbn [forallb] in Hall. apply andb_prop in Hall. destruct Hall as [Hs Hall].
  intros fuel ip r d rest t l Hfuel.
  destruct fuel as [|fuel]; [cbn in Hfuel; lia|].
  destruct blocks as [|data2 blocks].
  - cbn [frames app]. rewrite frame_cons, while_true_S. cbn [rx tx log].
    rewrite <- (frame_cons true).
    rewrite for_loop_last_frame by exact Hs. reflexivity.
  - change (frames (data :: data2 :: blocks))
      with (frame false data :: frames (data2 :: blocks)).
    cbn [app]. rewrite frame_cons, while_true_S. cbn [rx tx log].
    rewrite <- (frame_cons false).
    rewrite for_loop_frame by exact Hs. cbn [rx tx log].
    rewrite IH; [|discriminate|exact Hall|cbn in *; lia].
    cbn [map List.length repeat]. rewrite <- !app_assoc. reflexivity.
Qed.

Lemma frames_length (blocks : list bytes) :
  List.length (frames blocks) = List.length blocks.
Proof.
  induction blocks as [|d [|d2 blocks] IH]; cbn [frames List.length] in *;
    auto.
Qed.

(** A response of well-formed packets is returned block by block. *)
Lemma receive_frames (blocks : list bytes)
    (rest : list bytes) (t : bytes) (l : list exn) :
  blocks <> [] -> forallb sendable blocks = true ->
  _receive_packet (mk_world (frames blocks ++ ACK :: rest) t l)
  = (Ok (Some (map (strip SEP) blocks)),
     mk_world rest (t ++ repeat x06 (List.length blocks)) l).
Proof.
  intros Hne Hall. unfold _receive_packet. cbn [rx].
  rewrite (while_true_frames blocks Hne Hall).
  - reflexivity.
  - rewrite length_app, frames_length. lia.
Qed.

(** X8.  A response of one or more well-formed packets, each arriving as
    a burst, with ETX after every packet but the last and EOT and the
    device's ACK after the last: [_receive_packet] returns the data of
    the packets in the order of arrival, each without its leading and
    trailing separators, and has written one ACK per packet and nothing
    else. *)
Theorem receive_packet_reassembles (blocks : list bytes)
    (rest : list bytes) (t : bytes) (l : list exn) :
  blocks <> [] -> forallb sendable blocks = true ->
  _receive_packet (mk_world (frames blocks ++ ACK :: rest) t l)
  = (Ok (Some (map (strip SEP) blocks)),
     mk_world rest (t ++ repeat x06 (List.length blocks)) l).
Proof. exact (receive_frames blocks rest t l). Qed.

(** The last packet with nothing on the line after it: the read of the
    closing ACK times out and the accepted packet is treated as failed. *)
Lemma for_loop_last_frame_unanswered (data : bytes) (ip : bool) (r : nat)
    (d : list bytes) (t : bytes) (l : list exn) :
  sendable data = true ->
  for_loop (mk_locals [] ip (S r) d) (frame true data) (mk_world [] t l)
  = (Ok (Next (mk_locals (body data) true r (d ++ [strip SEP data]))),
     mk_world [] (t ++ ACK ++ NAK) (l ++ [TypeError])).
Proof.
  intro Hs. destruct (sendable_body data Hs) as [Hlen Hno].
  unfold frame. rewrite for_loop_app.
  change (for_loop (mk_locals [] ip (S r) d) STX (mk_world [] t l))
    with (Ok (Next (mk_locals [] true (S r) d)), mk_world [] t l).
  cbv iota. rewrite for_loop_app.
  rewrite for_loop_buffers by (exact Hno || reflexivity).
  cbv iota. cbn [packet retries _data app].
  unfold EOT. cbn [for_loop]. unfold bind at 1. unfold for_body.
  change (bytes_eqb [x04] STX) with false.
  change (bytes_eqb [x04] ETX) with false.
  change (bytes_eqb [x04] EOT) with true.
  cbn [orb packet in_packet retries _data].
  pose proof (parse_packet_body data [] Hlen) as Hp.
  rewrite app_nil_r in Hp. rewrite Hp.
  unfold bind, _send, write, _receive, read. cbn [rx tx log].
  change (bytes_eqb [] ACK) with false. cbn [negb].
  rewrite except_cases. cbn [retries packet in_packet _data rx tx log ret].
  rewrite <- app_assoc. reflexivity.
Qed.

(** X9.  The same last packet with the device's ACK in the same burst,
    and nothing after it: the ACK was already taken off the line with
    the packet, the read of the closing ACK times out, the accepted
    packet is answered with ACK and then NAK, and the call ends in
    [TimeoutError] instead of returning the data. *)
Theorem final_ack_in_same_burst (data : bytes) (t : bytes) (l : list exn) :
  sendable data = true ->
  _receive_packet (mk_world [frame true data ++ ACK] t l)
  = (Err TimeoutError, mk_world [] (t ++ ACK ++ NAK) (l ++ [TypeError])).
Proof.
  intro Hs.
  unfold _receive_packet. cbn [rx List.length].
  rewrite frame_cons. cbn [app]. rewrite while_true_S. cbn [rx tx log].
  change (x02 :: (body data ++ EOT) ++ ACK) with (frame true data ++ ACK).
  rewrite for_loop_app. unfold _retries.
  rewrite for_loop_last_frame_unanswered by exact Hs.
  cbv iota. rewrite for_loop_buffers by reflexivity.
  rewrite while_true_S. reflexivity.
Qed.

(** X10.  A first byte that is not a marker ends the call: the warning
    about the byte outside a packet fails with [TypeError], nothing is
    written or logged, and the rest of the burst is lost. *)
Theorem stray_byte_ends_call (b : byte) (bs : bytes) (rest : list bytes)
    (t : bytes) (l : list exn) :
  is_marker b = false ->
  _receive_packet (mk_world ((b :: bs) :: rest) t l)
  = (Err TypeError, mk_world rest t l).
Proof.
  intro Hb. destruct (is_marker_false b Hb) as (H2 & H3 & H4).
  unfold _receive_packet. cbn [rx List.length].
  rewrite while_true_S. cbn [rx tx log for_loop].
  unfold bind at 1. unfold for_body.
  rewrite H2, H3, H4. reflexivity.
Qed.

End Reassembly.

Lemma receive_packet_reassembles_witness :
  _receive_packet (U := unicode_14)
    (mk_world (frames [[x09; x41; x09]; [x42]] ++ ACK :: []) [] [])
  = (Ok (Some [[x41]; [x42]]), mk_world [] [x06; x06] []).
Proof.
  apply (receive_packet_reassembles (U := unicode_14)
           [[x09; x41; x09]; [x42]] [] [] []);
    [discriminate | reflexivity].
Defined.

Lemma final_ack_in_same_burst_witness :
  _receive_packet (U := unicode_14)
    (mk_world [frame true [x09; x41; x09] ++ ACK] [] [])
  = (Err TimeoutError, mk_world [] [x06; x15] [TypeError]).
Proof.
  apply (final_ack_in_same_burst (U := unicode_14) [x09; x41; x09] [] []).
  reflexivity.
Defined.

Lemma stray_byte_ends_call_witness :
  _receive_packet (U := unicode_14) (mk_world [[x41; x02]] [] [])
  = (Err TypeError, mk_world [] [] []).
Proof.
  apply (stray_byte_ends_call (U := unicode_14) x41 [x02] [] [] []).
  reflexivity.
Defined.

(** ** What the receiver writes and returns *)

Section ReceiverInvariants.
Context {U : UnicodeData}.

Lemma for_body_writes (st : locals) (b : byte) (w : world)
    (c : result control) (w' : world) :
  for_body st [b] w = (c, w') ->
  exists sent,
    tx w' = tx w ++ sent /\
    Forall (fun x => x = x06 \/ x = x15) sent /\
    match c with
    | Ok (Next st') =>
        (count_occ Byte.byte_eq_dec sent x15 + retries st' = retries st)%nat
        /\ List.length (_data st')
           = (List.length (_data st)
              + count_occ Byte.byte_eq_dec sent x06)%nat
    | Ok (Return (Some blocks)) =>
        count_occ Byte.byte_eq_dec sent x15 = 0%nat
        /\ List.length blocks
           = (List.length (_data st)
              + count_occ Byte.byte_eq_dec sent x06)%nat
    | Ok (Return None) => count_occ Byte.byte_eq_dec sent x15 = 0%nat
    | Err _ => sent = []
    end.
Proof.
  intro E. unfold for_body in E.
  assert (HA : Forall (fun x => x = x06 \/ x = x15) ACK)
    by (repeat constructor; auto).
  assert (HN : Forall (fun x => x = x06 \/ x = x15) NAK)
    by (repeat constructor; auto).
  destruct (bytes_eqb [b] STX).
  { injection E as <- <-. exists []. rewrite app_nil_r. cbn.
    repeat split; auto. }
  destruct (bytes_eqb [b] ETX || bytes_eqb [b] EOT).
  - destruct (parse_packet (packet st)) as [data|ex].
    + unfold bind at 1, _send at 1, write in E.
      destruct (bytes_eqb [b] EOT).
      * unfold bind at 1 in E.
        destruct (_receive 1 _) as [[byte'|e] w1] eqn:Er.
        2:{ unfold _receive, read in Er. cbn [rx tx log] in Er.
            destruct (rx w); discriminate. }
        assert (Hw1 : tx w1 = tx w ++ ACK).
        { unfold _receive, read in Er. cbn [rx tx log] in Er.
          destruct (rx w); injection Er as _ <-; reflexivity. }
        destruct (negb (bytes_eqb byte' ACK)).
        -- rewrite except_cases in E. cbn [retries packet in_packet _data] in E.
           destruct (retries st) as [|r] eqn:Hr; injection E as <- <-;
             cbn [tx]; rewrite Hw1.
           ++ exists ACK. repeat split; auto.
           ++ exists (ACK ++ NAK). rewrite <- app_assoc.
              cbn [retries _data]. rewrite length_app.
              split; [reflexivity|]. split; [apply Forall_app; auto|].
              split; reflexivity.
        -- injection E as <- <-. exists ACK. cbn [_data].
           rewrite length_app. repeat split; auto.
      * injection E as <- <-. exists ACK. cbn [tx retries _data].
        rewrite length_app. repeat split; auto.
    + rewrite except_cases in E.
      destruct (retries st) as [|r] eqn:Hr; injection E as <- <-; cbn [tx].
      * exists []. rewrite app_nil_r. repeat split; auto.
      * exists NAK. cbn [retries _data]. repeat split; auto; cbn; lia.
  - destruct (in_packet st).
    + injection E as <- <-. exists []. rewrite app_nil_r. cbn.
      repeat split; auto.
    + injection E as <- <-. exists []. rewrite app_nil_r. cbn. auto.
Qed.

Lemma for_loop_writes (received : bytes) :
  forall (st : locals) (w : world) (c : result control) (w' : world),
    for_loop st received w = (c, w') ->
    exists sent,
      tx w' = tx w ++ sent /\
      Forall (fun x => x = x06 \/ x = x15) sent /\
      (count_occ Byte.byte_eq_dec sent x15 <= retries st)%nat /\
      match c with
      | Ok (Next st') =>
          (count_occ Byte.byte_eq_dec sent x15 + retries st' = retries st)%nat
          /\ List.length (_data st')
             = (List.length (_data st)
                + count_occ Byte.byte_eq_dec sent x06)%nat
      | Ok (Return (Some blocks)) =>
          List.length blocks
          = (List.length (_data st)
             + count_occ Byte.byte_eq_dec sent x06)%nat
      | _ => True
      end.
Proof.
  induction received as [|b rest IH]; intros st w c w' E.
  - injection E as <- <-. exists []. rewrite app_nil_r. cbn.
    repeat split; auto; lia.
  - cbn [for_loop] in E. unfold bind at 1 in E.
    destruct (for_body st [b] w) as [c1 w1] eqn:E1.
    destruct (for_body_writes _ _ _ _ _ E1) as (s1 & Htx1 & Hf1 & Hc1).
    destruct c1 as [[st1|v]|e].
    + destruct Hc1 as [Hr1 Hd1].
      destruct (IH _ _ _ _ E) as (s2 & Htx2 & Hf2 & Hle2 & Hc2).
      exists (s1 ++ s2). rewrite Htx2, Htx1, <- app_assoc.
      rewrite !count_occ_app.
      split; [reflexivity|]. split; [apply Forall_app; auto|].
      split; [lia|].
      destruct c as [[st2|[blocks|]]|e2]; auto.
      * destruct Hc2 as [Hr2 Hd2]. split; lia.
      * lia.
    + injection E as <- <-. exists s1.
      split; [exact Htx1|]. split; [exact Hf1|].
      destruct v as [blocks|].
      * destruct Hc1 as [H15 Hb]. split; [lia | exact Hb].
      * split; [lia | exact I].
    + injection E as <- <-. exists s1. subst s1.
      split; [exact Htx1|]. split; [exact Hf1|]. cbn. split; [lia | exact I].
Qed.

Lemma while_true_writes (fuel : nat) :
  forall (st : locals) (w : world) (res : result (option (list bytes)))
         (w' : world),
    while_true fuel st w = Some (res, w') ->
    exists sent,
      tx w' = tx w ++ sent /\
      Forall (fun x => x = x06 \/ x = x15) sent /\
      (count_occ Byte.byte_eq_dec sent x15 <= retries st)%nat /\
      (forall blocks,
          res = Ok (Some blocks) ->
          List.length blocks
          = (List.length (_data st)
             + count_occ Byte.byte_eq_dec sent x06)%nat).
Proof.
  induction fuel as [|fuel IH]; intros st w res w' E; [discriminate|].
  rewrite while_true_S in E.
  destruct (rx w) as [|[|b bs] rest] eqn:Erx.
  - injection E as <- <-. exists []. rewrite app_nil_r. cbn.
    repeat split; auto; try lia. discriminate.
  - injection E as <- <-. exists []. cbn [tx]. rewrite app_nil_r. cbn.
    repeat split; auto; try lia. discriminate.
  - destruct (for_loop st (b :: bs) (mk_world rest (tx w) (log w)))
      as [c w1] eqn:E1.
    destruct (for_loop_writes _ _ _ _ _ E1) as (s1 & Htx1 & Hf1 & Hle1 & Hc1).
    cbn [tx] in Htx1.
    destruct c as [[st1|v]|e].
    + destruct Hc1 as [Hr1 Hd1].
      destruct (IH _ _ _ _ E) as (s2 & Htx2 & Hf2 & Hle2 & Hb2).
      exists (s1 ++ s2). rewrite Htx2, Htx1, <- app_assoc.
      rewrite !count_occ_app.
      split; [reflexivity|]. split; [apply Forall_app; auto|].
      split; [lia|]. intros blocks Hres. rewrite (Hb2 blocks Hres). lia.
    + injection E as <- <-. exists s1.
      split; [exact Htx1|]. split; [exact Hf1|]. split; [exact Hle1|].
      intros blocks Hres. injection Hres as ->. exact Hc1.
    + injection E as <- <-. exists s1.
      split; [exact Htx1|]. split; [exact Hf1|]. split; [exact Hle1|].
      discriminate.
Qed.

(** X11.  In every call, however it ends, [_receive_packet] writes
    nothing but ACK and NAK bytes, and at most five NAKs; when it returns
    blocks, it has written exactly one ACK for each block returned. *)
Theorem receive_packet_writes (w : world) :
  exists sent,
    tx (snd (_receive_packet w)) = tx w ++ sent
    /\ Forall (fun x => x = x06 \/ x = x15) sent
    /\ (count_occ Byte.byte_eq_dec sent x15 <= 5)%nat
    /\ (forall blocks,
           fst (_receive_packet w) = Ok (Some blocks) ->
           List.length blocks = count_occ Byte.byte_eq_dec sent x06).
Proof.
  unfold _receive_packet.
  destruct (while_true_cases (S (List.length (rx w)))
              (mk_locals [] false _retries []) w (Nat.lt_succ_diag_r _))
    as (res & w' & _ & _ & E & _).
  rewrite E.
  destruct (while_true_writes _ _ _ _ _ E) as (sent & Htx & Hf & Hle & Hb).
  exists sent. cbn [fst snd retries _data List.length] in *.
  repeat split; auto.
Qed.

Lemma lstrip_head (c : byte) (data : bytes) :
  hd_error (lstrip c data) <> Some c.
Proof.
  induction data as [|x data IH]; cbn [lstrip]; [discriminate|].
  destruct (Byte.eqb x c) eqn:E; [exact IH|].
  cbn. intro H. injection H as ->.
  apply Byte.eqb_false in E. congruence.
Qed.

Lemma lstrip_suffix (c : byte) (data : bytes) :
  exists pre, data = pre ++ lstrip c data.
Proof.
  induction data as [|x data [pre IH]]; cbn [lstrip].
  - exists []. reflexivity.
  - destruct (Byte.eqb x c).
    + exists (x :: pre). cbn. congruence.
    + exists []. reflexivity.
Qed.

(** What [strip] returns neither begins nor ends with the separator. *)
Lemma strip_stripped (c : byte) (data : bytes) :
  hd_error (strip c data) <> Some c
  /\ hd_error (rev (strip c data)) <> Some c.
Proof.
  unfold strip, rstrip. split.
  - destruct (lstrip_suffix c (rev (lstrip c data))) as [pre Hpre].
    apply (f_equal (@rev byte)) in Hpre.
    rewrite rev_involutive, rev_app_distr in Hpre.
    destruct (rev (lstrip c (rev (lstrip c data)))) as [|y ys] eqn:E;
      [discriminate|].
    cbn. intro H. injection H as ->.
    pose proof (lstrip_head c data) as Hh. rewrite Hpre in Hh.
    cbn in Hh. congruence.
  - rewrite rev_involutive. apply lstrip_head.
Qed.

Lemma for_body_stripped (st : locals) (b : byte) (w w' : world)
    (c : result control) :
  Forall (fun blk => hd_error blk <> Some SEP
                     /\ hd_error (rev blk) <> Some SEP) (_data st) ->
  for_body st [b] w = (c, w') ->
  match c with
  | Ok (Next st') =>
      Forall (fun blk => hd_error blk <> Some SEP
                         /\ hd_error (rev blk) <> Some SEP) (_data st')
  | Ok (Return (Some blocks)) =>
      Forall (fun blk => hd_error blk <> Some SEP
                         /\ hd_error (rev blk) <> Some SEP) blocks
  | _ => True
  end.
Proof.
  intros Hinv E. unfold for_body in E.
  destruct (bytes_eqb [b] STX); [injection E as <- <-; exact Hinv|].
  destruct (bytes_eqb [b] ETX || bytes_eqb [b] EOT).
  - destruct (parse_packet (packet st)) as [data|ex].
    + assert (Hnew : Forall (fun blk => hd_error blk <> Some SEP
                              /\ hd_error (rev blk) <> Some SEP)
                       (_data st ++ [strip SEP data])).
      { apply Forall_app. split; [exact Hinv|].
        constructor; [apply strip_stripped | constructor]. }
      unfold bind at 1, _send at 1, write in E.
      destruct (bytes_eqb [b] EOT).
      * unfold bind at 1 in E.
        destruct (_receive 1 _) as [[byte'|e] w1];
          [|injection E as <- <-; exact I].
        destruct (negb (bytes_eqb byte' ACK)).
        -- rewrite except_cases in E. cbn [retries _data] in E.
           destruct (retries st); injection E as <- <-; [exact I|exact Hnew].
        -- injection E as <- <-. exact Hnew.
      * injection E as <- <-. exact Hnew.
    + rewrite except_cases in E.
      destruct (retries st); injection E as <- <-; [exact I|exact Hinv].
  - destruct (in_packet st); injection E as <- <-; [exact Hinv | exact I].
Qed.

Lemma for_loop_stripped (received : bytes) :
  forall (st : locals) (w w' : world) (c : result control),
    Forall (fun blk => hd_error blk <> Some SEP
                       /\ hd_error (rev blk) <> Some SEP) (_data st) ->
    for_loop st received w = (c, w') ->
    match c with
    | Ok (Next st') =>
        Forall (fun blk => hd_error blk <> Some SEP
                           /\ hd_error (rev blk) <> Some SEP) (_data st')
    | Ok (Return (Some blocks)) =>
        Forall (fun blk => hd_error blk <> Some SEP
                           /\ hd_error (rev blk) <> Some SEP) blocks
    | _ => True
    end.
Proof.
  induction received as [|b rest IH]; intros st w w' c Hinv E.
  - injection E as <- <-. exact Hinv.
  - cbn [for_loop] in E. unfold bind at 1 in E.
    destruct (for_body st [b] w) as [c1 w1] eqn:E1.
    pose proof (for_body_stripped _ _ _ _ _ Hinv E1) as H1.
    destruct c1 as [[st1|v]|e].
    + eapply IH; eauto.
    + injection E as <- <-. exact H1.
    + injection E as <- <-. exact I.
Qed.

Lemma while_true_stripped (fuel : nat) :
  forall (st : locals) (w w' : world) (blocks : list bytes),
    Forall (fun blk => hd_error blk <> Some SEP
                       /\ hd_error (rev blk) <> Some SEP) (_data st) ->
    while_true fuel st w = Some (Ok (Some blocks), w') ->
    Forall (fun blk => hd_error blk <> Some SEP
                       /\ hd_error (rev blk) <> Some SEP) blocks.
Proof.
  induction fuel as [|fuel IH]; intros st w w' blocks Hinv E; [discriminate|].
  rewrite while_true_S in E.
  destruct (rx w) as [|[|b bs] rest]; try discriminate.
  destruct (for_loop st (b :: bs) _) as [c w1] eqn:E1.
  pose proof (for_loop_stripped _ _ _ _ _ Hinv E1) as H1.
  destruct c as [[st1|v]|e].
  - eapply IH; eauto.
  - injection E as -> <-. exact H1.
  - discriminate.
Qed.

(** X12.  Every block that [_receive_packet] returns is stripped: it
    neither begins nor ends with the field separator. *)
Theorem receive_packet_blocks_stripped (w w' : world)
    (blocks : list bytes) :
  _receive_packet w = (Ok (Some blocks), w') ->
  Forall (fun blk => hd_error blk <> Some SEP
                     /\ hd_error (rev blk) <> Some SEP) blocks.
Proof.
  unfold _receive_packet. intro E.
  destruct (while_true _ _ w) as [[r w1]|] eqn:E1; [|discriminate].
  injection E as -> ->.
  eapply while_true_stripped; [|exact E1]. constructor.
Qed.

End ReceiverInvariants.

Lemma receive_packet_blocks_stripped_witness :
  Forall (fun blk => hd_error blk <> Some SEP
                     /\ hd_error (rev blk) <> Some SEP) [[x41]].
Proof.
  apply (receive_packet_blocks_stripped (U := unicode_14)
           (mk_world [frame true [x09; x09; x41; x09]; ACK] [] [])
           (mk_world [] [x06] [])).
  reflexivity.
Defined.


(** ** The handshake and the packet sender *)

Lemma echo_loop_any_echo (stream : bytes) :
  forall (echoes : bytes) (rest : list bytes) (t : bytes) (l : list exn),
    List.length echoes = List.length stream ->
    echo_loop stream (mk_world (map (fun x => [x]) echoes ++ rest) t l)
    = (Ok tt, mk_world rest (t ++ stream) l).
Proof.
  induction stream as [|x stream IH]; intros echoes rest t l Hlen.
  - destruct echoes; [|discriminate]. cbn. rewrite app_nil_r. reflexivity.
  - destruct echoes as [|e echoes]; [discriminate|].
    cbn [echo_loop map app]. unfold bind at 1. unfold _send, write.
    simpl. unfold bind at 1. unfold _receive, read. simpl.
    rewrite IH by (cbn in Hlen; lia).
    rewrite <- app_assoc. reflexivity.
Qed.

(** The handshake by the answer to the carriage return, for any echoes. *)
Lemma send_command_any_echo (cmd : bytes) (fields : list bytes)
    (echoes : bytes) (b : byte) (rest : list bytes) (t : bytes)
    (l : list exn) :
  List.length echoes = List.length (join FIELD_SEPARATOR (cmd :: fields)) ->
  _send_command cmd fields
    (mk_world (map (fun x => [x]) echoes ++ [b] :: rest) t l)
  = (if Byte.eqb b x06 then Ok true
     else if Byte.eqb b x15 then Ok false
     else Err TypeError,
     mk_world rest (t ++ join FIELD_SEPARATOR (cmd :: fields) ++ CR) l).
Proof.
  intro Hlen. unfold _send_command.
  unfold bind at 1. rewrite echo_loop_any_echo by exact Hlen.
  unfold bind at 1. unfold _send, write. cbn [rx tx log].
  unfold bind at 1. unfold _receive, read. cbn [rx tx log].
  change (Z.to_nat (len CR)) with 1%nat. cbn [firstn skipn].
  unfold bind, is_ack_or_nak, ACK, NAK.
  rewrite !bytes_eqb_single, <- app_assoc.
  destruct (Byte.eqb b x06) eqn:E6.
  - reflexivity.
  - destruct (Byte.eqb b x15); reflexivity.
Qed.

(** X13.  The echo is read and not looked at.  Whatever bytes the device
    sends back as echoes, one per byte of the command, the handshake ends
    by the byte [b] that answers the carriage return alone: true for ACK,
    false for NAK, [TypeError] for anything else; and it has written the
    command stream and the carriage return. *)
Theorem send_command_ignores_echo (cmd : bytes) (fields : list bytes)
    (echoes : bytes) (b : byte) (rest : list bytes) (t : bytes)
    (l : list exn) :
  List.length echoes = List.length (join FIELD_SEPARATOR (cmd :: fields)) ->
  _send_command cmd fields
    (mk_world (map (fun x => [x]) echoes ++ [b] :: rest) t l)
  = (if Byte.eqb b x06 then Ok true
     else if Byte.eqb b x15 then Ok false
     else Err TypeError,
     mk_world rest (t ++ join FIELD_SEPARATOR (cmd :: fields) ++ CR) l).
Proof. exact (send_command_any_echo cmd fields echoes b rest t l). Qed.

Lemma send_command_ignores_echo_witness :
  _send_command GET_READING_COUNT []
    (mk_world (map (fun x => [x]) [x00] ++ [x06] :: []) [] [])
  = (Ok true, mk_world [] [x60; x0d] []).
Proof.
  apply (send_command_ignores_echo GET_READING_COUNT [] [x00] x06 [] [] []).
  reflexivity.
Defined.




Lemma send_loop_no_fields (r : nat) :
  forall (w : world),
  exists sent,
    tx (snd (send_loop r [] w)) = tx w ++ sent
    /\ Forall (fun x => x = x06) sent
    /\ (List.length sent <= r)%nat.
Proof.
  induction r as [|r IH]; intro w.
  - exists []. cbn. rewrite app_nil_r. auto.
  - cbn [send_loop]. unfold bind at 1. cbn [ret].
    unfold bind at 1.
    destruct (_receive 1 w) as [[received|e] w1] eqn:Er.
    2:{ unfold _receive, read in Er. destruct (rx w); discriminate. }
    assert (Hw1 : tx w1 = tx w).
    { unfold _receive, read in Er.
      destruct (rx w); injection Er as _ <-; auto. }
    destruct (bytes_eqb received NAK).
    + destruct (IH w1) as (sent & Htx & Hf & Hl).
      exists sent. rewrite Htx, Hw1. auto.
    + destruct (bytes_eqb received ACK).
      * unfold bind at 1, _send at 1, write.
        destruct (IH (mk_world (rx w1) (tx w1 ++ ACK) (log w1)))
          as (sent & Htx & Hf & Hl).
        exists (ACK ++ sent). rewrite Htx. cbn [tx]. rewrite Hw1, <- app_assoc.
        split; [reflexivity|]. split.
        -- apply Forall_app. split; [repeat constructor | exact Hf].
        -- cbn. lia.
      * exists []. cbn. rewrite Hw1, app_nil_r.
        repeat split; [constructor | lia].
Qed.

(** X15.  Called without fields, as [clear_readings] does, [_send_packet]
    never writes a packet: however the call ends, all it has written is
    ACK bytes, five at most, one for each ACK it read. *)
Theorem send_packet_without_fields (w : world) :
  exists sent,
    tx (snd (_send_packet [] w)) = tx w ++ sent
    /\ Forall (fun x => x = x06) sent
    /\ (List.length sent <= 5)%nat.
Proof.
  destruct (send_loop_no_fields _retries w) as (sent & Htx & Hf & Hl).
  exists sent. split; [|auto].
  unfold _send_packet. cbn [build_packet]. unfold bind at 1.
  destruct (send_loop _retries [] w) as [[[]|e] w1]; cbn [snd] in *;
    [|exact Htx].
  unfold bind at 1.
  destruct (_receive 1 w1) as [[received|e] w2] eqn:Er.
  2:{ unfold _receive, read in Er. destruct (rx w1); discriminate. }
  assert (Hw2 : tx w2 = tx w1).
  { unfold _receive, read in Er.
    destruct (rx w1); injection Er as _ <-; auto. }
  unfold bind, warning_0x02X, raise, ret.
  destruct (negb (is_ack_or_nak received)); cbn [snd];
    rewrite Hw2; exact Htx.
Qed.

(** ** Methods refused by the device *)

Section Refused.
Context {U : UnicodeData}.

(** X16.  When the device answers the command of a reading method with
    NAK, the method returns [None]: [_receive_packet] is not called,
    and nothing is read or written after the handshake. *)
Theorem read_method_refused (m : read_method) (w w1 : world) :
  request m w = (Ok false, w1) ->
  match m with
  | Get_and_clear_status => get_and_clear_status w = (Ok None, w1)
  | Get_meter_name => get_meter_name w = (Ok None, w1)
  | Get_meter_number => get_meter_number w = (Ok None, w1)
  | Get_serial_number => get_serial_number w = (Ok None, w1)
  | Get_current_date => get_current_date w = (Ok None, w1)
  | Get_current_time => get_current_time w = (Ok None, w1)
  | Get_meter_units => get_meter_units w = (Ok None, w1)
  | Get_reading_count => get_reading_count w = (Ok None, w1)
  | Get_readings start end_ => get_readings start end_ w = (Ok None, w1)
  end.
Proof.
  intro Hreq.
  destruct m; cbn [request] in Hreq;
    [ unfold get_and_clear_status | unfold get_meter_name
    | unfold get_meter_number | unfold get_serial_number
    | unfold get_current_date | unfold get_current_time
    | unfold get_meter_units | unfold get_reading_count
    | unfold get_readings ];
    unfold bind at 1; rewrite Hreq; reflexivity.
Qed.

End Refused.

Lemma read_method_refused_witness :
  get_reading_count (U := unicode_14) (mk_world [[x60]; NAK; [x41]] [] [])
  = (Ok None, mk_world [[x41]] [x60; x0d] []).
Proof.
  apply (read_method_refused (U := unicode_14) Get_reading_count
           (mk_world [[x60]; NAK; [x41]] [] [])
           (mk_world [[x41]] [x60; x0d] [])).
  reflexivity.
Defined.

(** ** Fields of an entry *)

Lemma split_cons (c : byte) (a : bytes) :
  exists p ps, split c a = p :: ps.
Proof.
  destruct a as [|x a]; cbn [split]; [eauto|].
  destruct (Byte.eqb x c); [eauto|].
  destruct (split c a); eauto.
Qed.

Lemma split_app_sep (c : byte) (a b : bytes) :
  split c (a ++ c :: b) = split c a ++ split c b.
Proof.
  induction a as [|x a IH]; cbn [app split].
  - rewrite (Byte.byte_dec_lb (eq_refl c)). reflexivity.
  - destruct (Byte.eqb x c); rewrite IH.
    + reflexivity.
    + destruct (split_cons c a) as (p & ps & ->). reflexivity.
Qed.

Lemma split_length (c : byte) (data : bytes) :
  List.length (split c data) = S (count_occ Byte.byte_eq_dec data c).
Proof.
  induction data as [|x data IH]; [reflexivity|].
  cbn [split count_occ].
  destruct (Byte.eqb x c) eqn:E.
  - apply Byte.byte_dec_bl in E. subst x.
    destruct (Byte.byte_eq_dec c c); [|congruence].
    cbn. rewrite IH. reflexivity.
  - apply Byte.eqb_false in E.
    destruct (Byte.byte_eq_dec x c); [congruence|].
    destruct (split c data); cbn in *; lia.
Qed.

Lemma split_no_sep (c : byte) (f : bytes) :
  ~ In c f -> split c f = [f].
Proof.
  induction f as [|x f IH]; intro H; [reflexivity|].
  cbn [split]. rewrite byte_eqb_neq by (intro; subst; apply H; left; auto).
  rewrite IH by (intro; apply H; right; auto). reflexivity.
Qed.

(** X17.  Splitting undoes joining: fields that do not contain the
    separator, joined with it as [_send_command] and [_send_packet] do,
    are found again by the split of [get_readings]. *)
Theorem split_join (fields : list bytes) :
  fields <> [] -> Forall (fun f => ~ In SEP f) fields ->
  split SEP (join FIELD_SEPARATOR fields) = fields.
Proof.
  induction fields as [|f fields IH]; intros Hne Hall; [congruence|].
  inversion Hall as [|? ? Hf Hrest]; subst.
  destruct fields as [|g fields].
  - cbn [join]. apply split_no_sep. exact Hf.
  - change (join FIELD_SEPARATOR (f :: g :: fields))
      with (f ++ SEP :: join FIELD_SEPARATOR (g :: fields)).
    rewrite split_app_sep, split_no_sep by exact Hf.
    rewrite IH by (discriminate || exact Hrest). reflexivity.
Qed.

Lemma split_join_witness :
  split SEP (join FIELD_SEPARATOR [[x31]; []; [x32; x33]])
  = [[x31]; []; [x32; x33]].
Proof.
  apply (split_join [[x31]; []; [x32; x33]]); [discriminate|].
  repeat constructor; cbn; intuition discriminate.
Defined.

Section Entries.
Context {U : UnicodeData}.

(** X18.  An entry decodes only if it has at least four sub-fields,
    that is at least three separators; with fewer, [get_readings] ends
    in an exception ([IndexError] when the sub-fields that are there
    decode). *)
Theorem decode_entry_needs_four_fields (entry : bytes) (r : reading) :
  decode_entry entry = Ok r ->
  (3 <= count_occ Byte.byte_eq_dec entry SEP)%nat.
Proof.
  intro H.
  assert (Hl : (4 <= List.length (split SEP entry))%nat).
  { unfold decode_entry in H.
    destruct (split SEP entry) as [|f0 [|f1 [|f2 [|f3 more]]]];
      cbn [index nth_error rbind] in H; try discriminate;
      try (cbn; lia);
      repeat match type of H with
             | rbind ?x _ = _ => destruct x; cbn [rbind] in H;
                                 try discriminate
             end. }
  rewrite split_length in Hl. lia.
Qed.

(** X19.  Only the first four sub-fields of an entry count: further
    sub-fields after a fourth separator do not change what the entry
    decodes to. *)
Theorem decode_entry_ignores_fifth_field (entry more : bytes) :
  (3 <= count_occ Byte.byte_eq_dec entry SEP)%nat ->
  decode_entry (entry ++ SEP :: more) = decode_entry entry.
Proof.
  intro H. unfold decode_entry. rewrite split_app_sep.
  pose proof (split_length SEP entry) as Hl.
  destruct (split SEP entry) as [|f0 [|f1 [|f2 [|f3 tail]]]];
    cbn [List.length] in Hl; try lia.
  reflexivity.
Qed.

End Entries.

Lemma decode_entry_needs_four_fields_witness :
  (3 <= count_occ Byte.byte_eq_dec
          (b_ "100" ++ [SEP] ++ b_ "1200" ++ [SEP] ++ b_ "200101"
           ++ [SEP] ++ b_ "00") SEP)%nat.
Proof.
  apply (decode_entry_needs_four_fields (U := unicode_14) _
           (mk_decimal false 55 (-1), mk_datetime 2020 1 1 12 0 0, 0)).
  reflexivity.
Defined.

Lemma decode_entry_ignores_fifth_field_witness :
  decode_entry (U := unicode_14)
    ((b_ "100" ++ [SEP] ++ b_ "1200" ++ [SEP] ++ b_ "200101"
      ++ [SEP] ++ b_ "00") ++ SEP :: b_ "junk")
  = decode_entry (U := unicode_14)
      (b_ "100" ++ [SEP] ++ b_ "1200" ++ [SEP] ++ b_ "200101"
       ++ [SEP] ++ b_ "00").
Proof.
  apply (decode_entry_ignores_fifth_field (U := unicode_14)).
  vm_compute. lia.
Defined.

(** ** Dates, times and glucose values *)

Section Values.
Context {U : UnicodeData}.


Lemma all_from_spec (f : Z -> bool) (n : nat) :
  forall lo, all_from f lo n = true ->
             forall z, lo <= z < lo + Z.of_nat n -> f z = true.
Proof.
  induction n as [|n IH]; intros lo H z Hz; [lia|].
  cbn [all_from] in H. apply andb_prop in H. destruct H as [H0 H1].
  destruct (Z.eq_dec z lo) as [->|Hne]; [exact H0|].
  apply (IH (lo + 1) H1). lia.
Qed.

(** An alternative that fits in the text sees nothing of what follows
    the text. *)
Lemma match_alt_app (alt : list cls) :
  forall (s rest : str),
    (List.length alt <= List.length s)%nat ->
    match_alt alt (s ++ rest)
    = match match_alt alt s with
      | Some (m, r) => Some (m, r ++ rest)
      | None => None
      end.
Proof.
  induction alt as [|k alt IH]; intros s rest H; [reflexivity|].
  destruct s as [|c s]; [simpl in H; lia|].
  cbn [match_alt app]. destruct (cls_matches k c); [|reflexivity].
  rewrite IH by (simpl in H; lia).
  destruct (match_alt alt s) as [[m r]|]; reflexivity.
Qed.

(** The first alternative that matches is the one taken, when the rest of
    the match succeeds after it: there is no backtracking then. *)
Lemma first_alt_found {A} (alts : list (list cls)) (s rest m r : str)
    (k : str -> str -> option A) (a : A) :
  Forall (fun alt => (List.length alt <= List.length s)%nat) alts ->
  first_alt alts s (fun m r => Some (m, r)) = Some (m, r) ->
  k m (r ++ rest) = Some a ->
  first_alt alts (s ++ rest) k = Some a.
Proof.
  intros Hw. induction Hw as [|alt alts Ha _ IH]; intros H Hk; [discriminate|].
  cbn [first_alt] in *. rewrite match_alt_app by exact Ha.
  destruct (match_alt alt s) as [[m' r']|].
  - injection H as -> ->. rewrite Hk. reflexivity.
  - apply IH; assumption.
Qed.

Lemma two_digits_check :
  forallb
    (fun d =>
       all_from
         (fun v =>
            negb (field_range d v)
            || match first_alt (pattern d) (two_digits v)
                       (fun m r => Some (m, r)) with
               | Some (m, []) =>
                   if list_eq_dec N.eq_dec m (two_digits v) then true
                   else false
               | _ => false
               end)
         0 100)
    [Dy; Dm; Dd; DH; DM; DS] = true.
Proof. vm_compute. reflexivity. Qed.

Lemma first_alt_two_digits (d : directive) (v : Z) :
  field_range d v = true ->
  first_alt (pattern d) (two_digits v) (fun m r => Some (m, r))
  = Some (two_digits v, []).
Proof.
  intro Hr. pose proof two_digits_check as H.
  rewrite forallb_forall in H.
  assert (Hin : In d [Dy; Dm; Dd; DH; DM; DS])
    by (destruct d; simpl; tauto).
  specialize (H d Hin).
  assert (Hv : 0 <= v < 0 + Z.of_nat 100).
  { destruct d; cbn [field_range] in Hr; lia. }
  pose proof (all_from_spec _ _ _ H v Hv) as Hc. cbv beta in Hc.
  rewrite Hr in Hc. cbn [negb orb] in Hc.
  destruct (first_alt (pattern d) (two_digits v) (fun m r => Some (m, r)))
    as [[m [|? ?]]|]; try discriminate.
  destruct (list_eq_dec N.eq_dec m (two_digits v)); [|discriminate].
  subst m. reflexivity.
Qed.

(** A two-digit field at the head of the text is taken by its directive,
    when the rest of the format matches the rest of the text. *)
Lemma match_format_two_digits (d : directive) (v : Z)
    (fmt : list directive) (rest rest' : str)
    (groups : list (directive * str)) :
  field_range d v = true ->
  match_format fmt rest = Some (groups, rest') ->
  match_format (d :: fmt) (two_digits v ++ rest)
  = Some ((d, two_digits v) :: groups, rest').
Proof.
  intros Hr Hm. cbn [match_format].
  apply (first_alt_found (pattern d) (two_digits v) rest (two_digits v) []).
  - apply Forall_forall. intros alt Hin.
    apply pattern_width in Hin. exact Hin.
  - apply first_alt_two_digits, Hr.
  - cbn [app]. rewrite Hm. reflexivity.
Qed.

Lemma int_two_digits_check :
  all_from
    (fun v => match int_of_str 10 (two_digits v) with
              | Ok n => n =? v
              | Err _ => false
              end)
    0 100 = true.
Proof. vm_compute. reflexivity. Qed.

Lemma int_two_digits (v : Z) :
  0 <= v <= 99 -> int_of_str 10 (two_digits v) = Ok v.
Proof.
  intro Hv.
  pose proof (all_from_spec _ _ _ int_two_digits_check v) as H.
  cbv beta in H.
  destruct (int_of_str 10 (two_digits v)) as [n|e].
  - f_equal. apply Z.eqb_eq, H. lia.
  - discriminate H. lia.
Qed.

Lemma field_range_99 (d : directive) (v : Z) :
  field_range d v = true -> 0 <= v <= 99.
Proof. destruct d; cbn [field_range]; lia. Qed.

Lemma fill_two_digits (d : directive) (v : Z) (f : fields)
    (groups : list (directive * str)) :
  field_range d v = true ->
  fill f ((d, two_digits v) :: groups) = fill (set_field f d v) groups.
Proof.
  intro Hr. cbn [fill].
  rewrite (int_two_digits v (field_range_99 d v Hr)). reflexivity.
Qed.

Lemma decode_encode_ascii (s : str) :
  Forall (fun c => (c < 128)%N) s -> decode (encode_ascii s) = Ok s.
Proof.
  intro H. unfold decode.
  assert (E : utf8 (encode_ascii s) = Some s).
  { induction H as [|c s Hc _ IH]; [reflexivity|].
    cbn [encode_ascii map utf8]. fold (encode_ascii s).
    destruct (Byte.of_N c) as [b|] eqn:Eb.
    - apply Byte.to_of_N in Eb. rewrite Eb.
      apply N.ltb_lt in Hc. rewrite Hc, IH. reflexivity.
    - apply Byte.of_N_None_iff in Eb. lia. }
  rewrite E. reflexivity.
Qed.

Lemma two_digits_ascii (v : Z) :
  Forall (fun c => (c < 128)%N) (two_digits v).
Proof.
  pose proof (Z.mod_pos_bound (v / 10) 10 ltac:(lia)).
  pose proof (Z.mod_pos_bound v 10 ltac:(lia)).
  unfold two_digits. repeat constructor; lia.
Qed.

(** A leap year is a leap year again in the window of [%y]. *)
Lemma is_leap_window (y : Z) :
  is_leap y = true -> is_leap (1969 + (y - 1969) mod 100) = true.
Proof.
  unfold is_leap. intro H.
  apply andb_prop in H. destruct H as [H4 H].
  apply Z.eqb_eq in H4. apply orb_prop in H.
  apply andb_true_intro. split.
  - apply Z.eqb_eq. Z.div_mod_to_equations. lia.
  - destruct H as [H | H].
    + apply negb_true_iff, Z.eqb_neq in H.
      apply orb_true_intro. left. apply negb_true_iff, Z.eqb_neq.
      Z.div_mod_to_equations. lia.
    + apply Z.eqb_eq in H. apply orb_true_intro. right. apply Z.eqb_eq.
      Z.div_mod_to_equations. lia.
Qed.

Lemma days_in_month_window (y m : Z) :
  days_in_month y m <= days_in_month (1969 + (y - 1969) mod 100) m.
Proof.
  unfold days_in_month. destruct (m =? 2); [|lia].
  destruct (is_leap y) eqn:E.
  - rewrite (is_leap_window y E). lia.
  - destruct (is_leap (1969 + _)); lia.
Qed.

Lemma date_fields_decode (yy mo d : Z) :
  0 <= yy <= 99 -> 1 <= mo <= 12 ->
  1 <= d <= days_in_month (century yy) mo ->
  strptime (two_digits yy ++ two_digits mo ++ two_digits d) [Dy; Dm; Dd]
  = Ok (mk_datetime (century yy) mo d 0 0 0).
Proof.
  intros Hyy Hmo Hd.
  assert (Hd31 : days_in_month (century yy) mo <= 31).
  { unfold days_in_month.
    repeat match goal with |- context [if ?c then _ else _] => destruct c end;
      lia. }
  unfold strptime.
  rewrite <- (app_nil_r (two_digits d)).
  rewrite (match_format_two_digits Dy yy [Dm; Dd] _ []
             [(Dm, two_digits mo); (Dd, two_digits d)]).
  2: { cbn [field_range]. lia. }
  2: { repeat (apply match_format_two_digits; [cbn [field_range]; lia|]).
       reflexivity. }
  rewrite !fill_two_digits by (cbn [field_range]; lia).
  cbn [fill rbind set_field f_year f_month f_day f_hour f_minute f_second].
  fold (century yy).
  replace (days_in_month (century yy) mo <? d) with false
    by (symmetry; apply Z.ltb_ge; lia).
  reflexivity.
Qed.

(** X21.  What [set_current_date] writes for a date from 1900 on, read
    the way [get_current_date] reads it, is the same day and month in the
    year of the window 1969..2068 that has the same last two digits: a
    date inside the window comes back as it was, a date outside it comes
    back a whole number of centuries off. *)
Theorem date_round_trip (y m d : Z) :
  1900 <= y <= 9999 -> 1 <= m <= 12 -> 1 <= d <= days_in_month y m ->
  rbind (decode (encode_ascii (strftime_ymd (mk_date y m d))))
    (fun s => rbind (strptime s [Dy; Dm; Dd]) (fun dt => Ok (date_of dt)))
  = Ok (mk_date (1969 + (y - 1969) mod 100) m d).
Proof.
  intros Hy Hm Hd.
  pose proof (Z.mod_pos_bound y 100 ltac:(lia)) as Hyy.
  assert (HY : century (y mod 100) = 1969 + (y - 1969) mod 100).
  { unfold century. destruct (y mod 100 <=? 68) eqn:E;
      [apply Z.leb_le in E | apply Z.leb_gt in E];
      Z.div_mod_to_equations; lia. }
  pose proof (days_in_month_window y m) as Hw.
  unfold strftime_ymd. cbn [d_year d_month d_day].
  rewrite decode_encode_ascii
    by (repeat (apply Forall_app; split); apply two_digits_ascii).
  cbn [rbind].
  rewrite date_fields_decode by (rewrite ?HY; lia).
  cbn [rbind]. unfold date_of. cbn [year month day]. rewrite HY.
  reflexivity.
Qed.

End Values.


Lemma date_round_trip_witness :
  rbind (decode (encode_ascii (strftime_ymd (mk_date 2069 2 28))))
    (fun s => rbind (strptime (U := unicode_14) s [Dy; Dm; Dd])
                (fun dt => Ok (date_of dt)))
  = Ok (mk_date 1969 2 28).
Proof.
  apply (date_round_trip (U := unicode_14) 2069 2 28); cbn; lia.
Defined.

Section Measurements.
Context {U : UnicodeData}.

(** The six digits HHMMSS of a time of day are read as that time, on
    the first of January 1900. *)
Lemma time_fields_decode (h m s : Z) :
  0 <= h < 24 -> 0 <= m < 60 -> 0 <= s < 60 ->
  strptime (two_digits h ++ two_digits m ++ two_digits s) [DH; DM; DS]
  = Ok (mk_datetime 1900 1 1 h m s).
Proof.
  intros Hh Hm Hs. unfold strptime.
  rewrite <- (app_nil_r (two_digits s)).
  rewrite (match_format_two_digits DH h [DM; DS] _ []
             [(DM, two_digits m); (DS, two_digits s)]).
  2: { cbn [field_range]. lia. }
  2: { repeat (apply match_format_two_digits; [cbn [field_range]; lia|]).
       reflexivity. }
  rewrite !fill_two_digits by (cbn [field_range]; lia).
  cbn [fill rbind set_field f_year f_month f_day f_hour f_minute f_second].
  replace (59 <? s) with false by (symmetry; apply Z.ltb_ge; lia).
  reflexivity.
Qed.

Lemma glucose_check :
  all_from
    (fun raw =>
       forallb (fun b => negb (Byte.eqb b SEP)) (str_of_int raw)
       && match int_of_bytes 10 (str_of_int raw) with
          | Ok v => v =? raw
          | Err _ => false
          end
       && match rbind (float_of_int raw)
                  (fun x => quantize_tenths (float_mul x literal_0_0555)) with
          | Ok g =>
              negb (dec_sign g) && (dec_exp g =? -1)
              && (Z.abs (1000 * dec_coeff g - 555 * raw) <=? 500)
          | Err _ => false
          end)
    0 (Z.to_nat 10001) = true.
Proof. vm_compute. reflexivity. Qed.

(** X22.  For every raw value from 0 to 10000 at the head of an entry
    that decodes, the glucose of the reading is not negative, has one
    decimal place, and is within 0.05 of the raw value times 0.0555: the
    binary arithmetic costs at most the direction of a tie (as for 100,
    which gives 5.5). *)
Theorem glucose_accuracy (raw : Z) (rest : bytes) (r : reading) :
  0 <= raw <= 10000 ->
  decode_entry (str_of_int raw ++ SEP :: rest) = Ok r ->
  dec_sign (fst (fst r)) = false
  /\ dec_exp (fst (fst r)) = -1
  /\ Z.abs (1000 * dec_coeff (fst (fst r)) - 555 * raw) <= 500.
Proof.
  intros Hraw E.
  pose proof (all_from_spec _ _ _ glucose_check raw ltac:(lia)) as H.
  cbv beta in H.
  apply andb_prop in H. destruct H as [H Hg].
  apply andb_prop in H. destruct H as [Hsep Hint].
  assert (Hno : ~ In SEP (str_of_int raw)).
  { intro Hi. rewrite forallb_forall in Hsep. specialize (Hsep _ Hi).
    rewrite (Byte.byte_dec_lb (eq_refl SEP)) in Hsep. discriminate. }
  unfold decode_entry in E.
  rewrite split_app_sep, split_no_sep in E by exact Hno.
  cbn [app index nth_error rbind] in E.
  destruct (int_of_bytes 10 (str_of_int raw)) as [v|e]; [|discriminate].
  apply Z.eqb_eq in Hint. subst v. cbn [rbind] in E.
  destruct (float_of_int raw) as [x|e]; cbn [rbind] in *; [|discriminate].
  destruct (quantize_tenths (float_mul x literal_0_0555)) as [g|e];
    cbn [rbind] in E; [|discriminate].
  apply andb_prop in Hg. destruct Hg as [Hg Hb].
  apply andb_prop in Hg. destruct Hg as [Hs He].
  apply negb_true_iff in Hs. apply Z.eqb_eq in He. apply Z.leb_le in Hb.
  repeat match type of E with
         | rbind ?c _ = _ => destruct c; cbn [rbind] in E; try discriminate
         end.
  injection E as <-. cbn [fst]. auto.
Qed.

End Measurements.

Lemma glucose_accuracy_witness :
  dec_sign (mk_decimal false 55 (-1)) = false
  /\ dec_exp (mk_decimal false 55 (-1)) = -1
  /\ Z.abs (1000 * dec_coeff (mk_decimal false 55 (-1)) - 555 * 100) <= 500.
Proof.
  apply (glucose_accuracy (U := unicode_14) 100
           (b_ "1200" ++ [SEP] ++ b_ "200101" ++ [SEP] ++ b_ "00")
           (mk_decimal false 55 (-1), mk_datetime 2020 1 1 12 0 0, 0));
    [lia | reflexivity].
Defined.

(** ** The reading methods, end to end *)

Lemma lstrip_id (c : byte) (data : bytes) :
  hd_error data <> Some c -> lstrip c data = data.
Proof.
  destruct data as [|x data]; [reflexivity|]. cbn. intro H.
  rewrite byte_eqb_neq by congruence. reflexivity.
Qed.

Lemma strip_id (c : byte) (data : bytes) :
  hd_error data <> Some c -> hd_error (rev data) <> Some c ->
  strip c data = data.
Proof.
  intros H1 H2. unfold strip, rstrip.
  rewrite (lstrip_id c data H1), (lstrip_id c (rev data) H2).
  apply rev_involutive.
Qed.

Lemma utf8_ascii (data : bytes) :
  Forall (fun b => (Byte.to_N b < 128)%N) data ->
  utf8 data = Some (map Byte.to_N data).
Proof.
  induction 1 as [|b data Hb _ IH]; [reflexivity|].
  cbn [utf8 map]. apply N.ltb_lt in Hb. rewrite Hb, IH. reflexivity.
Qed.

Section EndToEnd.
Context {U : UnicodeData}.

Lemma status_text_check :
  forallb
    (fun k =>
       bytes_eqb (strip SEP (format_02X (Z.of_nat k)))
         (format_02X (Z.of_nat k)))
    (seq 0 256) = true.
Proof. vm_compute. reflexivity. Qed.

Lemma count_text_check :
  all_from
    (fun n =>
       sendable (str_of_int n)
       && bytes_eqb (strip SEP (str_of_int n)) (str_of_int n)
       && match int_of_bytes 10 (str_of_int n) with
          | Ok v => v =? n
          | Err _ => false
          end)
    0 (Z.to_nat 10001) = true.
Proof. vm_compute. reflexivity. Qed.

(** The handshake of a method, answered with ACK after any echoes. *)
Lemma handshake_acknowledged (cmd : bytes) (fields : list bytes)
    (echoes : bytes) (rest : list bytes) (t : bytes) (l : list exn) :
  List.length echoes = List.length (join FIELD_SEPARATOR (cmd :: fields)) ->
  _send_command cmd fields
    (mk_world (map (fun x => [x]) echoes ++ ACK :: rest) t l)
  = (Ok true,
     mk_world rest (t ++ join FIELD_SEPARATOR (cmd :: fields) ++ CR) l).
Proof.
  intro H. apply (send_command_any_echo cmd fields echoes x06 rest t l H).
Qed.

(** X23.  [get_and_clear_status], end to end.  The device echoes the
    command, acknowledges it, and sends one packet with a value below 256
    in two hex characters, closed by EOT and ACK: the method returns the
    member of [AccuChekStatus] with that value, and raises [ValueError]
    when no member has it; it has written the opcode, the carriage
    return and one ACK. *)
Theorem get_and_clear_status_decodes (v : Z) (e : byte)
    (rest : list bytes) (t : bytes) (l : list exn) :
  0 <= v < 256 ->
  get_and_clear_status
    (mk_world (map (fun x => [x]) [e]
               ++ ACK :: frames [format_02X v] ++ ACK :: rest) t l)
  = (match AccuChekStatus_of v with
     | Ok s => Ok (Some s)
     | Err x => Err x
     end,
     mk_world rest ((t ++ GET_AND_CLEAR_STATUS ++ CR) ++ ACK) l).
Proof.
  intro Hv.
  destruct (format_02X_byte v Hv) as (Hint & Hlen & Hno).
  assert (Hstrip : strip SEP (format_02X v) = format_02X v).
  { pose proof status_text_check as H. rewrite forallb_forall in H.
    specialize (H (Z.to_nat v)). rewrite Z2Nat.id in H by lia.
    apply bytes_eqb_eq, H, in_seq. lia. }
  unfold get_and_clear_status. unfold bind at 1.
  rewrite handshake_acknowledged by reflexivity.
  unfold bind at 1.
  rewrite receive_frames;
    [|discriminate
     |cbn [forallb]; unfold sendable; rewrite Hlen, Hno; reflexivity].
  cbn [map first_block]. unfold bind, lift. cbn [index nth_error].
  rewrite Hstrip, Hint. cbn [join repeat List.length].
  destruct (AccuChekStatus_of v); reflexivity.
Qed.

(** X24.  [get_reading_count], end to end.  The device echoes the
    command, acknowledges it, and sends the count, from 0 to 10000, in
    decimal digits in one packet closed by EOT and ACK: the method
    returns that count. *)
Theorem get_reading_count_decodes (n : Z) (e : byte)
    (rest : list bytes) (t : bytes) (l : list exn) :
  0 <= n <= 10000 ->
  get_reading_count
    (mk_world (map (fun x => [x]) [e]
               ++ ACK :: frames [str_of_int n] ++ ACK :: rest) t l)
  = (Ok (Some n),
     mk_world rest ((t ++ GET_READING_COUNT ++ CR) ++ ACK) l).
Proof.
  intro Hn.
  pose proof (all_from_spec _ _ _ count_text_check n ltac:(lia)) as H.
  cbv beta in H.
  apply andb_prop in H. destruct H as [H Hint].
  apply andb_prop in H. destruct H as [Hs Hstrip].
  apply bytes_eqb_eq in Hstrip.
  destruct (int_of_bytes 10 (str_of_int n)) as [v|x] eqn:Ei; [|discriminate].
  apply Z.eqb_eq in Hint. subst v.
  unfold get_reading_count. unfold bind at 1.
  rewrite handshake_acknowledged by reflexivity.
  unfold bind at 1.
  rewrite receive_frames;
    [|discriminate|cbn [forallb]; rewrite Hs; reflexivity].
  cbn [map first_block]. unfold bind, lift. cbn [index nth_error].
  rewrite Hstrip, Ei. reflexivity.
Qed.

(** X25.  The four methods that return text, end to end.  The device
    echoes the command (one byte for the name, three for the others),
    acknowledges it, and sends an ASCII text without markers that neither
    begins nor ends with the separator, in one packet closed by EOT and
    ACK: each method returns that text, character for character. *)
Theorem text_methods_return_text (text : bytes) (e1 : byte) (e3 : bytes)
    (rest : list bytes) (t : bytes) (l : list exn) :
  sendable text = true ->
  hd_error text <> Some SEP -> hd_error (rev text) <> Some SEP ->
  Forall (fun b => (Byte.to_N b < 128)%N) text ->
  List.length e3 = 3%nat ->
  get_meter_name
    (mk_world (map (fun x => [x]) [e1]
               ++ ACK :: frames [text] ++ ACK :: rest) t l)
  = (Ok (Some (map Byte.to_N text)),
     mk_world rest ((t ++ GET_METER_NAME ++ CR) ++ ACK) l)
  /\ get_meter_number
       (mk_world (map (fun x => [x]) e3
                  ++ ACK :: frames [text] ++ ACK :: rest) t l)
     = (Ok (Some (map Byte.to_N text)),
        mk_world rest
          ((t ++ (GET_METER_CONFIGURATION ++ FIELD_SEPARATOR
                  ++ GET_METER_NUMBER) ++ CR) ++ ACK) l)
  /\ get_serial_number
       (mk_world (map (fun x => [x]) e3
                  ++ ACK :: frames [text] ++ ACK :: rest) t l)
     = (Ok (Some (map Byte.to_N text)),
        mk_world rest
          ((t ++ (GET_METER_CONFIGURATION ++ FIELD_SEPARATOR
                  ++ GET_SERIAL_NUMBER) ++ CR) ++ ACK) l)
  /\ get_meter_units
       (mk_world (map (fun x => [x]) e3
                  ++ ACK :: frames [text] ++ ACK :: rest) t l)
     = (Ok (Some (map Byte.to_N text)),
        mk_world rest
          ((t ++ (GET_METER_SETTING ++ FIELD_SEPARATOR
                  ++ GET_FIELD_UNITS) ++ CR) ++ ACK) l).
Proof.
  intros Hs Hh Hr Hascii He3.
  pose proof (strip_id SEP text Hh Hr) as Hstrip.
  pose proof (utf8_ascii text Hascii) as Hutf.
  assert (Hall : forallb sendable [text] = true)
    by (cbn [forallb]; rewrite Hs; reflexivity).
  repeat split;
    [ unfold get_meter_name | unfold get_meter_number
    | unfold get_serial_number | unfold get_meter_units ];
    unfold bind at 1;
    rewrite handshake_acknowledged by (exact He3 || reflexivity);
    unfold bind at 1;
    (rewrite receive_frames; [|discriminate|exact Hall]);
    cbn [map first_block]; unfold bind, lift, decode;
    cbn [index nth_error]; rewrite Hstrip, Hutf; reflexivity.
Qed.

(** ** Dates, times and readings from the device *)

Lemma digits_check :
  all_from
    (fun v =>
       match digits v with
       | [a; b] =>
           negb (is_marker a) && negb (is_marker b)
           && negb (Byte.eqb a SEP) && negb (Byte.eqb b SEP)
       | _ => false
       end)
    0 100 = true.
Proof. vm_compute. reflexivity. Qed.

Lemma digits_two (v : Z) :
  0 <= v <= 99 ->
  exists a b, digits v = [a; b]
              /\ is_marker a = false /\ is_marker b = false
              /\ a <> SEP /\ b <> SEP.
Proof.
  intro Hv.
  pose proof (all_from_spec _ _ _ digits_check v ltac:(lia)) as H.
  cbv beta in H.
  destruct (digits v) as [|a [|b [|? ?]]]; try discriminate.
  exists a, b.
  repeat (apply andb_prop in H; destruct H as [H ?]).
  repeat match goal with
         | Hq : negb _ = true |- _ => apply negb_true_iff in Hq
         end.
  repeat split; try assumption; intros ->;
    rewrite (Byte.byte_dec_lb (eq_refl SEP)) in *; discriminate.
Qed.

Lemma raw_text_check :
  all_from
    (fun raw =>
       match str_of_int raw with
       | [] => false
       | a :: _ => negb (Byte.eqb a SEP)
       end
       && (len (str_of_int raw) <=? 5)
       && no_marker (str_of_int raw))
    0 (Z.to_nat 10001) = true.
Proof. vm_compute. reflexivity. Qed.

Lemma flags_text_check :
  all_from
    (fun v =>
       match format_02X v with
       | [a; b] => negb (Byte.eqb a SEP) && negb (Byte.eqb b SEP)
       | _ => false
       end)
    0 256 = true.
Proof. vm_compute. reflexivity. Qed.

Lemma not_in_sep (data : bytes) :
  forallb (fun b => negb (Byte.eqb b SEP)) data = true -> ~ In SEP data.
Proof.
  intros H Hi. rewrite forallb_forall in H. specialize (H _ Hi).
  rewrite (Byte.byte_dec_lb (eq_refl SEP)) in H. discriminate.
Qed.

Lemma digits_no_sep (v : Z) : 0 <= v <= 99 -> ~ In SEP (digits v).
Proof.
  intro Hv. destruct (digits_two v Hv) as (a & b & -> & _ & _ & Ha & Hb).
  intros [H|[H|[]]]; congruence.
Qed.

Lemma flags_text (v : Z) :
  0 <= v < 256 ->
  ~ In SEP (format_02X v) /\ hd_error (rev (format_02X v)) <> Some SEP.
Proof.
  intro Hv.
  pose proof (all_from_spec _ _ _ flags_text_check v ltac:(lia)) as H.
  cbv beta in H.
  destruct (format_02X v) as [|a [|b [|? ?]]]; try discriminate.
  apply andb_prop in H. destruct H as [Ha Hb].
  apply negb_true_iff in Ha, Hb.
  split.
  - intros [H|[H|[]]]; subst;
      rewrite (Byte.byte_dec_lb (eq_refl SEP)) in *; discriminate.
  - cbn. intro H. injection H as ->.
    rewrite (Byte.byte_dec_lb (eq_refl SEP)) in *; discriminate.
Qed.

(** The text of a timestamp, HHMM then yymmdd, is read as that minute of
    that day. *)
Lemma timestamp_decodes (h mi yy mo d : Z) :
  field_range DH h = true -> field_range DM mi = true ->
  field_range Dy yy = true -> field_range Dm mo = true ->
  1 <= d <= days_in_month (century yy) mo ->
  strptime (two_digits h ++ two_digits mi ++ two_digits yy
            ++ two_digits mo ++ two_digits d) [DH; DM; Dy; Dm; Dd]
  = Ok (mk_datetime (century yy) mo d h mi 0).
Proof.
  intros Hh Hmi Hyy Hmo Hd.
  assert (Hd31 : days_in_month (century yy) mo <= 31).
  { unfold days_in_month.
    repeat match goal with |- context [if ?c then _ else _] => destruct c end;
      lia. }
  assert (Hdd : field_range Dd d = true) by (cbn [field_range]; lia).
  unfold strptime.
  rewrite <- (app_nil_r (two_digits d)).
  rewrite (match_format_two_digits DH h [DM; Dy; Dm; Dd] _ []
             [(DM, two_digits mi); (Dy, two_digits yy);
              (Dm, two_digits mo); (Dd, two_digits d)] Hh).
  2: { repeat (apply match_format_two_digits; [assumption|]). reflexivity. }
  rewrite !fill_two_digits by assumption.
  cbn [fill rbind set_field f_year f_month f_day f_hour f_minute f_second].
  fold (century yy).
  replace (days_in_month (century yy) mo <? d) with false
    by (symmetry; apply Z.ltb_ge; lia).
  reflexivity.
Qed.

Lemma glucose_of_raw (raw : Z) :
  0 <= raw <= 10000 ->
  ~ In SEP (str_of_int raw)
  /\ int_of_bytes 10 (str_of_int raw) = Ok raw
  /\ exists g,
       rbind (float_of_int raw)
         (fun x => quantize_tenths (float_mul x literal_0_0555)) = Ok g
       /\ dec_sign g = false /\ dec_exp g = -1
       /\ Z.abs (1000 * dec_coeff g - 555 * raw) <= 500.
Proof.
  intro Hraw.
  pose proof (all_from_spec _ _ _ glucose_check raw ltac:(lia)) as H.
  cbv beta in H.
  apply andb_prop in H. destruct H as [H Hg].
  apply andb_prop in H. destruct H as [Hsep Hint].
  split; [apply not_in_sep, Hsep|]. split.
  - destruct (int_of_bytes 10 (str_of_int raw)) as [v|e]; [|discriminate].
    apply Z.eqb_eq in Hint. congruence.
  - destruct (rbind (float_of_int raw) _) as [g|e]; [|discriminate].
    exists g.
    apply andb_prop in Hg. destruct Hg as [Hg Hb].
    apply andb_prop in Hg. destruct Hg as [Hs He].
    apply negb_true_iff in Hs. apply Z.eqb_eq in He. apply Z.leb_le in Hb.
    auto.
Qed.

Lemma valid_entry_fields (e : entry) :
  valid_entry e = true ->
  0 <= e_raw e <= 10000
  /\ field_range DH (e_hour e) = true /\ field_range DM (e_minute e) = true
  /\ field_range Dy (e_year e) = true /\ field_range Dm (e_month e) = true
  /\ 1 <= e_day e <= days_in_month (century (e_year e)) (e_month e)
  /\ 0 <= e_flags e < 256.
Proof.
  unfold valid_entry. intro H.
  repeat (apply andb_prop in H; destruct H as [H ?]).
  repeat match goal with
         | Hq : (_ <=? _) = true |- _ => apply Z.leb_le in Hq
         | Hq : (_ <? _) = true |- _ => apply Z.ltb_lt in Hq
         end.
  repeat split; assumption.
Qed.

(** The text of a valid entry decodes to a reading with the entry's
    timestamp and flags, and a glucose value of one decimal within 0.05
    of the raw value times 0.0555. *)
Lemma decode_entry_text (e : entry) :
  valid_entry e = true ->
  exists g,
    decode_entry (entry_text e) = Ok (g, entry_time e, e_flags e)
    /\ dec_sign g = false /\ dec_exp g = -1
    /\ Z.abs (1000 * dec_coeff g - 555 * e_raw e) <= 500.
Proof.
  intro Hv.
  destruct (valid_entry_fields e Hv) as (Hraw & Hh & Hmi & Hyy & Hmo & Hd & Hf).
  destruct (glucose_of_raw (e_raw e) Hraw) as (Hsep & Hint & g & Hg & Hprops).
  destruct (format_02X_byte (e_flags e) Hf) as (Hfl & _ & _).
  destruct (flags_text (e_flags e) Hf) as (Hfsep & _).
  assert (Hd31 : days_in_month (century (e_year e)) (e_month e) <= 31).
  { unfold days_in_month.
    repeat match goal with |- context [if ?c then _ else _] => destruct c end;
      lia. }
  pose proof (field_range_99 _ _ Hh). pose proof (field_range_99 _ _ Hmi).
  pose proof (field_range_99 _ _ Hyy). pose proof (field_range_99 _ _ Hmo).
  exists g. split; [|exact Hprops].
  unfold decode_entry, entry_text, FIELD_SEPARATOR. cbn [join app].
  rewrite !split_app_sep.
  rewrite !split_no_sep;
    [| exact Hfsep
     | rewrite !in_app_iff;
       intros [Hi|[Hi|Hi]]; revert Hi; apply digits_no_sep; lia
     | rewrite !in_app_iff;
       intros [Hi|Hi]; revert Hi; apply digits_no_sep; lia
     | exact Hsep ].
  cbn [app index nth_error rbind]. rewrite Hint. cbn [rbind].
  destruct (float_of_int (e_raw e)) as [x|?]; cbn [rbind] in Hg |- *;
    [|discriminate].
  rewrite Hg. cbn [rbind].
  unfold digits, encode_ascii. rewrite <- !map_app.
  fold (encode_ascii
          ((two_digits (e_hour e) ++ two_digits (e_minute e))
           ++ two_digits (e_year e) ++ two_digits (e_month e)
           ++ two_digits (e_day e))).
  rewrite decode_encode_ascii
    by (repeat (apply Forall_app; split); apply two_digits_ascii).
  cbn [rbind]. rewrite <- app_assoc.
  rewrite timestamp_decodes by assumption.
  cbn [rbind]. rewrite Hfl. reflexivity.
Qed.

Lemma decode_entries_all (data : list bytes) :
  forall (acc rs : list reading),
    Forall2 (fun b r => decode_entry b = Ok r) data rs ->
    decode_entries acc data = Ok (acc ++ rs).
Proof.
  induction data as [|b data IH]; intros acc rs H; inversion H; subst.
  - rewrite app_nil_r. reflexivity.
  - cbn [decode_entries]. rewrite H2. cbn [rbind].
    rewrite (IH _ _ H4), <- app_assoc. reflexivity.
Qed.

Lemma strip_between (c a : byte) (text : bytes) :
  a <> c -> hd_error (rev (a :: text)) <> Some c ->
  strip c (c :: (a :: text) ++ [c]) = a :: text.
Proof.
  intros Ha Hr. unfold strip, rstrip.
  cbn [lstrip app]. rewrite (Byte.byte_dec_lb (eq_refl c)).
  rewrite (byte_eqb_neq a c Ha).
  change (a :: text ++ [c]) with ((a :: text) ++ [c]).
  rewrite rev_app_distr. change (rev [c]) with [c]. cbn [app lstrip].
  rewrite (Byte.byte_dec_lb (eq_refl c)).
  rewrite (lstrip_id c _ Hr). apply rev_involutive.
Qed.

Lemma raw_text (raw : Z) :
  0 <= raw <= 10000 ->
  (exists a rest, str_of_int raw = a :: rest /\ a <> SEP)
  /\ len (str_of_int raw) <= 5
  /\ no_marker (str_of_int raw) = true.
Proof.
  intro Hraw.
  pose proof (all_from_spec _ _ _ raw_text_check raw ltac:(lia)) as H.
  cbv beta in H.
  apply andb_prop in H. destruct H as [H Hn].
  apply andb_prop in H. destruct H as [Hh Hl].
  apply Z.leb_le in Hl. repeat split; try assumption.
  destruct (str_of_int raw) as [|a rest]; [discriminate|].
  exists a, rest. split; [reflexivity|].
  apply negb_true_iff in Hh. intros ->.
  rewrite (Byte.byte_dec_lb (eq_refl SEP)) in Hh. discriminate.
Qed.

(** The packet of a valid entry can be sent, and the receiver's strip
    leaves the text of the entry. *)
Lemma entry_block_sendable (e : entry) :
  valid_entry e = true ->
  sendable (entry_block e) = true
  /\ strip SEP (entry_block e) = entry_text e.
Proof.
  intro Hv.
  destruct (valid_entry_fields e Hv) as (Hraw & Hh & Hmi & Hyy & Hmo & Hd & Hf).
  assert (Hd31 : days_in_month (century (e_year e)) (e_month e) <= 31).
  { unfold days_in_month.
    repeat match goal with |- context [if ?c then _ else _] => destruct c end;
      lia. }
  destruct (raw_text (e_raw e) Hraw) as ((a & rest & Ea & Ha) & Hl & Hn).
  destruct (format_02X_byte (e_flags e) Hf) as (_ & Hfl & Hfn).
  destruct (flags_text (e_flags e) Hf) as (_ & Hfr).
  destruct (digits_two (e_hour e) (field_range_99 _ _ Hh))
    as (h1 & h2 & Eh & ? & ? & _ & _).
  destruct (digits_two (e_minute e) (field_range_99 _ _ Hmi))
    as (m1 & m2 & Em & ? & ? & _ & _).
  destruct (digits_two (e_year e) (field_range_99 _ _ Hyy))
    as (y1 & y2 & Ey & ? & ? & _ & _).
  destruct (digits_two (e_month e) (field_range_99 _ _ Hmo))
    as (o1 & o2 & Eo & ? & ? & _ & _).
  destruct (digits_two (e_day e) ltac:(lia))
    as (d1 & d2 & Ed & ? & ? & _ & _).
  split.
  - unfold sendable, entry_block, entry_text, FIELD_SEPARATOR.
    cbn [join]. rewrite Eh, Em, Ey, Eo, Ed.
    apply andb_true_intro. split.
    + apply Z.ltb_lt. rewrite !len_app. rewrite Hfl.
      unfold len in *. cbn [List.length app]. lia.
    + unfold no_marker in *. rewrite !forallb_app.
      cbn [forallb app]. rewrite Hn, Hfn.
      repeat match goal with
             | Hq : is_marker _ = false |- _ => rewrite Hq; clear Hq
             end.
      reflexivity.
  - unfold entry_block, FIELD_SEPARATOR. cbn [app].
    assert (Et : exists text, entry_text e = a :: text).
    { unfold entry_text. cbn [join]. rewrite Ea. cbn [app]. eauto. }
    destruct Et as (text & Et). rewrite Et.
    apply strip_between; [exact Ha|].
    rewrite <- Et. unfold entry_text, FIELD_SEPARATOR. cbn [join].
    rewrite !app_assoc, rev_app_distr.
    destruct (format_02X (e_flags e)) as [|f1 [|f2 [|? ?]]];
      try (unfold len in Hfl; cbn [List.length] in Hfl; lia).
    cbn [rev app hd_error] in Hfr |- *. exact Hfr.
Qed.

(** Three two-digit fields in one packet: the packet can be sent, is
    left as it is by the receiver's strip, and decodes to the digits. *)
Lemma three_fields_block (a b c : Z) :
  0 <= a <= 99 -> 0 <= b <= 99 -> 0 <= c <= 99 ->
  sendable (digits a ++ digits b ++ digits c) = true
  /\ strip SEP (digits a ++ digits b ++ digits c)
     = digits a ++ digits b ++ digits c
  /\ decode (digits a ++ digits b ++ digits c)
     = Ok (two_digits a ++ two_digits b ++ two_digits c).
Proof.
  intros Ha Hb Hc. split; [|split].
  - destruct (digits_two a Ha) as (a1 & a2 & -> & ? & ? & _ & _).
    destruct (digits_two b Hb) as (b1 & b2 & -> & ? & ? & _ & _).
    destruct (digits_two c Hc) as (c1 & c2 & -> & ? & ? & _ & _).
    unfold sendable, no_marker. cbn [app forallb].
    repeat match goal with
           | Hq : is_marker _ = false |- _ => rewrite Hq; clear Hq
           end.
    reflexivity.
  - destruct (digits_two a Ha) as (a1 & a2 & -> & _ & _ & Ha1 & _).
    destruct (digits_two b Hb) as (b1 & b2 & -> & _).
    destruct (digits_two c Hc) as (c1 & c2 & -> & _ & _ & _ & Hc2).
    apply strip_id; cbn; congruence.
  - unfold digits, encode_ascii. rewrite <- !map_app.
    apply decode_encode_ascii.
    repeat (apply Forall_app; split); apply two_digits_ascii.
Qed.

(** X26.  [get_current_time] and [get_current_date], end to end.  The
    device echoes the three bytes of the command, acknowledges it, and
    sends six digits in one packet closed by EOT and ACK.  The digits
    HHMMSS of a time of day are returned as that hour, minute and second;
    the digits yymmdd of a day that exists are returned as that day, in
    2000..2068 for years up to 68 and in 1969..1999 for the others. *)
Theorem clock_methods_decode (h mi s yy mo d : Z) (e3 : bytes)
    (rest : list bytes) (t : bytes) (l : list exn) :
  List.length e3 = 3%nat ->
  0 <= h < 24 -> 0 <= mi < 60 -> 0 <= s < 60 ->
  0 <= yy <= 99 -> 1 <= mo <= 12 ->
  1 <= d <= days_in_month (century yy) mo ->
  get_current_time
    (mk_world (map (fun x => [x]) e3
               ++ ACK :: frames [digits h ++ digits mi ++ digits s]
               ++ ACK :: rest) t l)
  = (Ok (Some (mk_time h mi s)),
     mk_world rest
       ((t ++ (GET_METER_SETTING ++ FIELD_SEPARATOR ++ GET_FIELD_TIME)
           ++ CR) ++ ACK) l)
  /\ get_current_date
       (mk_world (map (fun x => [x]) e3
                  ++ ACK :: frames [digits yy ++ digits mo ++ digits d]
                  ++ ACK :: rest) t l)
     = (Ok (Some (mk_date (century yy) mo d)),
        mk_world rest
          ((t ++ (GET_METER_SETTING ++ FIELD_SEPARATOR ++ GET_FIELD_DATE)
              ++ CR) ++ ACK) l).
Proof.
  intros He Hh Hmi Hs Hyy Hmo Hd.
  assert (Hd31 : days_in_month (century yy) mo <= 31).
  { unfold days_in_month.
    repeat match goal with |- context [if ?c then _ else _] => destruct c end;
      lia. }
  destruct (three_fields_block h mi s) as (Hts & Htstrip & Htd); try lia.
  destruct (three_fields_block yy mo d) as (Hds & Hdstrip & Hdd); try lia.
  split.
  - unfold get_current_time. unfold bind at 1.
    rewrite handshake_acknowledged by exact He.
    unfold bind at 1.
    rewrite receive_frames;
      [|discriminate|cbn [forallb]; rewrite Hts; reflexivity].
    cbn [map first_block]. unfold bind, lift. cbn [index nth_error].
    rewrite Htstrip, Htd, time_fields_decode by assumption.
    reflexivity.
  - unfold get_current_date. unfold bind at 1.
    rewrite handshake_acknowledged by exact He.
    unfold bind at 1.
    rewrite receive_frames;
      [|discriminate|cbn [forallb]; rewrite Hds; reflexivity].
    cbn [map first_block]. unfold bind, lift. cbn [index nth_error].
    rewrite Hdstrip, Hdd, date_fields_decode by assumption.
    reflexivity.
Qed.

(** X27.  [get_readings], end to end.  The device echoes the command,
    acknowledges it, and sends the entries one per packet, each as the
    raw glucose value (0 to 10000) in decimal, the time HHMM, the date
    yymmdd and the flags in two hex characters between separators, the
    last packet closed by EOT and ACK: the method returns one reading per
    entry, in the order of arrival, with the entry's timestamp (year in
    1969..2068, second 0) and flags and a glucose value of one decimal
    within 0.05 of the raw value times 0.0555; it has written the
    command, the carriage return and one ACK per packet. *)
Theorem get_readings_decodes (start end_ : Z) (entries : list entry)
    (echoes : bytes) (rest : list bytes) (t : bytes) (l : list exn) :
  Z.abs start < 10 ^ 4300 -> Z.abs end_ < 10 ^ 4300 ->
  entries <> [] -> forallb valid_entry entries = true ->
  List.length echoes
  = List.length (join FIELD_SEPARATOR
                   [GET_READINGS; str_of_int start; str_of_int end_]) ->
  exists readings,
    get_readings start end_
      (mk_world (map (fun x => [x]) echoes
                 ++ ACK :: frames (map entry_block entries) ++ ACK :: rest)
         t l)
    = (Ok (Some readings),
       mk_world rest
         ((t ++ join FIELD_SEPARATOR
                  [GET_READINGS; str_of_int start; str_of_int end_] ++ CR)
          ++ repeat x06 (List.length entries)) l)
    /\ Forall2
         (fun e r =>
            snd (fst r) = entry_time e /\ snd r = e_flags e
            /\ dec_sign (fst (fst r)) = false
            /\ dec_exp (fst (fst r)) = -1
            /\ Z.abs (1000 * dec_coeff (fst (fst r)) - 555 * e_raw e) <= 500)
         entries readings.
Proof.
  intros _ _ Hne Hv He.
  assert (Hall : forall e, In e entries -> valid_entry e = true)
    by (apply forallb_forall; exact Hv).
  assert (Hdec : exists readings,
             Forall2 (fun b r => decode_entry b = Ok r)
               (map (strip SEP) (map entry_block entries)) readings
             /\ Forall2
                  (fun e r =>
                     snd (fst r) = entry_time e /\ snd r = e_flags e
                     /\ dec_sign (fst (fst r)) = false
                     /\ dec_exp (fst (fst r)) = -1
                     /\ Z.abs (1000 * dec_coeff (fst (fst r))
                               - 555 * e_raw e) <= 500)
                  entries readings).
  { clear Hne Hv He. induction entries as [|e es IH].
    - exists []. split; constructor.
    - destruct IH as (rs & H1 & H2); [intros; apply Hall; right; assumption|].
      assert (Hve : valid_entry e = true) by (apply Hall; left; reflexivity).
      destruct (decode_entry_text e Hve) as (g & Hg & Hs & Hx & Hb).
      destruct (entry_block_sendable e Hve) as (_ & Hstrip).
      exists ((g, entry_time e, e_flags e) :: rs). split.
      + cbn [map]. constructor; [rewrite Hstrip; exact Hg | exact H1].
      + constructor; [cbn [fst snd]; auto | exact H2]. }
  destruct Hdec as (readings & Hd1 & Hd2).
  exists readings. split; [|exact Hd2].
  unfold get_readings. unfold bind at 1.
  rewrite handshake_acknowledged by exact He.
  unfold bind at 1.
  rewrite receive_frames.
  - unfold bind, lift. rewrite (decode_entries_all _ [] readings Hd1).
    cbn [app]. rewrite !length_map. reflexivity.
  - destruct entries; [congruence | discriminate].
  - rewrite forallb_forall. intros b Hb. apply in_map_iff in Hb.
    destruct Hb as (e & <- & Hin).
    apply entry_block_sendable, Hall, Hin.
Qed.

End EndToEnd.

Lemma get_and_clear_status_decodes_witness :
  get_and_clear_status (U := unicode_14)
    (mk_world (map (fun x => [x]) [x0b]
               ++ ACK :: frames [format_02X 251] ++ ACK :: []) [] [])
  = (Ok (Some COMMUNICATION_TIMEOUT), mk_world [] [x0b; x0d; x06] []).
Proof.
  apply (get_and_clear_status_decodes (U := unicode_14) 251 x0b [] [] []).
  lia.
Defined.

Lemma get_reading_count_decodes_witness :
  get_reading_count (U := unicode_14)
    (mk_world (map (fun x => [x]) [x60]
               ++ ACK :: frames [str_of_int 480] ++ ACK :: []) [] [])
  = (Ok (Some 480), mk_world [] [x60; x0d; x06] []).
Proof.
  apply (get_reading_count_decodes (U := unicode_14) 480 x60 [] [] []).
  lia.
Defined.

Lemma text_methods_return_text_witness :
  get_meter_name (U := unicode_14)
    (mk_world (map (fun x => [x]) [x49]
               ++ ACK :: frames [b_ "ACCU-CHEK"] ++ ACK :: []) [] [])
  = (Ok (Some (map Byte.to_N (b_ "ACCU-CHEK"))),
     mk_world [] [x49; x0d; x06] []).
Proof.
  apply (proj1 (text_methods_return_text (U := unicode_14)
                  (b_ "ACCU-CHEK") x49 [x43; x09; x34] [] [] []
                  eq_refl
                  ltac:(discriminate) ltac:(discriminate)
                  ltac:(repeat constructor) eq_refl)).
Defined.

Lemma clock_methods_decode_witness :
  get_current_time (U := unicode_14)
    (mk_world (map (fun x => [x]) [x53; x09; x32]
               ++ ACK :: frames [digits 23 ++ digits 59 ++ digits 7]
               ++ ACK :: []) [] [])
  = (Ok (Some (mk_time 23 59 7)),
     mk_world []
       (([] ++ (GET_METER_SETTING ++ FIELD_SEPARATOR ++ GET_FIELD_TIME)
           ++ CR) ++ ACK) [])
  /\ get_current_date (U := unicode_14)
       (mk_world (map (fun x => [x]) [x53; x09; x32]
                  ++ ACK :: frames [digits 24 ++ digits 2 ++ digits 29]
                  ++ ACK :: []) [] [])
     = (Ok (Some (mk_date (century 24) 2 29)),
        mk_world []
          (([] ++ (GET_METER_SETTING ++ FIELD_SEPARATOR ++ GET_FIELD_DATE)
              ++ CR) ++ ACK) []).
Proof.
  apply (clock_methods_decode (U := unicode_14) 23 59 7 24 2 29
           [x53; x09; x32] [] [] []);
    first [reflexivity | lia | (vm_compute; split; discriminate)].
Defined.

Lemma get_readings_decodes_witness :
  exists readings,
    get_readings (U := unicode_14) 1 2
      (mk_world (map (fun x => [x]) [x61; x09; x31; x09; x32]
                 ++ ACK :: frames (map entry_block
                                     [mk_entry 100 12 0 20 1 1 0;
                                      mk_entry 250 7 45 99 12 31 128])
                 ++ ACK :: []) [] [])
    = (Ok (Some readings),
       mk_world []
         (([] ++ join FIELD_SEPARATOR
                   [GET_READINGS; str_of_int 1; str_of_int 2] ++ CR)
          ++ repeat x06 2) [])
    /\ Forall2
         (fun e r =>
            snd (fst r) = entry_time e /\ snd r = e_flags e
            /\ dec_sign (fst (fst r)) = false
            /\ dec_exp (fst (fst r)) = -1
            /\ Z.abs (1000 * dec_coeff (fst (fst r)) - 555 * e_raw e) <= 500)
         [mk_entry 100 12 0 20 1 1 0; mk_entry 250 7 45 99 12 31 128]
         readings.
Proof.
  apply (get_readings_decodes (U := unicode_14) 1 2
           [mk_entry 100 12 0 20 1 1 0; mk_entry 250 7 45 99 12 31 128]
           [x61; x09; x31; x09; x32] [] [] []);
    [ apply Z.ltb_lt; vm_compute; reflexivity
    | apply Z.ltb_lt; vm_compute; reflexivity
    | discriminate | reflexivity | reflexivity ].
Defined.

(** ** Rejected packets, returned lists, and the handshake on any line *)

Section Invariants.
Context {U : UnicodeData}.

(** X28.  A rejected packet stays rejected.  Once the buffer holds a
    whole packet (a length that reads as hex, that many data bytes, two
    checksum characters) that fails the checks, it fails them with the
    same exception whatever bytes are appended to it, as the buffer is
    not emptied after a failure. *)
Theorem rejected_packet_stays_rejected (p q : bytes) (n : Z) (e : exn) :
  int_of_bytes 16 (slice p 0 2) = Ok n ->
  0 <= n -> 2 + n + 2 <= len p ->
  parse_packet p = Err e ->
  parse_packet (p ++ q) = Err e.
Proof. exact (parse_packet_stale p q n e). Qed.

(** X29.  When [_receive_packet] returns a list it has at least one
    block, so [data[0]] in the calling methods cannot raise
    [IndexError]. *)
Theorem receive_packet_returns_a_block (w w' : world)
    (blocks : list bytes) :
  _receive_packet w = (Ok (Some blocks), w') -> blocks <> [].
Proof. exact (receive_packet_blocks_nonempty w w' blocks). Qed.

End Invariants.

(** X30.  On any line, with wrong echoes, missing echoes or no answer at
    all, [_send_command] writes the command, its fields joined by the
    separator, and the carriage return: exactly these bytes, before it
    returns or raises. *)
Theorem send_command_writes_the_command (cmd : bytes)
    (fields : list bytes) (w : world) :
  tx (snd (_send_command cmd fields w))
  = tx w ++ join FIELD_SEPARATOR (cmd :: fields) ++ CR.
Proof. exact (send_command_tx cmd fields w). Qed.

Lemma rejected_packet_stays_rejected_witness :
  parse_packet (U := unicode_14)
    ((b_ "03" ++ [x09; x41; x09] ++ b_ "00") ++ body [x09; x41; x09])
  = Err ParseError.
Proof.
  apply (rejected_packet_stays_rejected (U := unicode_14)
           (b_ "03" ++ [x09; x41; x09] ++ b_ "00") (body [x09; x41; x09])
           3 ParseError);
    [reflexivity | lia | cbn; lia | reflexivity].
Defined.

Lemma receive_packet_returns_a_block_witness :
  [[x41]] <> [].
Proof.
  apply (receive_packet_returns_a_block (U := unicode_14)
           (mk_world [frame true [x09; x41; x09]; ACK] [] [])
           (mk_world [] [x06] [])).
  reflexivity.
Defined.
